(** * ShopSmartAI: the recommendation engine and its orchestrating service

    A shallow embedding of [ecommerce/recommendation_engine.py] and
    [ecommerce/recommendation_service.py].

    - NumPy [float64] values are Rocq's primitive binary64 floats, so every
      arithmetic operation rounds exactly as the Python code does.
    - A two-dimensional [ndarray] is a list of rows.
    - Python dictionaries are [gmap]s, Python lists are lists.
    - [IndexError] and [KeyError] are [None] in the [option] monad.
    - The database, the model state held by [RecommendationService] and the
      records written to the logger are threaded explicitly as a [World]. *)

From Stdlib Require Import ZArith Floats.
From stdpp Require Import gmap strings list fin_maps pretty sorting.

(* ===================================================================== *)
(** * Part I.  Definitions                                                *)
(* ===================================================================== *)

(** ** Python built-ins *)

Section PySort.
Context {A : Type}.
Variable lt : A → A → bool.

(** One step of a stable insertion: [x] originally stands before every
    element of the already sorted [l], so it stops in front of the
    first element that is not strictly smaller. Only [<] is consulted,
    as in CPython's [list.sort]. *)
Fixpoint py_insort (x : A) (l : list A) : list A :=
  match l with
  | [] => [x]
  | y :: l' => if lt y x then y :: py_insort x l' else x :: l
  end.

(** [l.sort()]: the stable ascending sort. Any stable sort returns this
    list when [<] is a strict weak order on the elements. *)
Definition py_sort (l : list A) : list A := foldr py_insort [] l.

(** [l.sort(reverse=True)]: CPython reverses the list, sorts it stably
    and reverses the result, so equal elements keep their order. *)
Definition py_sort_reverse (l : list A) : list A := reverse (py_sort (reverse l)).
End PySort.

(** ** NumPy primitives *)

(** A [float64] matrix, as the list of its rows (all of one length). *)
Abbreviation ndarray := (list (list float)).

(** [matrix.shape[0]] and [matrix.shape[1]] (a matrix without rows is
    taken to have no columns). *)
Definition shape0 (M : ndarray) : nat := length M.
Definition shape1 (M : ndarray) : nat :=
  match M with
  | [] => 0
  | r :: _ => length r
  end.

(** [np.zeros((n, m))] *)
Definition np_zeros (n m : nat) : ndarray := replicate n (replicate m 0%float).

(** [np.sum(v)] and [np.dot(u, v)], accumulated from left to right. NumPy
    may add in another order; the results agree whenever the partial sums
    are exact, as they are for sums of small integers. *)
Definition np_sum (v : list float) : float := foldl PrimFloat.add 0%float v.
Definition np_dot (u v : list float) : float := np_sum (zip_with PrimFloat.mul u v).

(** [v ** 2], element by element. *)
Definition np_square (v : list float) : list float := (λ x, x * x)%float <$> v.

(** [matrix[i, :]] and [matrix[:, j]] for indices the loops keep in range. *)
Definition row_of (M : ndarray) (i : nat) : list float := default [] (M !! i).
Definition col_of (M : ndarray) (j : nat) : list float := (λ r, default 0%float (r !! j)) <$> M.

(** [matrix[i, j]], failing as NumPy does when an index is out of range. *)
Definition cell (M : ndarray) (i j : nat) : option float := M !! i ≫= (.!! j).

(** [matrix[i, j] = x], in place. *)
Definition set_cell (M : ndarray) (i j : nat) (x : float) : ndarray := alter (<[j := x]>) i M.

(** ** recommendation_engine.py *)

(** The body of the inner loop of [compute_cosine_similarity_matrix] and of
    [compute_item_similarity_matrix]: the two functions differ only in
    reading rows or columns, which is the parameter [vec]. *)
Definition similarity_step (vec : nat → list float) (norms : list float)
    (i : nat) (similarity_matrix : ndarray) (j : nat) : ndarray :=
  if decide (i = j) then set_cell similarity_matrix i j 1%float
  else
    let dot_product := np_dot (vec i) (vec j) in
    let norm_i := default 0%float (norms !! i) in
    let norm_j := default 0%float (norms !! j) in
    if ((0 <? norm_i) && (0 <? norm_j))%float then
      let similarity := (dot_product / (norm_i * norm_j))%float in
      set_cell (set_cell similarity_matrix i j similarity) j i similarity
    else
      set_cell (set_cell similarity_matrix i j 0%float) j i 0%float.

Definition pairwise_similarity (n : nat) (vec : nat → list float) : ndarray :=
  let similarity_matrix := np_zeros n n in
  let norms := (λ i, PrimFloat.sqrt (np_sum (np_square (vec i)))) <$> seq 0 n in
  foldl (λ S i, foldl (similarity_step vec norms i) S (seq i (n - i)))
        similarity_matrix (seq 0 n).

Definition compute_cosine_similarity_matrix (matrix : ndarray) : ndarray :=
  pairwise_similarity (shape0 matrix) (row_of matrix).

Definition compute_item_similarity_matrix (matrix : ndarray) : ndarray :=
  pairwise_similarity (shape1 matrix) (col_of matrix).

(** One candidate neighbour of [fast_predict_rating]: the Python tuple
    [(similarities[i], i, ratings[i])]. *)
Definition rater : Type := float * nat * float.

(** Python's [<] on these tuples: the first position at which the two
    tuples differ (by [==]) decides. *)
Definition rater_lt (a b : rater) : bool :=
  let '(s1, i1, r1) := a in
  let '(s2, i2, r2) := b in
  if negb (s1 =? s2)%float then (s1 <? s2)%float
  else if negb (i1 =? i2)%nat then (i1 <? i2)%nat
  else (r1 <? r2)%float.

(** [matrix[:, j]], an [IndexError] when [j] is not a column. *)
Definition column (M : ndarray) (j : nat) : option (list float) :=
  if decide (j < shape1 M) then Some (col_of M j) else None.

(** What one turn of the first loop of [fast_predict_rating] appends.
    [and] short-circuits: [ratings[i]] is not read when [i == user_idx]. *)
Definition rater_at (similarities ratings : list float) (user_idx i : nat)
    : option (list rater) :=
  if decide (i = user_idx) then Some []
  else
    r ← ratings !! i;
    if (0 <? r)%float then s ← similarities !! i; Some [(s, i, r)] else Some [].

(** [similar_users] as the first loop leaves it. *)
Definition rated_by (similarities ratings : list float) (user_idx : nat)
    : option (list rater) :=
  found ← mapM (rater_at similarities ratings user_idx) (seq 0 (length similarities));
  Some (concat found).

(** [similar_users] after [sort(reverse=True)] and the slice [[:k]]. *)
Definition similar_users (user_item_matrix similarity_matrix : ndarray)
    (user_idx item_idx k : nat) : option (list rater) :=
  similarities ← similarity_matrix !! user_idx;
  ratings ← column user_item_matrix item_idx;
  found ← rated_by similarities ratings user_idx;
  Some (take k (py_sort_reverse rater_lt found)).

(** The second loop: [(weighted_sum, similarity_sum)]. *)
Definition weigh (acc : float * float) (u : rater) : float * float :=
  let '(weighted_sum, similarity_sum) := acc in
  let '(sim, _, rating) := u in
  if (0 <? sim)%float
  then ((weighted_sum + sim * rating)%float, (similarity_sum + PrimFloat.abs sim)%float)
  else acc.

Definition weighted_average (users : list rater) : float :=
  match users with
  | [] => 0%float
  | _ =>
    let '(weighted_sum, similarity_sum) := foldl weigh (0%float, 0%float) users in
    if (0 <? similarity_sum)%float then (weighted_sum / similarity_sum)%float else 0%float
  end.

Definition fast_predict_rating (user_item_matrix similarity_matrix : ndarray)
    (user_idx item_idx k : nat) : option float :=
  weighted_average <$> similar_users user_item_matrix similarity_matrix user_idx item_idx k.

(** The default [k=10] of [fast_predict_rating]. *)
Definition default_k : nat := 10.

(** What one turn of the loop of [compute_user_recommendations] appends. *)
Definition recommend_at (user_item_matrix similarity_matrix : ndarray)
    (user_idx i : nat) : option (list (nat * float)) :=
  seen ← cell user_item_matrix user_idx i;
  if (seen =? 0)%float then
    predicted_rating ←
      fast_predict_rating user_item_matrix similarity_matrix user_idx i default_k;
    Some (if (0 <? predicted_rating)%float then [(i, predicted_rating)] else [])
  else Some [].

(** The key comparison of [recommendations.sort(key=lambda x: x[1], ...)]. *)
Definition score_lt (a b : nat * float) : bool := (a.2 <? b.2)%float.

Definition compute_user_recommendations (user_item_matrix similarity_matrix : ndarray)
    (user_idx n_recommendations : nat) : option (list (nat * float)) :=
  let n_items := shape1 user_item_matrix in
  found ← mapM (recommend_at user_item_matrix similarity_matrix user_idx) (seq 0 n_items);
  let recommendations := concat found in
  Some (take n_recommendations (py_sort_reverse score_lt recommendations)).

(** [np.argsort(v)]: the indices of [v] in ascending order of value, NaN
    last as NumPy orders them. The sort is taken stable: NumPy's default
    kind is an insertion sort on short arrays; on longer ones the order
    among equal values may differ. *)
Definition np_lt (a b : float) : bool :=
  (a <? b)%float || (negb (b =? b)%float && (a =? a)%float).

Definition np_argsort (v : list float) : list nat :=
  (λ p : nat * float, p.1)
    <$> py_sort (λ a b : nat * float, np_lt a.2 b.2) (imap (λ i x, (i, x)) v).

(** ** The database *)

(** Modelled from the spec: a row of the product catalogue (models.py is
    not among the sources). Section 6 lists id, name, description, category
    name and price; the service reads the id, the category and the active
    flag, and hands the rest to scikit-learn. *)
Record Product : Type := mkProduct {
  p_id : Z;
  p_category : string;
  p_is_active : bool
}.

(** Modelled from the spec: an interaction event (models.py is not among
    the sources): session identifier, product identifier, interaction kind
    and timestamp (section 3). *)
Record UserInteraction : Type := mkUserInteraction {
  ui_session_key : string;
  ui_product : Z;
  ui_interaction_type : string;
  ui_timestamp : Z
}.

Record DB : Type := mkDB {
  products : list Product;
  interactions : list UserInteraction
}.

#[global] Instance Product_eq_dec : EqDecision Product.
Proof. solve_decision. Defined.
#[global] Instance UserInteraction_eq_dec : EqDecision UserInteraction.
Proof. solve_decision. Defined.

(** [Model.objects.get(...)] over the rows that satisfy the lookup. *)
Inductive get_result (A : Type) : Type :=
  | Found (x : A)
  | DoesNotExist
  | MultipleObjectsReturned.
Arguments Found {A} x.
Arguments DoesNotExist {A}.
Arguments MultipleObjectsReturned {A}.

Definition objects_get {A : Type} (P : A → bool) (table : list A) : get_result A :=
  match List.filter P table with
  | [] => DoesNotExist
  | [x] => Found x
  | _ => MultipleObjectsReturned
  end.

(** [Product.objects.get(id=product_id)]; [id] is the primary key, so at
    most one row matches. *)
Definition get_product (d : DB) (product_id : Z) : option Product :=
  head (List.filter (λ p, bool_decide (p_id p = product_id)) (products d)).

(** [Product.objects.get(id=product_id, is_active=True)] *)
Definition get_active_product (d : DB) (product_id : Z) : option Product :=
  head (List.filter (λ p, bool_decide (p_id p = product_id) && p_is_active p) (products d)).

(** Does an event carry the (session, product, kind) triple? *)
Definition same_event (session_key : string) (product_id : Z) (interaction_type : string)
    (e : UserInteraction) : bool :=
  bool_decide (ui_session_key e = session_key)
  && bool_decide (ui_product e = product_id)
  && bool_decide (ui_interaction_type e = interaction_type).

(** ** recommendation_service.py *)

Inductive log_record : Type :=
  | LogInfo (message : string)
  | LogWarning (message : string)
  | LogError (message : string).

(** The attributes of [RecommendationService]; [None] is Python's [None]. *)
Record RecommendationService : Type := mkService {
  user_item_matrix : option ndarray;
  user_similarity_matrix : option ndarray;
  item_similarity_matrix : option ndarray;
  user_mapping : gmap string nat;
  item_mapping : gmap Z nat;
  reverse_user_mapping : gmap nat string;
  reverse_item_mapping : gmap nat Z;
  content_features : option ndarray;
  is_trained : bool
}.

(** [RecommendationService.__init__] *)
Definition init_service : RecommendationService :=
  mkService None None None ∅ ∅ ∅ ∅ None false.

(** Everything a method can read or change: the database, [self] and the
    records handed to the logger (oldest first). Messages that embed the
    text of an exception keep their fixed prefix only. *)
Record World : Type := mkWorld {
  db : DB;
  service : RecommendationService;
  log : list log_record
}.

Definition logging (r : log_record) (w : World) : World :=
  mkWorld (db w) (service w) (log w ++ [r]).

Definition with_service (s : RecommendationService) (w : World) : World :=
  mkWorld (db w) s (log w).

Definition with_db (d : DB) (w : World) : World :=
  mkWorld d (service w) (log w).

(** One entry of a result list: [{'product': ..., 'score': ..., 'reason': ...}]. *)
Record Recommendation : Type := mkRecommendation {
  product : Product;
  score : float;
  reason : string
}.

(** [_get_interaction_weight]: the dictionary and [weights.get(kind, 1.0)]. *)
Definition weights : gmap string float :=
  <["purchase" := 5%float]> (<["dislike" := (-2)%float]>
    (<["like" := 3%float]> (<["view" := 1%float]> ∅))).

Definition _get_interaction_weight (interaction_type : string) : float :=
  default 1%float (weights !! interaction_type).

(** *** pandas and dictionary helpers of [prepare_interaction_data] *)

(** A row of the data frame: ((session_key, product_id), weight). *)
Definition frame_row : Type := (string * Z) * float.

(** [Series.unique()]: the distinct values in order of first appearance. *)
Definition pd_unique {A : Type} `{EqDecision A} (l : list A) : list A :=
  foldl (λ acc x, if decide (x ∈ acc) then acc else acc ++ [x]) [] l.

(** The order in which [groupby] lists its groups: by session key, then by
    product id. *)
Definition group_key_lt (a b : string * Z) : bool :=
  if decide (a.1 = b.1) then (a.2 <? b.2)%Z else String.ltb a.1 b.1.

(** The weights of the rows of one group, in the order of the frame. *)
Definition group_weights (key : string * Z) (rows : list frame_row) : list float :=
  (λ r : frame_row, r.2) <$> List.filter (λ r : frame_row, bool_decide (r.1 = key)) rows.

(** [df.groupby(['session_key', 'product_id'])['weight'].sum().reset_index()] *)
Definition groupby_sum (rows : list frame_row) : list frame_row :=
  (λ key, (key, np_sum (group_weights key rows)))
    <$> py_sort group_key_lt (pd_unique ((λ r : frame_row, r.1) <$> rows)).

(** [enumerate(l)] *)
Definition enumerate {A : Type} (l : list A) : list (nat * A) := imap (λ i x, (i, x)) l.

(** A dictionary comprehension over (key, value) pairs: later pairs win. *)
Definition py_dict {K V : Type} `{Countable K} (items : list (K * V)) : gmap K V :=
  foldl (λ m kv, <[kv.1 := kv.2]> m) ∅ items.

(** [{user: idx for idx, user in enumerate(l)}] *)
Definition index_of_value {K : Type} `{Countable K} (l : list K) : gmap K nat :=
  py_dict ((λ p : nat * K, (p.2, p.1)) <$> enumerate l).

(** [{idx: user for user, idx in mapping.items()}]; the values of
    [mapping] are distinct, so the order of [items()] does not show. *)
Definition value_of_index {K : Type} `{Countable K} (mapping : gmap K nat) : gmap nat K :=
  py_dict ((λ p : K * nat, (p.2, p.1)) <$> map_to_list mapping).

(** [matrix[i, j] = x] with NumPy's bounds check. *)
Definition assign_cell (M : ndarray) (i j : nat) (x : float) : option ndarray :=
  _ ← cell M i j; Some (set_cell M i j x).

(** One turn of the loop over [user_item_df.iterrows()]: two dictionary
    reads (a [KeyError] when the key is absent) and one assignment. *)
Definition fill_row (users : gmap string nat) (items : gmap Z nat)
    (acc : option ndarray) (row : frame_row) : option ndarray :=
  M ← acc;
  user_idx ← users !! row.1.1;
  item_idx ← items !! row.1.2;
  assign_cell M user_idx item_idx row.2.

Section Service.
(** [prepare_content_features] rests on scikit-learn's [TfidfVectorizer]
    and [StandardScaler]. It reads the active products only, catches its
    own exceptions, and returns the feature matrix or [None] together
    with what it logged. *)
Variable prepare_content_features : DB → option ndarray * list log_record.

Definition prepare_interaction_data (w : World) : option ndarray * World :=
  match interactions (db w) with
  | [] => (None, logging (LogWarning "No user interactions found") w)
  | _ =>
    let interaction_data : list frame_row :=
      (λ interaction,
         ((ui_session_key interaction, ui_product interaction),
          _get_interaction_weight (ui_interaction_type interaction)))
        <$> interactions (db w) in
    let user_item_df := groupby_sum interaction_data in
    let unique_users := pd_unique ((λ r : frame_row, r.1.1) <$> user_item_df) in
    let unique_items := pd_unique ((λ r : frame_row, r.1.2) <$> user_item_df) in
    let users := index_of_value unique_users in
    let items := index_of_value unique_items in
    let s := service w in
    let w' :=
      with_service
        (mkService (user_item_matrix s) (user_similarity_matrix s) (item_similarity_matrix s)
           users items (value_of_index users) (value_of_index items)
           (content_features s) (is_trained s)) w in
    let n_users := length unique_users in
    let n_items := length unique_items in
    match foldl (fill_row users items) (Some (np_zeros n_users n_items)) user_item_df with
    | Some matrix => (Some matrix, w')
    | None => (None, logging (LogError "Error preparing interaction data: ") w')
    end
  end.

Definition train_model (w : World) : bool * World :=
  let w := logging (LogInfo "Training recommendation model...") w in
  let '(matrix, w) := prepare_interaction_data w in
  let s := service w in
  let w :=
    with_service
      (mkService matrix (user_similarity_matrix s) (item_similarity_matrix s)
         (user_mapping s) (item_mapping s) (reverse_user_mapping s) (reverse_item_mapping s)
         (content_features s) (is_trained s)) w in
  match matrix with
  | None => (false, logging (LogWarning "No interaction data available for training") w)
  | Some M =>
    let w := logging (LogInfo "Computing user similarity matrix...") w in
    let user_sim := compute_cosine_similarity_matrix M in
    let w := logging (LogInfo "Computing item similarity matrix...") w in
    let item_sim := compute_item_similarity_matrix M in
    let '(features, logged) := prepare_content_features (db w) in
    let s := service w in
    let w :=
      mkWorld (db w)
        (mkService (Some M) (Some user_sim) (Some item_sim)
           (user_mapping s) (item_mapping s) (reverse_user_mapping s) (reverse_item_mapping s)
           features true)
        (log w ++ logged) in
    (true, logging (LogInfo "Model training completed successfully") w)
  end.

(** [Count('userinteraction')] for one product. *)
Definition interaction_count (d : DB) (p : Product) : nat :=
  length (List.filter (λ e, bool_decide (ui_product e = p_id p)) (interactions d)).

(** [order_by('-interaction_count')]: descending, rows of equal count in
    table order (SQL leaves their order open). *)
Definition count_lt (d : DB) (p q : Product) : bool :=
  (interaction_count d p <? interaction_count d q)%nat.

Definition _get_popular_recommendations (w : World) (n_recommendations : nat)
    : list Recommendation :=
  let popular_products :=
    take n_recommendations
      (py_sort_reverse (count_lt (db w)) (List.filter p_is_active (products (db w)))) in
  (λ p, mkRecommendation p 1%float "popularity") <$> popular_products.

Definition _get_category_recommendations (w : World) (product_id : Z) (n_recommendations : nat)
    : list Recommendation * World :=
  match get_product (db w) product_id with
  | None => ([], logging (LogError "Error getting category recommendations: ") w)
  | Some product =>
    let similar_products :=
      take n_recommendations
        (List.filter (λ p, negb (bool_decide (p_id p = product_id)))
           (List.filter (λ p, bool_decide (p_category p = p_category product) && p_is_active p)
              (products (db w)))) in
    ((λ p, mkRecommendation p 1%float "same_category") <$> similar_products, w)
  end.

(** The loops that turn indices back into products: a [KeyError] of the
    reverse mapping leaves the [try] block, an inactive or missing
    product is skipped. *)
Definition product_of_index (w : World) (tag : string) (entry : nat * float)
    : option (list Recommendation) :=
  product_id ← reverse_item_mapping (service w) !! entry.1;
  Some match get_active_product (db w) product_id with
       | Some p => [mkRecommendation p entry.2 tag]
       | None => []
       end.

Definition get_user_recommendations (w : World) (session_key : string) (n_recommendations : nat)
    : list Recommendation * World :=
  let w := if is_trained (service w) then w else (train_model w).2 in
  if negb (is_trained (service w)) || bool_decide (user_mapping (service w) !! session_key = None)
  then (_get_popular_recommendations w n_recommendations, w)
  else
    let attempt :=
      user_idx ← user_mapping (service w) !! session_key;
      M ← user_item_matrix (service w);
      S ← user_similarity_matrix (service w);
      recommendations ← compute_user_recommendations M S user_idx n_recommendations;
      found ← mapM (product_of_index w "collaborative_filtering") recommendations;
      Some (concat found) in
    match attempt with
    | Some product_recommendations => (product_recommendations, w)
    | None =>
      let w := logging (LogError "Error getting user recommendations: ") w in
      (_get_popular_recommendations w n_recommendations, w)
    end.

Definition similar_at (w : World) (similarities : list float) (idx : nat)
    : option (list Recommendation) :=
  s ← similarities !! idx;
  if (0 <? s)%float then product_of_index w "item_similarity" (idx, s) else Some [].

Definition get_similar_products (w : World) (product_id : Z) (n_recommendations : nat)
    : list Recommendation * World :=
  let w := if is_trained (service w) then w else (train_model w).2 in
  if negb (is_trained (service w)) || bool_decide (item_mapping (service w) !! product_id = None)
  then _get_category_recommendations w product_id n_recommendations
  else
    let attempt :=
      item_idx ← item_mapping (service w) !! product_id;
      S ← item_similarity_matrix (service w);
      similarities ← S !! item_idx;
      let similar_indices :=
        take n_recommendations (drop 1 (reverse (np_argsort similarities))) in
      found ← mapM (similar_at w similarities) similar_indices;
      Some (concat found) in
    match attempt with
    | Some similar_products => (similar_products, w)
    | None =>
      let w := logging (LogError "Error getting similar products: ") w in
      _get_category_recommendations w product_id n_recommendations
    end.

(** [UserInteraction.objects.get_or_create(...)] followed by the refresh
    of the timestamp: the table afterwards, or [None] when the lookup
    raises [MultipleObjectsReturned]. *)
Definition upsert_interaction (events : list UserInteraction)
    (session_key : string) (product_id : Z) (interaction_type : string) (now : Z)
    : option (list UserInteraction) :=
  match objects_get (same_event session_key product_id interaction_type) events with
  | DoesNotExist =>
    Some (events ++ [mkUserInteraction session_key product_id interaction_type now])
  | Found _ =>
    Some ((λ e, if same_event session_key product_id interaction_type e
                then mkUserInteraction (ui_session_key e) (ui_product e)
                       (ui_interaction_type e) now
                else e) <$> events)
  | MultipleObjectsReturned => None
  end.

(** [record_interaction]. [now] is the outcome of evaluating
    [models.timezone.now()], an attribute looked up in Django and not in
    these sources: [Some t] at time [t], [None] when the evaluation
    raises, which the last [except] clause turns into a failure. The two
    places that read the clock lie on different paths, so one value
    serves both. *)
Definition record_interaction (w : World) (session_key : string) (product_id : Z)
    (interaction_type : string) (now : option Z) : bool * World :=
  match get_product (db w) product_id with
  | None =>
    (false,
     logging (LogError ("Product with id " +:+ pretty product_id +:+ " does not exist")) w)
  | Some product =>
    match now ≫= upsert_interaction (interactions (db w)) session_key product_id
                   interaction_type with
    | None => (false, logging (LogError "Error recording interaction: ") w)
    | Some events =>
      let w := with_db (mkDB (products (db w)) events) w in
      let interaction_count := length (interactions (db w)) in
      let w := if decide (interaction_count `mod` 50 = 0) then (train_model w).2 else w in
      (true, w)
    end
  end.
End Service.

(** [models.timezone.now()] as the program evaluates it. [models] is
    [django.db.models] (the import on line 3 of the service), a package
    that has no attribute [timezone]: the lookup raises [AttributeError]
    before any clock is read. In [record_interaction] the expression is an
    argument of [get_or_create], so it is evaluated, and raises, before the
    table is touched. *)
Definition models_timezone_now : option Z := None.

(* ===================================================================== *)
(** * Part II.  The vocabulary of the statements                          *)
(* ===================================================================== *)

(** Not a NaN: Python's [x == x]. *)
Definition not_nan (x : float) : Prop := (x =? x)%float = true.

(** A key in Z * Z * Z whose lexicographic order is the order of the
    floating-point values that are not NaN. *)
Definition SFrank (f : spec_float) : Z * Z * Z :=
  match f with
  | S754_nan => (0, 0, 0)%Z
  | S754_zero _ => (0, 0, 0)%Z
  | S754_infinity true => (-2, 0, 0)%Z
  | S754_infinity false => (2, 0, 0)%Z
  | S754_finite true m e => (-1, - e, - Z.pos m)%Z
  | S754_finite false m e => (1, e, Z.pos m)%Z
  end.

(** The key of a binary64 value. *)
Definition rank (x : float) : Z * Z * Z := SFrank (Prim2SF x).

(** The lexicographic order on the keys, as a proposition and as a
    comparison. *)
Definition lex_lt (a b : Z * Z * Z) : Prop :=
  (a.1.1 < b.1.1 ∨ (a.1.1 = b.1.1 ∧ (a.1.2 < b.1.2 ∨ (a.1.2 = b.1.2 ∧ a.2 < b.2))))%Z.

Definition lex_cmp (a b : Z * Z * Z) : comparison :=
  match (a.1.1 ?= b.1.1)%Z with
  | Eq => match (a.1.2 ?= b.1.2)%Z with
          | Eq => (a.2 ?= b.2)%Z
          | c => c
          end
  | c => c
  end.

(** [<] is a strict weak order on the elements that satisfy [P]. *)
Definition weak_order {A : Type} (lt : A → A → bool) (P : A → Prop) : Prop :=
  (∀ a b, P a → P b → lt a b = true → lt b a = false) ∧
  (∀ a b c, P a → P b → P c → lt a b = false → lt b c = false → lt a c = false).

(** No later element is strictly smaller than an earlier one. *)
Definition ascending {A : Type} (lt : A → A → bool) : list A → Prop :=
  StronglySorted (λ a b, lt b a = false).

(** No earlier element is strictly smaller than a later one. *)
Definition descending {A : Type} (lt : A → A → bool) : list A → Prop :=
  StronglySorted (λ a b, lt a b = false).

(** A tuple without NaN. *)
Definition rater_ok (t : rater) : Prop := not_nan t.1.1 ∧ not_nan t.2.

(** [rater_lt] in terms of the keys. *)
Definition rater_before (a b : rater) : Prop :=
  lex_lt (rank a.1.1) (rank b.1.1) ∨
  (rank a.1.1 = rank b.1.1 ∧
   (a.1.2 < b.1.2 ∨ (a.1.2 = b.1.2 ∧ lex_lt (rank a.2) (rank b.2)))).

(** A pair whose score is not NaN. *)
Definition score_ok (p : nat * float) : Prop := not_nan p.2.

(** An [n] by [m] matrix. *)
Definition has_shape (n m : nat) (M : ndarray) : Prop :=
  length M = n ∧ Forall (λ r, length r = m) M.

(** The Euclidean norm the first loop stores in [norms[i]]. *)
Definition norm_of (vec : nat → list float) (i : nat) : float :=
  PrimFloat.sqrt (np_sum (np_square (vec i))).

(** What the loop body writes for a pair [i < j]. *)
Definition off_diagonal (vec : nat → list float) (i j : nat) : float :=
  if ((0 <? norm_of vec i) && (0 <? norm_of vec j))%float
  then (np_dot (vec i) (vec j) / (norm_of vec i * norm_of vec j))%float
  else 0%float.

(** The entry the loops leave at [(a, b)]. *)
Definition final_value (vec : nat → list float) (a b : nat) : float :=
  if decide (a = b) then 1%float else off_diagonal vec (a `min` b) (a `max` b).

(** The cells written once the outer loop is at [i] and the inner at [j]. *)
Definition written (i j a b : nat) : Prop :=
  a `min` b < i ∨ (a `min` b = i ∧ a `max` b < j).

(** The invariant of the two loops. *)
Definition loop_inv (vec : nat → list float) (n i j : nat) (S : ndarray) : Prop :=
  has_shape n n S ∧
  ∀ a b, a < n → b < n →
    cell S a b = Some (if decide (written i j a b) then final_value vec a b else 0%float).

(** The rows that count as raters of a column, given the test [qualifies]
    on their entry: the code's test is [ratings[r] > 0]. *)
Definition is_rater (qualifies : float → bool) (ratings : list float) (user_idx r : nat) : Prop :=
  r ≠ user_idx ∧ ∃ x, ratings !! r = Some x ∧ qualifies x = true.

(** [is_rater] as a test, and the rows of the similarity row that pass it. *)
Definition rater_test (qualifies : float → bool) (ratings : list float) (user_idx r : nat)
    : bool :=
  bool_decide (r ≠ user_idx) && from_option qualifies false (ratings !! r).

Definition rater_rows (qualifies : float → bool) (similarities ratings : list float)
    (user_idx : nat) : list nat :=
  List.filter (rater_test qualifies ratings user_idx) (seq 0 (length similarities)).

(** The test of the code, [x > 0], and the test of the specification,
    [x != 0]. *)
Definition positive (x : float) : bool := (0 <? x)%float.

(** The tuple the first loop builds for row [r], and its components. *)
Definition rater_tuple (similarities ratings : list float) (r : nat) : rater :=
  (default 0%float (similarities !! r), r, default 0%float (ratings !! r)).

Definition sim_of (t : rater) : float := t.1.1.
Definition row_of_rater (t : rater) : nat := t.1.2.



(** [a] is ranked before [b]: a larger similarity, or an equal one and a
    larger row index. *)
Definition ranked_before (a b : rater) : Prop :=
  (sim_of b <? sim_of a)%float = true
  ∨ ((sim_of a =? sim_of b)%float = true ∧ row_of_rater b < row_of_rater a).

(** Column [c] is unseen by the user: [user_item_matrix[user_idx, c] == 0]. *)
Definition unseen (M : ndarray) (user_idx c : nat) : Prop :=
  ∃ x, cell M user_idx c = Some x ∧ (x =? 0)%float = true.

(** Column [c] is a candidate with score [s]: unseen, and predicted
    (with the default [k]) strictly above 0. *)
Definition candidate (M S : ndarray) (user_idx c : nat) (s : float) : Prop :=
  unseen M user_idx c ∧
  fast_predict_rating M S user_idx c default_k = Some s ∧
  (0 <? s)%float = true.

(** Whether the loop of [compute_user_recommendations] appends a pair for
    column [c], and which. *)
Definition rec_test (M S : ndarray) (user_idx c : nat) : bool :=
  match recommend_at M S user_idx c with
  | Some (_ :: _) => true
  | _ => false
  end.

Definition rec_entry (M S : ndarray) (user_idx c : nat) : nat * float :=
  match recommend_at M S user_idx c with
  | Some (x :: _) => x
  | _ => (c, 0%float)
  end.

(** The matrix is rectangular and the similarity row of the user is no
    longer than the matrix has rows: the shapes [compute_user_recommendations]
    is called with. *)
Definition shapes_agree (M S : ndarray) (user_idx : nat) : Prop :=
  Forall (λ r, length r = shape1 M) M ∧
  user_idx < length M ∧
  ∃ similarities, S !! user_idx = Some similarities ∧ length similarities ≤ length M.

(** The events of one (session, product) pair, in table order, and the sum
    of their weights. *)
Definition events_of (events : list UserInteraction) (s : string) (p : Z)
    : list UserInteraction :=
  List.filter (λ e, bool_decide ((ui_session_key e, ui_product e) = (s, p))) events.

Definition pair_weight (events : list UserInteraction) (s : string) (p : Z) : float :=
  np_sum ((λ e, _get_interaction_weight (ui_interaction_type e)) <$> events_of events s p).

(** The rows of the data frame [prepare_interaction_data] builds. *)
Definition interaction_rows (events : list UserInteraction) : list frame_row :=
  (λ interaction,
     ((ui_session_key interaction, ui_product interaction),
      _get_interaction_weight (ui_interaction_type interaction))) <$> events.

(** At most one event per (session, product, kind): what
    [record_interaction], the only writer of the table, maintains. *)
Definition unique_events (events : list UserInteraction) : Prop :=
  ∀ s p k, length (List.filter (same_event s p k) events) ≤ 1.

(** The refresh of the timestamp of the events of a triple. *)
Definition refreshed (s : string) (p : Z) (k : string) (now : Z) (e : UserInteraction)
    : UserInteraction :=
  if same_event s p k e
  then mkUserInteraction (ui_session_key e) (ui_product e) (ui_interaction_type e) now
  else e.

(** The (session, product, kind) triple of an event. *)
Definition event_key (e : UserInteraction) : string * Z * string :=
  (ui_session_key e, ui_product e, ui_interaction_type e).

(** The events recorded on a product, of any kind and by any session, in
    table order: what "the recorded interactions of a product" are. *)
Definition events_on_product (events : list UserInteraction) (product_id : Z)
    : list UserInteraction :=
  filter (λ e, ui_product e = product_id) events.

(** [matrix.T] of a rectangular matrix. *)
Definition transpose (M : ndarray) : ndarray := (λ j, col_of M j) <$> seq 0 (shape1 M).

(** [mapping] numbers its keys from 0 to [n - 1] without gaps or repeats,
    and [reverse] is the inverse dictionary. *)
Definition indexes {K : Type} `{Countable K} (mapping : gmap K nat) (reverse : gmap nat K)
    (n : nat) : Prop :=
  (∀ key i, mapping !! key = Some i ↔ reverse !! i = Some key) ∧
  (∀ i, is_Some (reverse !! i) ↔ i < n).

(** The attributes of a trained service fit together: the rating matrix is
    [n_users] by [n_items], the two similarity matrices are the ones
    computed from it, and the dictionaries number the sessions and the
    products by the rows and the columns. *)
Definition consistent (s : RecommendationService) : Prop :=
  ∃ (M : ndarray) (n_users n_items : nat),
    user_item_matrix s = Some M ∧
    user_similarity_matrix s = Some (compute_cosine_similarity_matrix M) ∧
    item_similarity_matrix s = Some (compute_item_similarity_matrix M) ∧
    0 < n_users ∧ 0 < n_items ∧
    has_shape n_users n_items M ∧
    indexes (user_mapping s) (reverse_user_mapping s) n_users ∧
    indexes (item_mapping s) (reverse_item_mapping s) n_items.

(** A service that counts as trained is consistent. *)
Definition trained_consistent (w : World) : Prop :=
  is_trained (service w) = true → consistent (service w).

(** Index [a] stands before index [b] in the descending order of the
    values: they differ, and the value at [a] is not below the one at [b]. *)
Definition listed_before (v : list float) (a b : nat) : Prop :=
  a ≠ b ∧ ∃ x y, v !! a = Some x ∧ v !! b = Some y ∧ np_lt x y = false.

(** One step in the life of the global instance [recommendation_service]:
    a call of one of the three methods the views use, or a change of the
    database by someone else (the admin site, [populate_data]). *)
Inductive step (prepare_content_features : DB → option ndarray * list log_record)
    : World → World → Prop :=
  | step_recommend (w : World) (session_key : string) (n : nat) :
      step prepare_content_features w
        (get_user_recommendations prepare_content_features w session_key n).2
  | step_similar (w : World) (product_id : Z) (n : nat) :
      step prepare_content_features w
        (get_similar_products prepare_content_features w product_id n).2
  | step_record (w : World) (session_key : string) (product_id : Z) (interaction_type : string)
      (now : option Z) :
      step prepare_content_features w
        (record_interaction prepare_content_features w session_key product_id
           interaction_type now).2
  | step_database (w : World) (d : DB) :
      step prepare_content_features w (with_db d w).

(** Two worlds with the same database and the same model state, the
    content features and the log apart. *)
Definition same_model (w1 w2 : World) : Prop :=
  db w1 = db w2 ∧
  user_item_matrix (service w1) = user_item_matrix (service w2) ∧
  user_similarity_matrix (service w1) = user_similarity_matrix (service w2) ∧
  item_similarity_matrix (service w1) = item_similarity_matrix (service w2) ∧
  user_mapping (service w1) = user_mapping (service w2) ∧
  item_mapping (service w1) = item_mapping (service w2) ∧
  reverse_user_mapping (service w1) = reverse_user_mapping (service w2) ∧
  reverse_item_mapping (service w1) = reverse_item_mapping (service w2) ∧
  is_trained (service w1) = is_trained (service w2).

(** ** Example data *)

(** Four sessions, two products, and their user similarities. *)
Definition M_example : ndarray := [[0; 5]; [3; 5]; [1; 0]; [5; 1]]%float.
Definition S_example : ndarray := compute_cosine_similarity_matrix M_example.

(** Rows 1 and 2 tie at similarity 0.5 with row 0: row 2 comes first. *)
Definition M_tie : ndarray := [[0]; [4]; [2]; [3]]%float.
Definition S_tie : ndarray :=
  [[1; 0.5; 0.5; 0.25]; [0.5; 1; 0; 0]; [0.5; 0; 1; 0]; [0.25; 0; 0; 1]]%float.

(** No content features: the stand-in for scikit-learn in the examples. *)
Definition no_content_features (d : DB) : option ndarray * list log_record := (None, []).

(** A model trained on one view, and the same service after the
    interaction table has been emptied. *)
Definition one_view : DB := mkDB [mkProduct 1 "books" true] [mkUserInteraction "s1" 1 "view" 0].
Definition trained_once : World :=
  (train_model no_content_features (mkWorld one_view init_service [])).2.
Definition emptied : World := with_db (mkDB [mkProduct 1 "books" true] []) trained_once.

(** The world after [n] different sessions have each viewed product 1,
    recorded with a clock that reads 0. *)
Definition viewers (n : nat) : list string := (λ i, "s" +:+ pretty i) <$> seq 0 n.

Definition after_views (n : nat) : World :=
  foldl (λ w s, (record_interaction no_content_features w s 1 "view" (Some 0%Z)).2)
        (mkWorld (mkDB [mkProduct 1 "books" true] []) init_service [])
        (viewers n).

(** A shop with one product and no recorded event, and the same shop with
    49 views of the product by 49 sessions already in the table. *)
Definition fresh_shop : World := mkWorld (mkDB [mkProduct 1 "books" true] []) init_service [].


(** Three products, the second inactive; product 3 has two interactions,
    product 1 has one. *)
Definition shop : DB :=
  mkDB [mkProduct 1 "books" true; mkProduct 2 "books" false; mkProduct 3 "games" true;
        mkProduct 4 "books" true]
       [mkUserInteraction "s1" 3 "view" 0; mkUserInteraction "s2" 3 "like" 1;
        mkUserInteraction "s1" 1 "view" 2].
Definition shop_world : World := mkWorld shop init_service [].

(** Two products, both viewed by each of three sessions. *)
Definition twins : DB :=
  mkDB [mkProduct 1 "books" true; mkProduct 2 "books" true]
       [mkUserInteraction "s1" 1 "view" 0; mkUserInteraction "s1" 2 "view" 1;
        mkUserInteraction "s2" 1 "view" 2; mkUserInteraction "s2" 2 "view" 3;
        mkUserInteraction "s3" 1 "view" 4; mkUserInteraction "s3" 2 "view" 5].
Definition twins_world : World := mkWorld twins init_service [].

(** Two products viewed by one session. *)
Definition pair_world : World :=
  mkWorld (mkDB [mkProduct 1 "books" true; mkProduct 2 "books" true]
                [mkUserInteraction "s1" 1 "view" 0; mkUserInteraction "s1" 2 "view" 1])
          init_service [].

(** The catalogue of [shop] after the model has been trained on it. *)
Definition shop_trained : World := (train_model no_content_features shop_world).2.

(* ===================================================================== *)
(** * Part III.  Lemmas and theorems                                      *)
(* ===================================================================== *)

Example cosine_example :
  compute_cosine_similarity_matrix [[5; 0; 0]; [0; 5; 0]; [5; 0; 0]]%float
  = [[1; 0; 1]; [0; 1; 0]; [1; 0; 1]]%float.
Proof. vm_compute. reflexivity. Qed.

Example predict_example :
  fast_predict_rating [[0; 5]; [3; 5]; [1; 0]; [5; 1]]%float
    (compute_cosine_similarity_matrix [[0; 5]; [3; 5]; [1; 0]; [5; 1]]%float) 0 0 2
  = Some 0x1.afa6b4b3b7c64p+1%float.
Proof. vm_compute. reflexivity. Qed.

(** ** Order of binary64 values *)

Lemma SFcompare_rank (x y : spec_float) :
  x ≠ S754_nan → y ≠ S754_nan → SFcompare x y = Some (lex_cmp (SFrank x) (SFrank y)).
Proof.
  intros Hx Hy.
  destruct x as [[]|[]| |[] mx ex], y as [[]|[]| |[] my ey]; try done; cbn.
  unfold lex_cmp; cbn [fst snd]. f_equal.
  rewrite !Z.compare_opp, (Z.compare_antisym ex ey).
  destruct (ex ?= ey)%Z; cbn; try done. symmetry; apply (Pos.compare_antisym mx my).
Qed.

Lemma lex_cmp_Lt a b : lex_cmp a b = Lt ↔ lex_lt a b.
Proof.
  unfold lex_cmp, lex_lt. destruct a as [[a1 a2] a3], b as [[b1 b2] b3]; cbn.
  destruct (Z.compare_spec a1 b1), (Z.compare_spec a2 b2), (Z.compare_spec a3 b3);
    split; intros; try done; try lia.
Qed.

Lemma lex_cmp_Eq a b : lex_cmp a b = Eq ↔ a = b.
Proof.
  unfold lex_cmp. destruct a as [[a1 a2] a3], b as [[b1 b2] b3]; cbn.
  destruct (Z.compare_spec a1 b1), (Z.compare_spec a2 b2), (Z.compare_spec a3 b3);
    split; intros; simplify_eq; try done; lia.
Qed.

Lemma not_nan_spec x : not_nan x ↔ Prim2SF x ≠ S754_nan.
Proof.
  unfold not_nan. rewrite FloatAxioms.eqb_spec. unfold SFeqb.
  split.
  - intros H E. rewrite E in H. done.
  - intros H. rewrite SFcompare_rank by done.
    replace (lex_cmp _ _) with Eq; [done|]. symmetry. by apply lex_cmp_Eq.
Qed.

Lemma ltb_rank x y : not_nan x → not_nan y → (x <? y)%float = true ↔ lex_lt (rank x) (rank y).
Proof.
  intros Hx%not_nan_spec Hy%not_nan_spec.
  rewrite FloatAxioms.ltb_spec. unfold SFltb. rewrite SFcompare_rank by done.
  rewrite <- lex_cmp_Lt. unfold rank. destruct (lex_cmp _ _); split; done.
Qed.

Lemma eqb_rank x y : not_nan x → not_nan y → (x =? y)%float = true ↔ rank x = rank y.
Proof.
  intros Hx%not_nan_spec Hy%not_nan_spec.
  rewrite FloatAxioms.eqb_spec. unfold SFeqb. rewrite SFcompare_rank by done.
  rewrite <- lex_cmp_Eq. unfold rank. destruct (lex_cmp _ _); split; done.
Qed.

Lemma ltb_not_nan_l x y : (x <? y)%float = true → not_nan x.
Proof.
  rewrite FloatAxioms.ltb_spec. unfold SFltb. intros H. apply not_nan_spec. intros E.
  rewrite E in H. done.
Qed.

Lemma ltb_not_nan_r x y : (x <? y)%float = true → not_nan y.
Proof.
  rewrite FloatAxioms.ltb_spec. unfold SFltb. intros H. apply not_nan_spec. intros E.
  rewrite E in H. by destruct (Prim2SF x).
Qed.

Lemma eqb_not_nan_l x y : (x =? y)%float = true → not_nan x.
Proof.
  rewrite FloatAxioms.eqb_spec. unfold SFeqb. intros H. apply not_nan_spec. intros E.
  rewrite E in H. done.
Qed.

Lemma eqb_not_nan_r x y : (x =? y)%float = true → not_nan y.
Proof.
  rewrite FloatAxioms.eqb_spec. unfold SFeqb. intros H. apply not_nan_spec. intros E.
  rewrite E in H. by destruct (Prim2SF x).
Qed.

Lemma bool_iff_false (b : bool) (Q : Prop) : (b = true ↔ Q) → (b = false ↔ ¬ Q).
Proof. destruct b; intuition congruence. Qed.

Lemma triple_eq (x1 x2 x3 y1 y2 y3 : Z) :
  (x1, x2, x3) = (y1, y2, y3) ↔ x1 = y1 ∧ x2 = y2 ∧ x3 = y3.
Proof. split; [intros [= -> -> ->]; done | intros (-> & -> & ->); done]. Qed.

Lemma eqb_ltb_false x y : (x =? y)%float = true → (x <? y)%float = false.
Proof.
  intros H. pose proof (eqb_not_nan_l _ _ H) as Hx. pose proof (eqb_not_nan_r _ _ H) as Hy.
  apply (bool_iff_false _ _ (ltb_rank _ _ Hx Hy)). apply (eqb_rank _ _ Hx Hy) in H.
  rewrite H. unfold lex_lt. lia.
Qed.

Lemma eqb_sym x y : (x =? y)%float = true → (y =? x)%float = true.
Proof.
  intros H. pose proof (eqb_not_nan_l _ _ H) as Hx. pose proof (eqb_not_nan_r _ _ H) as Hy.
  apply (eqb_rank _ _ Hy Hx). by apply (eqb_rank _ _ Hx Hy) in H.
Qed.

Lemma ltb_total x y :
  not_nan x → not_nan y →
  (x <? y)%float = false → (x =? y)%float = false → (y <? x)%float = true.
Proof.
  intros Hx Hy H1 H2.
  apply (bool_iff_false _ _ (ltb_rank _ _ Hx Hy)) in H1.
  apply (bool_iff_false _ _ (eqb_rank _ _ Hx Hy)) in H2.
  apply (ltb_rank _ _ Hy Hx). revert H1 H2. unfold lex_lt.
  destruct (rank x) as [[? ?] ?], (rank y) as [[? ?] ?]; cbn. rewrite triple_eq. lia.
Qed.

(** Among values that are not NaN, "not smaller" is "greater or equal". *)
Lemma ltb_false_leb x y :
  not_nan x → not_nan y → (x <? y)%float = false → (y <=? x)%float = true.
Proof.
  intros Hx Hy H. apply (bool_iff_false _ _ (ltb_rank _ _ Hx Hy)) in H.
  rewrite FloatAxioms.leb_spec. unfold SFleb.
  apply not_nan_spec in Hx as Hx', Hy as Hy'. rewrite SFcompare_rank by done.
  destruct (lex_cmp _ _) eqn:E; try done.
  exfalso. apply H. 
  assert (lex_cmp (rank x) (rank y) = Lt); [|by apply lex_cmp_Lt].
  revert E. unfold lex_cmp, rank.
  destruct (SFrank (Prim2SF x)) as [[a1 a2] a3], (SFrank (Prim2SF y)) as [[b1 b2] b3]; cbn.
  rewrite (Z.compare_antisym a1 b1), (Z.compare_antisym a2 b2), (Z.compare_antisym a3 b3).
  destruct (a1 ?= b1)%Z, (a2 ?= b2)%Z, (a3 ?= b3)%Z; cbn; done.
Qed.

(** ** Python's sort *)

Section PySortFacts.
Context {A : Type} (lt : A → A → bool) (P : A → Prop).

Lemma py_insort_perm x l : py_insort lt x l ≡ₚ x :: l.
Proof.
  induction l as [|y l IH]; cbn; [done|].
  destruct (lt y x); [|done]. rewrite IH. apply perm_swap.
Qed.

Lemma py_sort_perm l : py_sort lt l ≡ₚ l.
Proof.
  induction l as [|x l IH]; [done|].
  change (py_sort lt (x :: l)) with (py_insort lt x (py_sort lt l)).
  rewrite py_insort_perm. by f_equiv.
Qed.

Lemma py_sort_reverse_perm l : py_sort_reverse lt l ≡ₚ l.
Proof.
  unfold py_sort_reverse. by rewrite reverse_Permutation, py_sort_perm, reverse_Permutation.
Qed.

Lemma py_insort_ascending x l :
  weak_order lt P → P x → Forall P l → ascending lt l → ascending lt (py_insort lt x l).
Proof.
  intros [Hasym Hneg] Hx Hl Hs.
  induction Hs as [|y l Hs IH Hy]; cbn.
  - repeat constructor.
  - apply Forall_cons in Hl as [Py Pl].
    destruct (lt y x) eqn:E.
    + constructor; [by apply IH|].
      rewrite py_insort_perm. constructor; [by apply Hasym|done].
    + constructor; [by constructor|].
      constructor; [done|].
      rewrite Forall_forall in Hy, Pl. apply Forall_forall. intros z Hz.
      apply (Hneg z y x); auto.
Qed.

Lemma py_sort_ascending l : weak_order lt P → Forall P l → ascending lt (py_sort lt l).
Proof.
  intros Hwo Hl. induction l as [|x l IH]; [constructor|].
  apply Forall_cons in Hl as [Px Pl].
  change (py_sort lt (x :: l)) with (py_insort lt x (py_sort lt l)).
  apply py_insort_ascending; auto. by rewrite py_sort_perm.
Qed.

Lemma ascending_reverse l : ascending lt l → descending lt (reverse l).
Proof.
  induction 1 as [|x l Hs IH Hx]; [constructor|].
  rewrite reverse_cons.
  apply StronglySorted_app_2;
    first [ exact IH | by repeat constructor | intros a b Ha ->%list_elem_of_singleton ].
  rewrite elem_of_reverse in Ha. rewrite Forall_forall in Hx. auto.
Qed.

Lemma py_sort_reverse_descending l :
  weak_order lt P → Forall P l → descending lt (py_sort_reverse lt l).
Proof.
  intros Hwo Hl. apply ascending_reverse, py_sort_ascending; [done|].
  by rewrite reverse_Permutation.
Qed.

(** The slice [[:k]] of a descending lt list holds its [k] largest elements. *)
Lemma descending_take_drop k l a b :
  descending lt l → a ∈ take k l → b ∈ drop k l → lt a b = false.
Proof.
  intros Hs Ha Hb. rewrite <- (take_drop k l) in Hs.
  by eapply (StronglySorted_app_1_elem_of _ _ _ _ _ Hs).
Qed.

Lemma descending_take k l : descending lt l → descending lt (take k l).
Proof.
  intros Hs. rewrite <- (take_drop k l) in Hs. by eapply StronglySorted_app_1_l.
Qed.

Lemma descending_lookup l i j a b :
  descending lt l → i < j → l !! i = Some a → l !! j = Some b → lt a b = false.
Proof.
  intros Hs Hij Hi Hj.
  apply (descending_take_drop (S i) l); [done| |].
  - apply list_elem_of_lookup. exists i. rewrite lookup_take_lt by lia. done.
  - apply list_elem_of_lookup. exists (j - S i). rewrite lookup_drop.
    by replace (S i + (j - S i)) with j by lia.
Qed.
End PySortFacts.

(** ** The two comparisons the engine sorts by *)

Lemma rater_lt_before a b : rater_ok a → rater_ok b → rater_lt a b = true ↔ rater_before a b.
Proof.
  destruct a as [[s1 i1] r1], b as [[s2 i2] r2]. intros [Hs1 Hr1] [Hs2 Hr2]; cbn in *.
  unfold rater_lt, rater_before; cbn [fst snd].
  pose proof (eqb_rank s1 s2 Hs1 Hs2) as He. pose proof (ltb_rank s1 s2 Hs1 Hs2) as Hl.
  pose proof (ltb_rank r1 r2 Hr1 Hr2) as Hr.
  destruct (s1 =? s2)%float; cbn [negb].
  - assert (rank s1 = rank s2) as E by (by apply He).
    destruct (Nat.eqb_spec i1 i2) as [->|Hne]; cbn [negb].
    + rewrite Hr, E. unfold lex_lt. intuition lia.
    + change (match i2 with 0 => false | S m => i1 <=? m end) with (i1 <? i2).
      rewrite Nat.ltb_lt, E. unfold lex_lt. intuition lia.
  - assert (rank s1 ≠ rank s2) as E by (intros E; apply He in E; done).
    rewrite Hl. tauto.
Qed.

Lemma rater_lt_weak_order : weak_order rater_lt rater_ok.
Proof.
  split.
  - intros a b Ha Hb H. apply (bool_iff_false _ _ (rater_lt_before b a Hb Ha)).
    apply (rater_lt_before a b Ha Hb) in H. revert H. unfold rater_before, lex_lt.
    destruct (rank a.1.1) as [[? ?] ?], (rank b.1.1) as [[? ?] ?],
      (rank a.2) as [[? ?] ?], (rank b.2) as [[? ?] ?]; cbn.
    rewrite !triple_eq. lia.
  - intros a b c Ha Hb Hc H1 H2.
    apply (bool_iff_false _ _ (rater_lt_before a b Ha Hb)) in H1.
    apply (bool_iff_false _ _ (rater_lt_before b c Hb Hc)) in H2.
    apply (bool_iff_false _ _ (rater_lt_before a c Ha Hc)).
    revert H1 H2. unfold rater_before, lex_lt.
    destruct (rank a.1.1) as [[a1 a2] a3], (rank b.1.1) as [[b1 b2] b3],
      (rank c.1.1) as [[c1 c2] c3],
      (rank a.2) as [[a4 a5] a6], (rank b.2) as [[b4 b5] b6], (rank c.2) as [[c4 c5] c6]; cbn.
    rewrite !triple_eq. lia.
Qed.

Lemma score_lt_weak_order : weak_order score_lt score_ok.
Proof.
  unfold score_lt, score_ok. split.
  - intros a b Ha Hb H. apply (bool_iff_false _ _ (ltb_rank _ _ Hb Ha)).
    apply (ltb_rank _ _ Ha Hb) in H. revert H. unfold lex_lt.
    destruct (rank a.2) as [[? ?] ?], (rank b.2) as [[? ?] ?]; cbn. lia.
  - intros a b c Ha Hb Hc H1 H2.
    apply (bool_iff_false _ _ (ltb_rank _ _ Ha Hb)) in H1.
    apply (bool_iff_false _ _ (ltb_rank _ _ Hb Hc)) in H2.
    apply (bool_iff_false _ _ (ltb_rank _ _ Ha Hc)).
    revert H1 H2. unfold lex_lt.
    destruct (rank a.2) as [[? ?] ?], (rank b.2) as [[? ?] ?], (rank c.2) as [[? ?] ?]; cbn. lia.
Qed.

(** ** Cells of a matrix under assignment *)

Lemma cell_set_cell (M : ndarray) (i j a b : nat) (x : float) :
  cell (set_cell M i j x) a b
  = if decide (a = i ∧ b = j) then (λ _, x) <$> cell M a b else cell M a b.
Proof.
  unfold cell, set_cell. destruct (decide (a = i)) as [->|Hne].
  - rewrite list_lookup_alter_eq. destruct (M !! i) as [r|]; cbn.
    + destruct (decide (b = j)) as [->|Hb].
      * rewrite decide_True by done.
        destruct (decide (j < length r)).
        -- rewrite list_lookup_insert_eq by done.
           destruct (lookup_lt_is_Some_2 r j) as [y ->]; done.
        -- rewrite list_insert_ge by lia. rewrite lookup_ge_None_2 by lia. done.
      * rewrite decide_False by tauto. by rewrite list_lookup_insert_ne.
    + by destruct (decide _).
  - rewrite list_lookup_alter_ne by done. rewrite decide_False by tauto. done.
Qed.

Lemma has_shape_set_cell n m M i j x : has_shape n m M → has_shape n m (set_cell M i j x).
Proof.
  intros [Hn Hm]. unfold set_cell. split; [by rewrite length_alter|].
  apply Forall_forall. intros r [k Hk]%list_elem_of_lookup.
  rewrite Forall_forall in Hm.
  destruct (decide (k = i)) as [->|Hne].
  - rewrite list_lookup_alter_eq in Hk. destruct (M !! i) as [r'|] eqn:E; [|done].
    cbn in Hk. simplify_eq. rewrite length_insert. apply Hm. by eapply list_elem_of_lookup_2.
  - rewrite list_lookup_alter_ne in Hk by done. apply Hm. by eapply list_elem_of_lookup_2.
Qed.

Lemma has_shape_zeros n m : has_shape n m (np_zeros n m).
Proof.
  split; [apply length_replicate|]. apply Forall_forall.
  intros r [-> _]%elem_of_replicate. apply length_replicate.
Qed.

Lemma cell_zeros n m a b : a < n → b < m → cell (np_zeros n m) a b = Some 0%float.
Proof.
  intros Ha Hb. unfold cell, np_zeros. rewrite lookup_replicate_2 by done. cbn.
  by rewrite lookup_replicate_2.
Qed.

Lemma has_shape_cell n m M a b : has_shape n m M → a < n → b < m → is_Some (cell M a b).
Proof.
  intros [Hn Hm] Ha Hb. unfold cell.
  destruct (lookup_lt_is_Some_2 M a) as [r Hr]; [lia|]. rewrite Hr. cbn.
  apply lookup_lt_is_Some_2. rewrite Forall_forall in Hm.
  rewrite (Hm r); [done|]. by eapply list_elem_of_lookup_2.
Qed.

(** ** compute_cosine_similarity_matrix and compute_item_similarity_matrix *)

Section Pairwise.
Variable vec : nat → list float.
Variable n : nat.

Let norms : list float := (λ i, PrimFloat.sqrt (np_sum (np_square (vec i)))) <$> seq 0 n.

Lemma norms_lookup i : i < n → default 0%float (norms !! i) = norm_of vec i.
Proof.
  intros Hi. unfold norms. rewrite list_lookup_fmap, lookup_seq_lt by done. done.
Qed.

Lemma similarity_step_inv i j M :
  i ≤ j → j < n → loop_inv vec n i j M →
  loop_inv vec n i (S j) (similarity_step vec norms i M j).
Proof.
  intros Hij Hj [Hshape Hcells]. split.
  - unfold similarity_step. repeat case_match; repeat apply has_shape_set_cell; done.
  - intros a b Ha Hb. specialize (Hcells a b Ha Hb).
    unfold similarity_step. destruct (decide (i = j)) as [->|Hne].
    + rewrite cell_set_cell, Hcells. unfold written, final_value.
      repeat case_decide; cbn; try done; try lia.
    + rewrite !norms_lookup by lia.
      fold (off_diagonal vec i j).
      assert (cell (set_cell (set_cell M i j (off_diagonal vec i j)) j i (off_diagonal vec i j)) a b
              = Some (if decide (written i (S j) a b) then final_value vec a b else 0%float))
        as Hgoal.
      { rewrite !cell_set_cell, Hcells. unfold written, final_value.
        repeat case_decide; cbn; try done; try lia.
        all: repeat match goal with H : _ ∧ _ |- _ => destruct H end; subst.
        all: try (rewrite ?Nat.min_l, ?Nat.max_r by lia; done).
        all: try (rewrite ?Nat.min_r, ?Nat.max_l by lia; done). }
      unfold off_diagonal in Hgoal at 1 2.
      destruct ((0 <? norm_of vec i) && (0 <? norm_of vec j))%float; exact Hgoal.
Qed.

Lemma loop_inv_ext i j i' j' M :
  (∀ a b, a < n → b < n → written i j a b ↔ written i' j' a b) →
  loop_inv vec n i j M → loop_inv vec n i' j' M.
Proof.
  intros Hw [Hshape Hcells]. split; [done|]. intros a b Ha Hb.
  rewrite Hcells by done. f_equal. apply decide_ext. by apply Hw.
Qed.

Lemma inner_loop_inv k i j M :
  k = n - j → i ≤ j → j ≤ n → loop_inv vec n i j M →
  loop_inv vec n i n (foldl (similarity_step vec norms i) M (seq j k)).
Proof.
  revert j M. induction k as [|k IH]; intros j M Hk Hij Hj Hinv; cbn.
  - by assert (j = n) as <- by lia.
  - apply IH; [lia..|]. apply similarity_step_inv; [lia..|done].
Qed.

Lemma outer_loop_inv k i M :
  k = n - i → i ≤ n → loop_inv vec n i i M →
  loop_inv vec n n n
    (foldl (λ S i, foldl (similarity_step vec norms i) S (seq i (n - i))) M (seq i k)).
Proof.
  revert i M. induction k as [|k IH]; intros i M Hk Hi Hinv; cbn.
  - assert (i = n) as Hin by lia. by rewrite Hin in Hinv.
  - apply IH; [lia..|].
    apply (loop_inv_ext i n); [|by apply inner_loop_inv].
    intros a b Ha Hb. unfold written. lia.
Qed.

Lemma pairwise_similarity_cells :
  has_shape n n (pairwise_similarity n vec) ∧
  ∀ a b, a < n → b < n → cell (pairwise_similarity n vec) a b = Some (final_value vec a b).
Proof.
  assert (loop_inv vec n n n (pairwise_similarity n vec)) as [Hshape Hcells].
  { unfold pairwise_similarity. apply outer_loop_inv; [lia..|].
    split; [apply has_shape_zeros|]. intros a b Ha Hb.
    rewrite cell_zeros by done. rewrite decide_False; [done|]. unfold written. lia. }
  split; [done|]. intros a b Ha Hb. rewrite Hcells by done.
  rewrite decide_True; [done|]. unfold written. lia.
Qed.
End Pairwise.

(** C2 (amended). The result is a square matrix of the size of the input.
    It is symmetric and its diagonal is exactly 1.0, also for a row of zero
    norm. Off the diagonal, entry (i, j) is 0.0 when the norm of row i or of
    row j is not greater than 0 (zero, or NaN), and otherwise the binary64
    quotient of the dot product by the product of the two norms.
    Nothing is said on the range of that quotient: rounding can carry it
    above 1. *)
Theorem cosine_similarity_matrix_spec (matrix : ndarray) :
  let S := compute_cosine_similarity_matrix matrix in
  let n := shape0 matrix in
  let norm := norm_of (row_of matrix) in
  has_shape n n S ∧
  ∀ i j, i < n → j < n →
    cell S i i = Some 1%float ∧
    cell S i j = cell S j i ∧
    (i ≠ j → ((norm i =? 0) || (norm j =? 0))%float = true → cell S i j = Some 0%float) ∧
    (i < j →
     cell S i j
     = Some (if ((0 <? norm i) && (0 <? norm j))%float
             then (np_dot (row_of matrix i) (row_of matrix j) / (norm i * norm j))%float
             else 0%float)).
Proof.
  intros S n norm. subst norm.
  destruct (pairwise_similarity_cells (row_of matrix) n) as [Hshape Hcells].
  fold (compute_cosine_similarity_matrix matrix) in Hshape, Hcells. fold S in Hshape, Hcells.
  split; [done|]. intros i j Hi Hj. split_and!.
  - rewrite Hcells by done. unfold final_value. by rewrite decide_True.
  - rewrite !Hcells by done. unfold final_value.
    destruct (decide (i = j)) as [->|Hne]; [by rewrite decide_True|].
    rewrite (decide_False (P := j = i)) by lia. by rewrite Nat.min_comm, Nat.max_comm.
  - intros Hne Hzero. rewrite Hcells by done. unfold final_value, off_diagonal.
    rewrite decide_False by done.
    assert (((0 <? norm_of (row_of matrix) (i `min` j))
             && (0 <? norm_of (row_of matrix) (i `max` j)))%float = false) as ->; [|done].
    apply orb_true_iff in Hzero.
    apply andb_false_iff.
    destruct (Nat.min_spec i j) as [[Hmin ->]|[Hmin ->]],
      (Nat.max_spec i j) as [[Hmax ->]|[Hmax ->]];
      try lia; destruct Hzero as [Hz|Hz]; apply eqb_sym, eqb_ltb_false in Hz; auto.
  - intros Hlt. rewrite Hcells by done. unfold final_value, off_diagonal.
    rewrite decide_False by lia. by rewrite Nat.min_l, Nat.max_r by lia.
Qed.

Lemma cosine_similarity_matrix_spec_witness :
  let S := compute_cosine_similarity_matrix M_example in
  cell S 0 0 = Some 1%float ∧
  cell S 0 1 = cell S 1 0 ∧
  (0 ≠ 1 →
   ((norm_of (row_of M_example) 0 =? 0) || (norm_of (row_of M_example) 1 =? 0))%float = true →
   cell S 0 1 = Some 0%float) ∧
  (0 < 1 →
   cell S 0 1
   = Some (if ((0 <? norm_of (row_of M_example) 0) && (0 <? norm_of (row_of M_example) 1))%float
           then (np_dot (row_of M_example 0) (row_of M_example 1)
                 / (norm_of (row_of M_example) 0 * norm_of (row_of M_example) 1))%float
           else 0%float)).
Proof.
  apply (proj2 (cosine_similarity_matrix_spec M_example) 0 1); vm_compute; lia.
Defined.

(** C2, as stated, fails twice. A row of zero norm still has 1.0, not 0.0,
    on the diagonal; and two equal rows [1, 1, 1] have similarity
    1.0000000000000002, outside [-1, 1]: the square root of 3 is rounded
    down, so the product of the norms is below 3. *)
Lemma cosine_similarity_matrix_counterexample :
  ((norm_of (row_of [[0%float]]) 0 =? 0)%float = true ∧
   cell (compute_cosine_similarity_matrix [[0%float]]) 0 0 = Some 1%float) ∧
  (cell (compute_cosine_similarity_matrix [[1; 1; 1]; [1; 1; 1]]%float) 0 1
   = Some 0x1.0000000000001p+0%float ∧
   (1 <? 0x1.0000000000001p+0)%float = true).
Proof. repeat split; reflexivity. Qed.

(** ** fast_predict_rating *)

Lemma rater_test_spec q ratings u r : rater_test q ratings u r = true ↔ is_rater q ratings u r.
Proof.
  unfold rater_test, is_rater. rewrite andb_true_iff, bool_decide_eq_true.
  destruct (ratings !! r) as [x|]; cbn.
  - split; [intros [Hne Hq]; eauto | intros [Hne (y & [= <-] & Hq)]; done].
  - split; [intros [_ [=]] | intros [_ (y & [=] & _)]].
Qed.

Lemma rater_at_filter sims ratings u (rows : list nat) :
  Forall (λ r, r < length sims ∧ r < length ratings) rows →
  mapM (rater_at sims ratings u) rows
  = Some ((λ r, if rater_test positive ratings u r then [rater_tuple sims ratings r] else [])
            <$> rows).
Proof.
  intros Hrows. apply mapM_Some. apply Forall2_fmap_r, Forall_Forall2_diag.
  eapply Forall_impl; [exact Hrows|]. cbn. intros r [Hs Hr].
  unfold rater_at, rater_test, rater_tuple.
  destruct (lookup_lt_is_Some_2 sims r Hs) as [s ->].
  destruct (lookup_lt_is_Some_2 ratings r Hr) as [x ->]. cbn.
  destruct (decide (r = u)) as [->|Hne].
  - rewrite bool_decide_eq_false_2 by tauto. done.
  - rewrite bool_decide_eq_true_2 by done. cbn. unfold positive. by destruct (0 <? x)%float.
Qed.

Lemma concat_filter_singleton {A B : Type} (p : A → bool) (f : A → B) (l : list A) :
  concat ((λ x, if p x then [f x] else []) <$> l) = f <$> List.filter p l.
Proof.
  induction l as [|x l IH]; cbn; [done|]. rewrite IH. by destruct (p x).
Qed.

Lemma rated_by_raters sims ratings u :
  length sims ≤ length ratings →
  rated_by sims ratings u
  = Some (rater_tuple sims ratings <$> rater_rows positive sims ratings u).
Proof.
  intros Hlen. unfold rated_by. rewrite rater_at_filter.
  - cbn. by rewrite concat_filter_singleton.
  - apply Forall_forall. intros r Hr%elem_of_seq. lia.
Qed.



Lemma elem_of_bool_filter {A : Type} (p : A → bool) (l : list A) (x : A) :
  x ∈ List.filter p l ↔ x ∈ l ∧ p x = true.
Proof. rewrite !list_elem_of_In. apply filter_In. Qed.

Lemma NoDup_bool_filter {A : Type} (p : A → bool) (l : list A) :
  NoDup l → NoDup (List.filter p l).
Proof. rewrite !NoDup_ListNoDup. apply List.NoDup_filter. Qed.

Lemma elem_of_rater_rows q sims ratings u r :
  r ∈ rater_rows q sims ratings u ↔ r < length sims ∧ is_rater q ratings u r.
Proof.
  unfold rater_rows. rewrite elem_of_bool_filter, elem_of_seq, rater_test_spec.
  intuition lia.
Qed.

Lemma NoDup_rater_rows q sims ratings u : NoDup (rater_rows q sims ratings u).
Proof. apply NoDup_bool_filter, NoDup_seq. Qed.

Lemma rows_of_rater_tuples sims ratings (rows : list nat) :
  row_of_rater <$> (rater_tuple sims ratings <$> rows) = rows.
Proof. rewrite <- list_fmap_compose. apply list_fmap_id. Qed.


Lemma rater_lt_false_ranked a b :
  rater_ok a → rater_ok b → row_of_rater a ≠ row_of_rater b →
  rater_lt a b = false → ranked_before a b.
Proof.
  destruct a as [[s1 i1] r1], b as [[s2 i2] r2].
  unfold rater_ok, rater_lt, ranked_before, sim_of, row_of_rater. cbn [fst snd].
  intros [Hs1 _] [Hs2 _] Hne.
  destruct (s1 =? s2)%float eqn:E; cbn [negb].
  - destruct (Nat.eqb_spec i1 i2) as [->|_]; [done|]. cbn [negb].
    intros H%Nat.ltb_ge. right. split; [done|lia].
  - intros H. left. by apply ltb_total.
Qed.

Section Selection.
Variables (M S : ndarray) (user_idx item_idx k : nat).
Variables (similarities ratings : list float).
Hypothesis Hrow : S !! user_idx = Some similarities.
Hypothesis Hcol : column M item_idx = Some ratings.
Hypothesis Hlen : length similarities ≤ length ratings.

Let rows : list nat := rater_rows positive similarities ratings user_idx.
Let found : list rater := rater_tuple similarities ratings <$> rows.
Let selected : list rater := take k (py_sort_reverse rater_lt found).

Lemma similar_users_selected : similar_users M S user_idx item_idx k = Some selected.
Proof.
  unfold similar_users. rewrite Hrow. cbn. rewrite Hcol. cbn.
  rewrite rated_by_raters by done. done.
Qed.

Lemma selected_found t : t ∈ selected → t ∈ found.
Proof.
  intros [i [Hi _]]%elem_of_take. apply list_elem_of_lookup_2 in Hi.
  by rewrite py_sort_reverse_perm in Hi.
Qed.

Lemma found_inv t :
  t ∈ found →
  is_rater positive ratings user_idx (row_of_rater t) ∧
  row_of_rater t < length similarities ∧
  t = rater_tuple similarities ratings (row_of_rater t).
Proof.
  intros (r & -> & [Hr Hrater]%elem_of_rater_rows)%list_elem_of_fmap. done.
Qed.

Lemma selected_NoDup : NoDup (row_of_rater <$> selected).
Proof.
  unfold selected. rewrite fmap_take.
  eapply sublist_NoDup; [|apply sublist_take].
  rewrite py_sort_reverse_perm. unfold found. rewrite rows_of_rater_tuples.
  apply NoDup_rater_rows.
Qed.

Lemma selected_length : length selected = k `min` length rows.
Proof.
  unfold selected. rewrite length_take, py_sort_reverse_perm. unfold found.
  by rewrite length_fmap.
Qed.

Hypothesis Hnan : Forall not_nan similarities.

Lemma found_ok : Forall rater_ok found.
Proof.
  apply Forall_forall. intros t Ht. destruct (found_inv t Ht) as ([_ (x & Hx & Hpos)] & Hr & ->).
  unfold rater_ok, rater_tuple. cbn [fst snd].
  destruct (lookup_lt_is_Some_2 similarities _ Hr) as [s Hs]. rewrite Hs, Hx. cbn. split.
  - rewrite Forall_forall in Hnan. apply Hnan. by eapply list_elem_of_lookup_2.
  - by eapply ltb_not_nan_r.
Qed.

Lemma sorted_descending : descending rater_lt (py_sort_reverse rater_lt found).
Proof.
  apply (py_sort_reverse_descending rater_lt rater_ok);
    [apply rater_lt_weak_order|apply found_ok].
Qed.

Lemma selected_lt_unselected t r :
  t ∈ selected → r ∈ rows → r ∉ row_of_rater <$> selected →
  rater_lt t (rater_tuple similarities ratings r) = false.
Proof.
  intros Ht Hr Hnot.
  apply (descending_take_drop rater_lt k (py_sort_reverse rater_lt found));
    [apply sorted_descending|done|].
  assert (rater_tuple similarities ratings r ∈ py_sort_reverse rater_lt found) as Hin.
  { rewrite py_sort_reverse_perm. by apply list_elem_of_fmap_2. }
  rewrite <- (take_drop k) in Hin. apply elem_of_app in Hin as [Hin|Hin]; [|done].
  exfalso. apply Hnot. apply list_elem_of_fmap. by exists (rater_tuple similarities ratings r).
Qed.

Lemma selected_ok t : t ∈ selected → rater_ok t.
Proof.
  intros Ht%selected_found. pose proof found_ok as H. rewrite Forall_forall in H. auto.
Qed.
End Selection.




(** C10. The selected neighbours are listed by decreasing similarity, and
    among equal similarities by decreasing row index; every rater left out
    is ranked after every selected one by the same rule. The prediction is
    the weighted average of exactly this list. *)
Theorem similar_users_tie_break (M S : ndarray) (user_idx item_idx k : nat)
    (similarities ratings : list float) :
  S !! user_idx = Some similarities →
  column M item_idx = Some ratings →
  length similarities ≤ length ratings →
  Forall not_nan similarities →
  ∃ selected,
    similar_users M S user_idx item_idx k = Some selected ∧
    fast_predict_rating M S user_idx item_idx k = Some (weighted_average selected) ∧
    length selected = k `min` length (rater_rows positive similarities ratings user_idx) ∧
    (∀ p q a b, p < q → selected !! p = Some a → selected !! q = Some b →
       ranked_before a b) ∧
    (∀ a r, a ∈ selected →
       r < length similarities → is_rater positive ratings user_idx r →
       r ∉ row_of_rater <$> selected →
       ranked_before a (rater_tuple similarities ratings r)).
Proof.
  intros Hrow Hcol Hlen Hnan.
  pose proof (similar_users_selected M S user_idx item_idx k _ _ Hrow Hcol Hlen) as Hsel.
  set (selected := take k _) in Hsel.
  exists selected. split_and!.
  - done.
  - unfold fast_predict_rating. by rewrite Hsel.
  - apply selected_length.
  - intros p q a b Hpq Ha Hb.
    apply rater_lt_false_ranked.
    + eapply selected_ok; [done|]. by eapply list_elem_of_lookup_2.
    + eapply selected_ok; [done|]. by eapply list_elem_of_lookup_2.
    + intros E. pose proof (selected_NoDup user_idx k similarities ratings) as Hnd.
      fold selected in Hnd.
      assert (p = q); [|lia].
      eapply (NoDup_lookup _ p q (row_of_rater a) Hnd).
      * by rewrite list_lookup_fmap, Ha.
      * by rewrite list_lookup_fmap, Hb, E.
    + eapply (descending_lookup rater_lt selected p q); [|done..].
      apply descending_take. by apply sorted_descending.
  - intros a r Ha Hr Hrater Hnot.
    assert (r ∈ rater_rows positive similarities ratings user_idx) as Hin
      by by apply elem_of_rater_rows.
    apply rater_lt_false_ranked.
    + by eapply selected_ok.
    + assert (Forall rater_ok (rater_tuple similarities ratings <$>
                rater_rows positive similarities ratings user_idx)) as Hok
        by by apply found_ok.
      rewrite Forall_forall in Hok. apply Hok. by apply list_elem_of_fmap_2.
    + intros E. apply Hnot. apply list_elem_of_fmap. by exists a.
    + by eapply selected_lt_unselected.
Qed.

Example similar_users_tie_example :
  similar_users M_tie S_tie 0 0 2 = Some [(0.5%float, 2, 2%float); (0.5%float, 1, 4%float)] ∧
  fast_predict_rating M_tie S_tie 0 0 1 = Some 2%float.
Proof. split; reflexivity. Qed.

Lemma similar_users_tie_break_witness :
  ∃ selected,
    similar_users M_tie S_tie 0 0 1 = Some selected ∧
    fast_predict_rating M_tie S_tie 0 0 1 = Some (weighted_average selected) ∧
    length selected
      = 1 `min` length (rater_rows positive (row_of S_tie 0) (col_of M_tie 0) 0) ∧
    (∀ p q a b, p < q → selected !! p = Some a → selected !! q = Some b →
       ranked_before a b) ∧
    (∀ a r, a ∈ selected →
       r < length (row_of S_tie 0) → is_rater positive (col_of M_tie 0) 0 r →
       r ∉ row_of_rater <$> selected →
       ranked_before a (rater_tuple (row_of S_tie 0) (col_of M_tie 0) r)).
Proof.
  apply (similar_users_tie_break M_tie S_tie 0 0 1 (row_of S_tie 0) (col_of M_tie 0)).
  - reflexivity.
  - reflexivity.
  - vm_compute. lia.
  - vm_compute. repeat constructor.
Defined.

(** ** compute_user_recommendations *)

Lemma recommend_at_shape M S u c l :
  recommend_at M S u c = Some l →
  l = (if rec_test M S u c then [rec_entry M S u c] else []) ∧
  ∀ s, (c, s) ∈ l ↔ candidate M S u c s.
Proof.
  unfold rec_test, rec_entry, candidate, unseen. intros H. rewrite H.
  unfold recommend_at in H.
  destruct (cell M u c) as [x|] eqn:Ex; [|done]. cbn in H.
  destruct (x =? 0)%float eqn:E0.
  - destruct (fast_predict_rating M S u c default_k) as [p|] eqn:Ep; [|done]. cbn in H.
    destruct (0 <? p)%float eqn:Epos; simplify_eq.
    + split; [done|]. intros s. rewrite list_elem_of_singleton. split.
      * intros [= <-]. eauto.
      * intros (_ & [= <-] & _). done.
    + split; [done|]. intros s. rewrite elem_of_nil. split; [done|].
      intros (_ & [= <-] & ?). congruence.
  - simplify_eq. split; [done|]. intros s. rewrite elem_of_nil. split; [done|].
    intros ((y & [= <-] & ?) & _). congruence.
Qed.

Lemma rec_entry_fst M S u c : (rec_entry M S u c).1 = c.
Proof.
  unfold rec_entry. destruct (recommend_at M S u c) as [[|[c' s] l]|] eqn:E; try done.
  destruct (recommend_at_shape _ _ _ _ _ E) as [Hl _].
  cbn. unfold recommend_at in E.
  destruct (cell M u c); [|done]. cbn in E. destruct (_ =? _)%float; [|done].
  destruct (fast_predict_rating _ _ _ _ _); [|done]. cbn in E.
  destruct (0 <? _)%float; by simplify_eq.
Qed.

Lemma length_col_of M j : length (col_of M j) = length M.
Proof. unfold col_of. by rewrite length_fmap. Qed.

Lemma recommend_at_is_Some M S u c :
  shapes_agree M S u → c < shape1 M → is_Some (recommend_at M S u c).
Proof.
  intros (Hrect & Hu & sims & Hrow & Hlen) Hc. unfold recommend_at.
  destruct (has_shape_cell (length M) (shape1 M) M u c) as [x ->]; [done..|]. cbn.
  destruct (x =? 0)%float; [|done].
  unfold fast_predict_rating.
  rewrite (similar_users_selected M S u c default_k sims (col_of M c)); [done|done| |].
  - unfold column. by rewrite decide_True.
  - by rewrite length_col_of.
Qed.

Lemma recommendations_found M S u (cols : list nat) :
  Forall (λ c, is_Some (recommend_at M S u c)) cols →
  ∃ found, mapM (recommend_at M S u) cols = Some found ∧
           concat found = rec_entry M S u <$> List.filter (rec_test M S u) cols.
Proof.
  intros Hcols.
  exists ((λ c, if rec_test M S u c then [rec_entry M S u c] else []) <$> cols). split.
  - apply mapM_Some, Forall2_fmap_r, Forall_Forall2_diag.
    eapply Forall_impl; [exact Hcols|]. cbn. intros c [l Hl].
    rewrite Hl. f_equal. by apply recommend_at_shape.
  - apply concat_filter_singleton.
Qed.

Lemma elem_of_recommendations M S u (cols : list nat) c s :
  Forall (λ c, is_Some (recommend_at M S u c)) cols →
  (c, s) ∈ rec_entry M S u <$> List.filter (rec_test M S u) cols
  ↔ c ∈ cols ∧ candidate M S u c s.
Proof.
  intros Hcols. rewrite list_elem_of_fmap. split.
  - intros (c' & Heq & [Hc' Htest]%elem_of_bool_filter).
    assert (c' = c) as -> by (by rewrite <- (rec_entry_fst M S u c'), <- Heq).
    split; [done|].
    rewrite Forall_forall in Hcols. destruct (Hcols c Hc') as [l Hl].
    destruct (recommend_at_shape _ _ _ _ _ Hl) as [Hshape Hiff].
    apply Hiff. rewrite Hshape, Htest, Heq. apply list_elem_of_here.
  - intros [Hc Hcand]. exists c.
    rewrite Forall_forall in Hcols. destruct (Hcols c Hc) as [l Hl].
    destruct (recommend_at_shape _ _ _ _ _ Hl) as [Hshape Hiff].
    apply Hiff in Hcand. rewrite Hshape in Hcand.
    destruct (rec_test M S u c) eqn:Htest; [|by apply elem_of_nil in Hcand].
    apply list_elem_of_singleton in Hcand. split; [done|].
    by apply elem_of_bool_filter.
Qed.

Lemma rec_entry_columns M S u (cols : list nat) : (rec_entry M S u <$> cols).*1 = cols.
Proof.
  induction cols as [|c cols IH]; [done|]. cbn. by rewrite rec_entry_fst, IH.
Qed.

(** C9. On matching shapes [compute_user_recommendations] returns a list of
    at most [n] pairs (column, score) with distinct columns. Every pair is a
    candidate: the user's entry in that column is 0 and the predicted rating
    (with the default k = 10) is the score, strictly greater than 0. The
    scores never increase along the list, and a candidate that is left out
    scores no higher than any pair returned, which then are [n]. *)
Theorem compute_user_recommendations_spec (M S : ndarray) (user_idx n : nat) :
  shapes_agree M S user_idx →
  ∃ recs,
    compute_user_recommendations M S user_idx n = Some recs ∧
    length recs ≤ n ∧
    NoDup (recs.*1) ∧
    (∀ c s, (c, s) ∈ recs → c < shape1 M ∧ candidate M S user_idx c s) ∧
    (∀ p q a b, p < q → recs !! p = Some a → recs !! q = Some b →
       (b.2 <=? a.2)%float = true) ∧
    (∀ c s, c < shape1 M → candidate M S user_idx c s →
       (c, s) ∈ recs ∨ (length recs = n ∧ ∀ a, a ∈ recs → (s <=? a.2)%float = true)).
Proof.
  intros Hshapes.
  assert (Forall (λ c, is_Some (recommend_at M S user_idx c)) (seq 0 (shape1 M))) as Hsome.
  { apply Forall_forall. intros c Hc%elem_of_seq. apply recommend_at_is_Some; [done|lia]. }
  destruct (recommendations_found M S user_idx _ Hsome) as (found & Hfound & Hconcat).
  set (all := rec_entry M S user_idx <$> List.filter (rec_test M S user_idx) (seq 0 (shape1 M)))
    in *.
  assert (∀ c s, (c, s) ∈ all ↔ c < shape1 M ∧ candidate M S user_idx c s) as Hall.
  { intros c s. unfold all. rewrite elem_of_recommendations by done.
    rewrite elem_of_seq. intuition lia. }
  assert (Forall score_ok all) as Hok.
  { apply Forall_forall. intros [c s] [_ (_ & _ & Hpos)]%Hall. by eapply ltb_not_nan_r. }
  pose proof (py_sort_reverse_descending score_lt score_ok all score_lt_weak_order Hok) as Hdesc.
  pose proof (py_sort_reverse_perm score_lt all) as Hperm.
  set (sorted := py_sort_reverse score_lt all) in *.
  exists (take n sorted). split_and!.
  - unfold compute_user_recommendations. rewrite Hfound. cbn. by rewrite Hconcat.
  - rewrite length_take. lia.
  - rewrite fmap_take. eapply sublist_NoDup; [|apply sublist_take].
    rewrite Hperm. unfold all. rewrite rec_entry_columns.
    apply NoDup_bool_filter, NoDup_seq.
  - intros c s [i [Hi _]]%elem_of_take. apply list_elem_of_lookup_2 in Hi.
    rewrite Hperm in Hi. by apply Hall.
  - intros p q a b Hpq Ha Hb.
    assert (∀ i x, take n sorted !! i = Some x → score_ok x) as Hin.
    { intros i x Hx. apply list_elem_of_lookup_2 in Hx.
      apply elem_of_take in Hx as [i' [Hx _]]. apply list_elem_of_lookup_2 in Hx.
      rewrite Hperm in Hx. rewrite Forall_forall in Hok. auto. }
    apply ltb_false_leb; [by eapply Hin..|].
    apply (descending_lookup score_lt (take n sorted) p q a b); [|done..].
    by apply descending_take.
  - intros c s Hc Hcand.
    assert ((c, s) ∈ sorted) as Hin by (rewrite Hperm; by apply Hall).
    rewrite <- (take_drop n sorted) in Hin. apply elem_of_app in Hin as [Hin|Hin]; [by left|].
    right. split.
    + rewrite length_take. apply list_elem_of_lookup in Hin as [i Hi].
      apply lookup_lt_Some in Hi. rewrite length_drop in Hi. lia.
    + intros a Ha.
      assert (score_ok a ∧ score_ok (c, s)) as [Hoka Hokc].
      { rewrite Forall_forall in Hok. split; apply Hok.
        - apply elem_of_take in Ha as [i [Hi _]]. apply list_elem_of_lookup_2 in Hi.
          by rewrite Hperm in Hi.
        - by apply Hall. }
      apply (ltb_false_leb a.2 s Hoka Hokc).
      by apply (descending_take_drop score_lt n sorted a (c, s)).
Qed.

Lemma compute_user_recommendations_witness :
  ∃ recs,
    compute_user_recommendations M_example S_example 0 5 = Some recs ∧
    length recs ≤ 5 ∧
    NoDup (recs.*1) ∧
    (∀ c s, (c, s) ∈ recs → c < shape1 M_example ∧ candidate M_example S_example 0 c s) ∧
    (∀ p q a b, p < q → recs !! p = Some a → recs !! q = Some b →
       (b.2 <=? a.2)%float = true) ∧
    (∀ c s, c < shape1 M_example → candidate M_example S_example 0 c s →
       (c, s) ∈ recs ∨ (length recs = 5 ∧ ∀ a, a ∈ recs → (s <=? a.2)%float = true)).
Proof.
  apply (compute_user_recommendations_spec M_example S_example 0 5).
  split_and!.
  - vm_compute. repeat constructor.
  - vm_compute. lia.
  - exists (row_of S_example 0). split; [reflexivity|]. vm_compute. lia.
Defined.

Example compute_user_recommendations_example :
  compute_user_recommendations M_example S_example 0 5
  = Some [(0, 0x1.afa6b4b3b7c64p+1%float)] ∧
  compute_user_recommendations [[0; 0; 0]; [2; 4; 3]]%float [[1; 0.5]; [0.5; 1]]%float 0 2
  = Some [(1, 4%float); (2, 3%float)].
Proof. split; vm_compute; reflexivity. Qed.

(** ** Dictionaries and the data frame of prepare_interaction_data *)

Lemma py_dict_snoc {K V : Type} `{Countable K} (l : list (K * V)) (k : K) (v : V) :
  py_dict (l ++ [(k, v)]) = <[k := v]> (py_dict l).
Proof. unfold py_dict. by rewrite foldl_snoc. Qed.

Lemma py_dict_lookup {K V : Type} `{Countable K} (l : list (K * V)) (k : K) (v : V) :
  NoDup (l.*1) → py_dict l !! k = Some v ↔ (k, v) ∈ l.
Proof.
  induction l as [|[k' v'] l IH] using rev_ind; intros Hnd.
  - unfold py_dict. cbn. rewrite lookup_empty, elem_of_nil. split; [done|tauto].
  - rewrite fmap_app in Hnd. apply NoDup_app in Hnd as (Hnd & Hfresh & _).
    rewrite py_dict_snoc, elem_of_app, list_elem_of_singleton.
    destruct (decide (k' = k)) as [->|Hne].
    + rewrite lookup_insert_eq. split.
      * intros [= ->]. by right.
      * intros [Hin|[= ->]]; [|done]. exfalso.
        apply (Hfresh k); [|apply list_elem_of_here].
        apply list_elem_of_fmap. by exists (k, v).
    + rewrite lookup_insert_ne by done. rewrite IH by done.
      split; [by left|]. intros [Hin|[= -> _]]; done.
Qed.

Lemma enumerate_values {K : Type} (g : nat → nat) (l : list K) :
  ((λ p : nat * K, (p.2, p.1)) <$> imap (λ i x, (g i, x)) l).*1 = l.
Proof.
  revert g. induction l as [|y l IH]; intros g; [done|]. cbn. f_equal.
  apply (IH (g ∘ S)).
Qed.

Lemma index_of_value_lookup {K : Type} `{Countable K} (l : list K) (x : K) (i : nat) :
  NoDup l → index_of_value l !! x = Some i ↔ l !! i = Some x.
Proof.
  intros Hnd. unfold index_of_value, enumerate.
  rewrite py_dict_lookup by by rewrite (enumerate_values id).
  rewrite list_elem_of_fmap. split.
  - intros ([j y] & [= -> ->] & Hin).
    apply elem_of_lookup_imap in Hin as (j' & y' & [= -> ->] & Hl). done.
  - intros Hl. exists (i, x). split; [done|]. apply elem_of_lookup_imap. eauto.
Qed.

Lemma pd_unique_snoc {A : Type} `{EqDecision A} (l : list A) (x : A) :
  pd_unique (l ++ [x]) = if decide (x ∈ pd_unique l) then pd_unique l else pd_unique l ++ [x].
Proof. unfold pd_unique. by rewrite foldl_snoc. Qed.

Lemma pd_unique_spec {A : Type} `{EqDecision A} (l : list A) :
  NoDup (pd_unique l) ∧ ∀ x, x ∈ pd_unique l ↔ x ∈ l.
Proof.
  induction l as [|x l [IHnd IHin]] using rev_ind.
  - split; [constructor|done].
  - rewrite pd_unique_snoc. destruct (decide (x ∈ pd_unique l)) as [Hin|Hnot].
    + split; [done|]. intros y. rewrite elem_of_app, list_elem_of_singleton, IHin.
      split; [tauto|]. intros [Hy | ->]; [done|]. by apply IHin.
    + split.
      * apply NoDup_app. split_and!; [done| |apply NoDup_singleton].
        intros y Hy ->%list_elem_of_singleton. done.
      * intros y. rewrite !elem_of_app, IHin. done.
Qed.

Section FillRows.
Variables (users : gmap string nat) (items : gmap Z nat) (n m : nat).
Hypothesis users_lt : ∀ s u, users !! s = Some u → u < n.
Hypothesis items_lt : ∀ p i, items !! p = Some i → i < m.
Hypothesis users_inj : ∀ s s' u, users !! s = Some u → users !! s' = Some u → s = s'.
Hypothesis items_inj : ∀ p p' i, items !! p = Some i → items !! p' = Some i → p = p'.

Lemma fill_rows (df : list frame_row) (M0 : ndarray) :
  has_shape n m M0 →
  (∀ r, r ∈ df → is_Some (users !! r.1.1) ∧ is_Some (items !! r.1.2)) →
  NoDup (df.*1) →
  ∃ M, foldl (fill_row users items) (Some M0) df = Some M ∧
       has_shape n m M ∧
       ∀ s p u i, users !! s = Some u → items !! p = Some i →
         (∀ w, ((s, p), w) ∈ df → cell M u i = Some w) ∧
         ((s, p) ∉ df.*1 → cell M u i = cell M0 u i).
Proof.
  revert M0. induction df as [|[[s0 p0] w0] df IH]; intros M0 Hshape Hkeys Hnd.
  - exists M0. split_and!; [done..|]. intros s p u i _ _. split; [|done].
    intros w Hin. by apply elem_of_nil in Hin.
  - cbn in Hnd. apply NoDup_cons in Hnd as [Hfresh Hnd].
    destruct (Hkeys ((s0, p0), w0)) as [[u0 Hu0] [i0 Hi0]]; [apply list_elem_of_here|].
    cbn in Hu0, Hi0.
    destruct (has_shape_cell n m M0 u0 i0 Hshape) as [x Hx]; [eauto..|].
    assert (fill_row users items (Some M0) ((s0, p0), w0) = Some (set_cell M0 u0 i0 w0)) as Hstep.
    { unfold fill_row, assign_cell. cbn. rewrite Hu0. cbn. rewrite Hi0. cbn. by rewrite Hx. }
    destruct (IH (set_cell M0 u0 i0 w0)) as (M & HM & HshapeM & Hcells).
    { by apply has_shape_set_cell. }
    { intros r Hr. apply Hkeys. by apply list_elem_of_further. }
    { done. }
    exists M. split_and!; [by cbn [foldl]; rewrite Hstep|done|].
    intros s p u i Hu Hi. destruct (Hcells s p u i Hu Hi) as [Hin Hout]. split.
    + intros w [[= -> -> ->]|Hw]%elem_of_cons; [|by apply Hin].
      rewrite Hout by done. rewrite cell_set_cell.
      assert (u = u0 ∧ i = i0) as [-> ->] by (split; congruence).
      rewrite decide_True by done. by rewrite Hx.
    + intros Hnot. cbn in Hnot. apply not_elem_of_cons in Hnot as [Hne Hnot].
      rewrite Hout by done. rewrite cell_set_cell. rewrite decide_False; [done|].
      intros [-> ->]. apply Hne. f_equal; eauto.
Qed.
End FillRows.

(** ** prepare_interaction_data *)

Lemma group_weights_events events s p :
  group_weights (s, p) (interaction_rows events)
  = (λ e, _get_interaction_weight (ui_interaction_type e)) <$> events_of events s p.
Proof.
  unfold group_weights, interaction_rows, events_of.
  induction events as [|e events IH]; [done|]. cbn.
  destruct (bool_decide _); cbn; by rewrite IH.
Qed.

Lemma groupby_sum_keys rows :
  (groupby_sum rows).*1 = py_sort group_key_lt (pd_unique (rows.*1)).
Proof.
  unfold groupby_sum. rewrite <- list_fmap_compose. apply list_fmap_id.
Qed.

Lemma groupby_sum_NoDup rows : NoDup ((groupby_sum rows).*1).
Proof. rewrite groupby_sum_keys, py_sort_perm. apply pd_unique_spec. Qed.

Lemma elem_of_groupby_sum_keys rows key : key ∈ (groupby_sum rows).*1 ↔ key ∈ rows.*1.
Proof. rewrite groupby_sum_keys, py_sort_perm. apply pd_unique_spec. Qed.

Lemma elem_of_groupby_sum rows key w :
  (key, w) ∈ groupby_sum rows ↔ key ∈ rows.*1 ∧ w = np_sum (group_weights key rows).
Proof.
  unfold groupby_sum. split.
  - intros (k & [= -> ->] & Hk)%list_elem_of_fmap. split; [|done].
    rewrite py_sort_perm in Hk. by apply pd_unique_spec.
  - intros [Hk ->]. apply list_elem_of_fmap. exists key. split; [done|].
    rewrite py_sort_perm. by apply pd_unique_spec.
Qed.

Lemma index_of_value_unique {K : Type} `{Countable K} (l : list K) :
  let mapping := index_of_value (pd_unique l) in
  (∀ x i, mapping !! x = Some i → i < length (pd_unique l)) ∧
  (∀ x y i, mapping !! x = Some i → mapping !! y = Some i → x = y) ∧
  (∀ x, x ∈ l ↔ is_Some (mapping !! x)).
Proof.
  destruct (pd_unique_spec l) as [Hnd Hin]. cbn. split_and!.
  - intros x i Hx%index_of_value_lookup; [|done]. by eapply lookup_lt_Some.
  - intros x y i Hx%index_of_value_lookup Hy%index_of_value_lookup; [|done..]. congruence.
  - intros x. rewrite <- Hin. split.
    + intros [i Hi]%list_elem_of_lookup. exists i. by apply index_of_value_lookup.
    + intros [i Hi%index_of_value_lookup]; [|done]. by eapply list_elem_of_lookup_2.
Qed.

(** What [prepare_interaction_data] returns and leaves behind when the
    interaction table is not empty. *)
Lemma prepare_interaction_data_cells (w : World) :
  interactions (db w) ≠ [] →
  ∃ M s',
    prepare_interaction_data w = (Some M, mkWorld (db w) s' (log w)) ∧
    user_item_matrix s' = user_item_matrix (service w) ∧
    user_similarity_matrix s' = user_similarity_matrix (service w) ∧
    item_similarity_matrix s' = item_similarity_matrix (service w) ∧
    content_features s' = content_features (service w) ∧
    is_trained s' = is_trained (service w) ∧
    (∀ e, e ∈ interactions (db w) →
       is_Some (user_mapping s' !! ui_session_key e) ∧
       is_Some (item_mapping s' !! ui_product e)) ∧
    (∀ s p u i, user_mapping s' !! s = Some u → item_mapping s' !! p = Some i →
       cell M u i = Some (pair_weight (interactions (db w)) s p)).
Proof.
  intros Hne. unfold prepare_interaction_data.
  destruct (interactions (db w)) as [|e0 events0] eqn:Eev; [done|].
  rewrite <- Eev. clear Hne.
  fold (interaction_rows (interactions (db w))).
  set (rows := interaction_rows (interactions (db w))).
  set (df := groupby_sum rows).
  set (user_keys := (λ r : frame_row, r.1.1) <$> df).
  set (item_keys := (λ r : frame_row, r.1.2) <$> df).
  destruct (index_of_value_unique user_keys) as (Hult & Huinj & Hudom).
  destruct (index_of_value_unique item_keys) as (Hilt & Hiinj & Hidom).
  set (users := index_of_value (pd_unique user_keys)) in *.
  set (items := index_of_value (pd_unique item_keys)) in *.
  destruct (fill_rows users items (length (pd_unique user_keys)) (length (pd_unique item_keys))
              Hult Hilt Huinj Hiinj df
              (np_zeros (length (pd_unique user_keys)) (length (pd_unique item_keys))))
    as (M & HM & Hshape & Hcells).
  { apply has_shape_zeros. }
  { intros r Hr. split.
    - apply Hudom, (list_elem_of_fmap_2 (λ r : frame_row, r.1.1) _ _ Hr).
    - apply Hidom, (list_elem_of_fmap_2 (λ r : frame_row, r.1.2) _ _ Hr). }
  { apply groupby_sum_NoDup. }
  rewrite HM. eexists M, _. split; [reflexivity|]. cbn. split_and!; try done.
  - intros e He.
    assert ((ui_session_key e, ui_product e) ∈ df.*1) as Hkey.
    { apply elem_of_groupby_sum_keys. unfold rows, interaction_rows.
      rewrite <- list_fmap_compose. apply list_elem_of_fmap. by exists e. }
    apply list_elem_of_fmap in Hkey as (r & Hr & Hin).
    split; [apply Hudom|apply Hidom]; apply list_elem_of_fmap; exists r; by rewrite <- Hr.
  - intros s p u i Hu Hi. destruct (Hcells s p u i Hu Hi) as [Hin Hout].
    unfold pair_weight. rewrite <- group_weights_events. fold rows.
    destruct (decide ((s, p) ∈ df.*1)) as [Hkey|Hkey].
    + apply Hin. apply elem_of_groupby_sum. split; [|done].
      by apply elem_of_groupby_sum_keys.
    + rewrite Hout by done.
      assert (group_weights (s, p) rows = []) as ->.
      { unfold group_weights.
        replace (List.filter (λ r : frame_row, bool_decide (r.1 = (s, p))) rows) with
          (@nil frame_row); [done|]. symmetry. apply elem_of_nil_inv.
        intros r [Hr Hb%bool_decide_eq_true]%elem_of_bool_filter. apply Hkey.
        apply elem_of_groupby_sum_keys. rewrite <- Hb. by apply list_elem_of_fmap_2. }
      apply cell_zeros; eauto.
Qed.

(** C5. The weight is a total function of the kind: 1.0 for a view, 3.0
    for a like, -2.0 for a dislike, 5.0 for a purchase and 1.0 for anything
    else. Whenever the interaction table is not empty the matrix is built,
    every session and product of the table has an index, and the cell of a
    session and a product is the sum of the weights of all their events:
    two likes of one pair give 6.0. *)
Theorem interaction_weights_accumulate :
  (_get_interaction_weight "view" = 1%float ∧
   _get_interaction_weight "like" = 3%float ∧
   _get_interaction_weight "dislike" = (-2)%float ∧
   _get_interaction_weight "purchase" = 5%float ∧
   ∀ kind, kind ∉ ["view"; "like"; "dislike"; "purchase"] →
           _get_interaction_weight kind = 1%float) ∧
  (∀ w, interactions (db w) ≠ [] →
     ∃ M w',
       prepare_interaction_data w = (Some M, w') ∧
       (∀ e, e ∈ interactions (db w) →
          is_Some (user_mapping (service w') !! ui_session_key e) ∧
          is_Some (item_mapping (service w') !! ui_product e)) ∧
       (∀ s p u i,
          user_mapping (service w') !! s = Some u →
          item_mapping (service w') !! p = Some i →
          cell M u i = Some (pair_weight (interactions (db w)) s p))) ∧
  (let likes := [mkUserInteraction "s1" 1 "like" 10; mkUserInteraction "s1" 1 "like" 20] in
   pair_weight likes "s1" 1 = 6%float ∧
   (prepare_interaction_data (mkWorld (mkDB [] likes) init_service [])).1 = Some [[6%float]]).
Proof.
  split_and!; try reflexivity.
  - intros kind Hkind. unfold _get_interaction_weight, weights.
    rewrite !lookup_insert_ne, lookup_empty; [done|..];
      intros <-; apply Hkind; set_solver.
  - intros w Hne.
    destruct (prepare_interaction_data_cells w Hne)
      as (M & s' & Heq & _ & _ & _ & _ & _ & Hdom & Hcells).
    exists M, (mkWorld (db w) s' (log w)). done.
  - split; vm_compute; reflexivity.
Qed.

Lemma interaction_weights_accumulate_witness :
  let w :=
    mkWorld (mkDB [] [mkUserInteraction "s1" 1 "like" 10; mkUserInteraction "s2" 1 "view" 11;
                      mkUserInteraction "s1" 1 "purchase" 12])
      init_service [] in
  ∃ M w',
    prepare_interaction_data w = (Some M, w') ∧
    (∀ e, e ∈ interactions (db w) →
       is_Some (user_mapping (service w') !! ui_session_key e) ∧
       is_Some (item_mapping (service w') !! ui_product e)) ∧
    (∀ s p u i,
       user_mapping (service w') !! s = Some u →
       item_mapping (service w') !! p = Some i →
       cell M u i = Some (pair_weight (interactions (db w)) s p)).
Proof.
  cbv zeta. apply (proj1 (proj2 interaction_weights_accumulate)). discriminate.
Defined.

(** ** train_model *)

(** [prepare_interaction_data] reads the database only: the matrix and the
    four mappings do not depend on the state or the log it starts from. *)
Lemma prepare_interaction_data_db (w1 w2 : World) :
  db w1 = db w2 →
  let r1 := prepare_interaction_data w1 in
  let r2 := prepare_interaction_data w2 in
  r1.1 = r2.1 ∧
  (interactions (db w1) ≠ [] →
   user_mapping (service r1.2) = user_mapping (service r2.2) ∧
   item_mapping (service r1.2) = item_mapping (service r2.2) ∧
   reverse_user_mapping (service r1.2) = reverse_user_mapping (service r2.2) ∧
   reverse_item_mapping (service r1.2) = reverse_item_mapping (service r2.2)).
Proof.
  intros Hdb. unfold prepare_interaction_data. rewrite Hdb.
  destruct (interactions (db w2)) as [|e events]; [done|].
  destruct (foldl _ _ _); cbn; done.
Qed.

Section TrainModel.
Variable prepare_content_features : DB → option ndarray * list log_record.

Lemma train_model_empty (w : World) :
  interactions (db w) = [] →
  train_model prepare_content_features w
  = (false,
     mkWorld (db w)
       (mkService None
          (user_similarity_matrix (service w)) (item_similarity_matrix (service w))
          (user_mapping (service w)) (item_mapping (service w))
          (reverse_user_mapping (service w)) (reverse_item_mapping (service w))
          (content_features (service w)) (is_trained (service w)))
       (log w ++ [LogInfo "Training recommendation model...";
                  LogWarning "No user interactions found";
                  LogWarning "No interaction data available for training"])).
Proof.
  intros He. unfold train_model, prepare_interaction_data. cbn. rewrite He. cbn.
  unfold logging, with_service. cbn. by rewrite <- !app_assoc.
Qed.

Lemma train_model_nonempty (w : World) :
  interactions (db w) ≠ [] →
  ∃ M s' logged,
    prepare_interaction_data w = (Some M, mkWorld (db w) s' (log w)) ∧
    train_model prepare_content_features w
    = (true,
       mkWorld (db w)
         (mkService (Some M)
            (Some (compute_cosine_similarity_matrix M))
            (Some (compute_item_similarity_matrix M))
            (user_mapping s') (item_mapping s')
            (reverse_user_mapping s') (reverse_item_mapping s')
            (prepare_content_features (db w)).1 true)
         (log w ++ LogInfo "Training recommendation model..." :: logged)).
Proof.
  intros Hne.
  destruct (prepare_interaction_data_cells w Hne) as (M & s' & Heq & _).
  destruct (prepare_interaction_data_cells
              (logging (LogInfo "Training recommendation model...") w) Hne)
    as (M2 & s2 & Heq2 & _).
  pose proof (prepare_interaction_data_db
                (logging (LogInfo "Training recommendation model...") w) w eq_refl)
    as [HM Hmaps].
  cbv zeta in HM, Hmaps. rewrite Heq, Heq2 in HM, Hmaps. cbn in HM, Hmaps.
  destruct (Hmaps Hne) as (Hu & Hi & Hru & Hri). simplify_eq.
  unfold train_model. rewrite Heq2. cbn.
  destruct (prepare_content_features (db w)) as [features logged] eqn:Ef.
  eexists M, s', _. split; [done|]. cbn.
  rewrite Hu, Hi, Hru, Hri. unfold logging. cbn.
  rewrite <- !app_assoc. cbn. reflexivity.
Qed.

Lemma train_model_db (w : World) : db (train_model prepare_content_features w).2 = db w.
Proof.
  destruct (interactions (db w)) as [|e events] eqn:Ev.
  - by rewrite train_model_empty.
  - destruct (train_model_nonempty w) as (M & s' & logged & _ & ->); [by rewrite Ev|]. done.
Qed.

Lemma train_model_log (w : World) :
  ∃ logged,
    log (train_model prepare_content_features w).2
    = log w ++ LogInfo "Training recommendation model..." :: logged.
Proof.
  destruct (interactions (db w)) as [|e events] eqn:Ev.
  - rewrite train_model_empty by done. cbn. eauto.
  - destruct (train_model_nonempty w) as (M & s' & logged & _ & ->); [by rewrite Ev|].
    cbn. eauto.
Qed.

(** C4 (amended). [train_model] assigns the attributes one after the
    other; nothing is swapped at once. It returns failure exactly when
    there are no interaction events, and then the two similarity matrices,
    the four mappings, the content features and the trained flag are left
    as they were (the interaction matrix is not among them). When it
    returns success [is_trained] is set and every attribute holds a value
    computed from the database alone: nothing of the previous state is
    left. The database is not changed. *)
Theorem train_model_outcome (w : World) :
  let s := service w in
  let s' := service (train_model prepare_content_features w).2 in
  db (train_model prepare_content_features w).2 = db w ∧
  match interactions (db w) with
  | [] =>
    (train_model prepare_content_features w).1 = false ∧
    user_similarity_matrix s' = user_similarity_matrix s ∧
    item_similarity_matrix s' = item_similarity_matrix s ∧
    user_mapping s' = user_mapping s ∧
    item_mapping s' = item_mapping s ∧
    reverse_user_mapping s' = reverse_user_mapping s ∧
    reverse_item_mapping s' = reverse_item_mapping s ∧
    content_features s' = content_features s ∧
    is_trained s' = is_trained s
  | _ :: _ =>
    (train_model prepare_content_features w).1 = true ∧
    is_trained s' = true ∧
    ∀ previous logged,
      service (train_model prepare_content_features (mkWorld (db w) previous logged)).2 = s'
  end.
Proof.
  intros s s'. subst s s'. split; [apply train_model_db|].
  destruct (interactions (db w)) as [|e events] eqn:Ev.
  - rewrite train_model_empty by done. cbn. split_and!; done.
  - assert (interactions (db w) ≠ []) as Hne by by rewrite Ev.
    destruct (train_model_nonempty w Hne) as (M & s' & logged & Hprep & Heq).
    rewrite Heq. cbn. split_and!; [done..|].
    intros previous logged'.
    destruct (train_model_nonempty (mkWorld (db w) previous logged') Hne)
      as (M2 & s2 & logged2 & Hprep2 & Heq2).
    rewrite Heq2. cbn.
    pose proof (prepare_interaction_data_db (mkWorld (db w) previous logged') w eq_refl)
      as [HM Hmaps].
    cbv zeta in HM, Hmaps. rewrite Hprep, Hprep2 in HM, Hmaps. cbn in HM, Hmaps.
    destruct (Hmaps Hne) as (Hu & Hi & Hru & Hri). simplify_eq.
    by rewrite Hu, Hi, Hru, Hri.
Qed.
End TrainModel.

(** C4, as stated, fails: a retrain that returns failure has changed the
    trained state. The interaction matrix is gone while the model still
    counts as trained and keeps its old mappings. *)
Lemma train_model_counterexample :
  (train_model no_content_features emptied).1 = false ∧
  service (train_model no_content_features emptied).2 ≠ service emptied ∧
  user_item_matrix (service emptied) = Some [[1%float]] ∧
  user_item_matrix (service (train_model no_content_features emptied).2) = None ∧
  is_trained (service (train_model no_content_features emptied).2) = true ∧
  user_mapping (service (train_model no_content_features emptied).2) !! "s1" = Some 0.
Proof.
  split_and!; try (vm_compute; reflexivity).
  intros H. apply (f_equal user_item_matrix) in H. vm_compute in H. discriminate.
Qed.

(** ** record_interaction *)

Lemma same_event_refreshed s p k now s' p' k' e :
  same_event s' p' k' (refreshed s p k now e) = same_event s' p' k' e.
Proof. unfold refreshed. by destruct (same_event s p k e). Qed.

Lemma filter_refreshed s p k now s' p' k' events :
  length (List.filter (same_event s' p' k') (refreshed s p k now <$> events))
  = length (List.filter (same_event s' p' k') events).
Proof.
  induction events as [|e events IH]; [done|]. cbn.
  rewrite same_event_refreshed. destruct (same_event s' p' k' e); cbn; by rewrite IH.
Qed.

Lemma upsert_interaction_unique events s p k now :
  unique_events events →
  ∃ events',
    upsert_interaction events s p k now = Some events' ∧
    unique_events events' ∧
    events' = match List.filter (same_event s p k) events with
              | [] => events ++ [mkUserInteraction s p k now]
              | _ => refreshed s p k now <$> events
              end.
Proof.
  intros Huniq. unfold upsert_interaction, objects_get.
  pose proof (Huniq s p k) as Hle.
  destruct (List.filter (same_event s p k) events) as [|e [|e' l]] eqn:Ef; cbn in Hle; [| |lia].
  - eexists. split_and!; [done| |done].
    intros s' p' k'. rewrite List.filter_app, length_app. cbn.
    destruct (same_event s' p' k' _) eqn:Es; cbn; [|specialize (Huniq s' p' k'); lia].
    unfold same_event in Es. cbn in Es.
    rewrite !andb_true_iff, !bool_decide_eq_true in Es. destruct Es as [[<- <-] <-].
    rewrite Ef. cbn. lia.
  - eexists. split_and!; [done| |done].
    intros s' p' k'. fold (refreshed s p k now). rewrite filter_refreshed. apply Huniq.
Qed.

Lemma get_product_None d p : get_product d p = None ↔ ¬ ∃ q, q ∈ products d ∧ p_id q = p.
Proof.
  unfold get_product. split.
  - intros H [q [Hq Hid]].
    assert (q ∈ List.filter (λ x, bool_decide (p_id x = p)) (products d)) as Hin
      by (apply elem_of_bool_filter; by rewrite bool_decide_eq_true).
    destruct (List.filter _ _); [by apply elem_of_nil in Hin|done].
  - intros H. destruct (List.filter _ _) as [|q l] eqn:Ef; [done|]. exfalso. apply H.
    exists q. assert (q ∈ List.filter (λ x, bool_decide (p_id x = p)) (products d)) as Hin
      by (rewrite Ef; apply list_elem_of_here).
    apply elem_of_bool_filter in Hin as [Hin Hb%bool_decide_eq_true]. done.
Qed.

Section RecordInteraction.
Variable prepare_content_features : DB → option ndarray * list log_record.

(** What the body of [record_interaction] does once a clock value [now] is
    at hand, which the program as written never has
    ([models_timezone_now]). With at most one event per (session, product,
    kind) in the table, it returns failure exactly when no product has
    the given id, and then leaves the table alone. Otherwise it returns
    success, the products are untouched, and the table is upserted: when
    no event has the triple, one new event is appended; when one has, the
    table keeps its length and only the timestamp of that event changes.
    The table again holds at most one event per triple. *)
Theorem record_interaction_upsert (w : World) (s : string) (p : Z) (k : string) (now : Z) :
  unique_events (interactions (db w)) →
  let r := record_interaction prepare_content_features w s p k (Some now) in
  let before := interactions (db w) in
  let after := interactions (db r.2) in
  products (db r.2) = products (db w) ∧
  (r.1 = false ↔ ¬ ∃ q, q ∈ products (db w) ∧ p_id q = p) ∧
  ((¬ ∃ q, q ∈ products (db w) ∧ p_id q = p) → after = before) ∧
  ((∃ q, q ∈ products (db w) ∧ p_id q = p) →
     r.1 = true ∧
     unique_events after ∧
     after = match List.filter (same_event s p k) before with
             | [] => before ++ [mkUserInteraction s p k now]
             | _ => refreshed s p k now <$> before
             end).
Proof.
  intros Huniq r before after. subst r before after.
  unfold record_interaction.
  rewrite <- get_product_None.
  destruct (get_product (db w) p) as [q|] eqn:Eg.
  - cbn [mbind option_bind].
    destruct (upsert_interaction_unique (interactions (db w)) s p k now Huniq)
      as (events' & -> & Huniq' & Hevents').
    cbv zeta. cbn [fst snd].
    assert (∀ w0 : World,
              db (if decide (length (interactions (db w0)) `mod` 50 = 0)
                  then (train_model prepare_content_features w0).2 else w0) = db w0) as Hdb.
    { intros w0. destruct (decide _); [apply train_model_db|done]. }
    rewrite Hdb. cbn. split_and!; done.
  - cbn. split_and!; try done. intros Hq. exfalso.
    by apply (proj1 (get_product_None (db w) p)).
Qed.
End RecordInteraction.

Section Retrain.
Variable prepare_content_features : DB → option ndarray * list log_record.

(** The retraining rule of the body of [record_interaction], again for a
    clock value the program as written never has. When the product exists
    and the upsert succeeds, the call returns success whatever the
    retraining does, and the database it leaves is the one with the event
    recorded. If the number of events is then a multiple of 50,
    [train_model] has run, on the world that already holds the event, and
    its first log record follows the old log; otherwise nothing but the
    table has changed: the model and the log are as before. *)
Theorem record_interaction_retrains (w : World) (s : string) (p : Z) (k : string) (now : Z)
    (q : Product) (events : list UserInteraction) :
  get_product (db w) p = Some q →
  upsert_interaction (interactions (db w)) s p k now = Some events →
  let recorded := with_db (mkDB (products (db w)) events) w in
  let r := record_interaction prepare_content_features w s p k (Some now) in
  r.1 = true ∧
  db r.2 = db recorded ∧
  if decide (length events `mod` 50 = 0)
  then r.2 = (train_model prepare_content_features recorded).2 ∧
       ∃ logged, log r.2 = log w ++ LogInfo "Training recommendation model..." :: logged
  else r.2 = recorded.
Proof.
  intros Hq Hup recorded r. subst r.
  unfold record_interaction. rewrite Hq. cbn [mbind option_bind]. rewrite Hup.
  cbv zeta. cbn [fst snd]. fold recorded.
  change (interactions (db recorded)) with events.
  destruct (decide (length events `mod` 50 = 0)) as [Hmod|Hmod].
  - split_and!; [done|apply train_model_db|done|].
    destruct (train_model_log prepare_content_features recorded) as [logged Hlog].
    exists logged. by rewrite Hlog.
  - done.
Qed.
(** When the clock cannot be read nothing is recorded and the call fails. *)
Lemma record_interaction_without_clock (w : World) (s : string) (p : Z) (k : string) :
  let r := record_interaction prepare_content_features w s p k None in
  r.1 = false ∧ db r.2 = db w ∧ service r.2 = service w.
Proof.
  unfold record_interaction. by destruct (get_product (db w) p).
Qed.
End Retrain.

(** With such a clock: no training after the 49th interaction, training
    after the 50th. *)
Example retrain_at_fifty :
  length (interactions (db (after_views 49))) = 49 ∧
  is_trained (service (after_views 49)) = false ∧
  log (after_views 49) = [] ∧
  length (interactions (db (after_views 50))) = 50 ∧
  is_trained (service (after_views 50)) = true ∧
  head (log (after_views 50)) = Some (LogInfo "Training recommendation model...").
Proof. vm_compute. done. Qed.

Lemma record_interaction_retrains_witness :
  let w := after_views 49 in
  let events := interactions (db (after_views 50)) in
  let recorded := with_db (mkDB (products (db w)) events) w in
  let r := record_interaction no_content_features w "s49" 1 "view" (Some 0%Z) in
  r.1 = true ∧
  db r.2 = db recorded ∧
  if decide (length events `mod` 50 = 0)
  then r.2 = (train_model no_content_features recorded).2 ∧
       ∃ logged, log r.2 = log w ++ LogInfo "Training recommendation model..." :: logged
  else r.2 = recorded.
Proof.
  apply (record_interaction_retrains no_content_features (after_views 49) "s49" 1 "view" 0
           (mkProduct 1 "books" true) (interactions (db (after_views 50)))).
  - vm_compute. reflexivity.
  - vm_compute. reflexivity.
Defined.

(** ** record_interaction as the program runs it *)

Section Clock.
Variable prepare_content_features : DB → option ndarray * list log_record.

(** The program reads its clock through [models.timezone], which does
    not exist: every call fails, and all it leaves is one error record. *)
Lemma record_interaction_as_run (w : World) (s : string) (p : Z) (k : string) :
  let r := record_interaction prepare_content_features w s p k models_timezone_now in
  r.1 = false ∧ db r.2 = db w ∧ service r.2 = service w ∧
  ∃ message, log r.2 = log w ++ [LogError message].
Proof.
  unfold record_interaction, models_timezone_now.
  destruct (get_product (db w) p); cbn; split_and!; eauto.
Qed.
End Clock.

(** C7 fails on the code: [record_interaction] never records. The
    specification has it return success for every existing product, with a
    new event created or the timestamp of the existing one refreshed. The
    code evaluates [models.timezone.now()] before it reaches the table, the
    evaluation raises, and the last [except] clause returns failure: for
    every state and every argument the call returns failure and leaves the
    database as it was. On a shop whose product 1 exists and has no event,
    the call for a new triple returns failure and creates nothing; on a
    table that holds the triple, it returns failure and the timestamp stays
    0. *)
Theorem record_interaction_never_records :
  (∀ (prepare_content_features : DB → option ndarray * list log_record)
     (w : World) (s : string) (p : Z) (k : string),
     let r := record_interaction prepare_content_features w s p k models_timezone_now in
     r.1 = false ∧ db r.2 = db w) ∧
  (let r := record_interaction no_content_features fresh_shop "s1" 1 "view" models_timezone_now in
   get_product (db fresh_shop) 1 = Some (mkProduct 1 "books" true) ∧
   r.1 = false ∧
   interactions (db r.2) = [] ∧
   log r.2 = [LogError "Error recording interaction: "]) ∧
  (let w := mkWorld one_view init_service [] in
   let r := record_interaction no_content_features w "s1" 1 "view" models_timezone_now in
   interactions (db w) = [mkUserInteraction "s1" 1 "view" 0] ∧
   r.1 = false ∧
   interactions (db r.2) = [mkUserInteraction "s1" 1 "view" 0]).
Proof.
  split; [|split].
  - intros pcf w s p k.
    destruct (record_interaction_as_run pcf w s p k) as (? & ? & _). done.
  - vm_compute. done.
  - vm_compute. done.
Qed.


Lemma same_event_key s p k e : same_event s p k e = true ↔ event_key e = (s, p, k).
Proof.
  unfold same_event, event_key. rewrite !andb_true_iff, !bool_decide_eq_true.
  split; [intros [[-> ->] ->]; done | intros [= -> -> ->]; done].
Qed.

Lemma unique_events_NoDup events : NoDup (event_key <$> events) → unique_events events.
Proof.
  intros Hnd s p k. induction events as [|e events IH]; cbn; [lia|].
  apply NoDup_cons in Hnd as [Hfresh Hnd]. specialize (IH Hnd).
  destruct (same_event s p k e) eqn:Ee; cbn; [|lia].
  assert (List.filter (same_event s p k) events = []) as ->; [|cbn; lia].
  apply elem_of_nil_inv. intros e' [He' Hs]%elem_of_bool_filter. apply Hfresh.
  apply same_event_key in Ee, Hs. rewrite Ee, <- Hs. by apply list_elem_of_fmap_2.
Qed.

Lemma record_interaction_upsert_witness :
  let w := after_views 3 in
  let r := record_interaction no_content_features w "s1" 1 "view" (Some 7%Z) in
  let before := interactions (db w) in
  let after := interactions (db r.2) in
  products (db r.2) = products (db w) ∧
  (r.1 = false ↔ ¬ ∃ q, q ∈ products (db w) ∧ p_id q = 1%Z) ∧
  ((¬ ∃ q, q ∈ products (db w) ∧ p_id q = 1%Z) → after = before) ∧
  ((∃ q, q ∈ products (db w) ∧ p_id q = 1%Z) →
     r.1 = true ∧
     unique_events after ∧
     after = match List.filter (same_event "s1" 1 "view") before with
             | [] => before ++ [mkUserInteraction "s1" 1 "view" 7]
             | _ => refreshed "s1" 1 "view" 7 <$> before
             end).
Proof.
  apply (record_interaction_upsert no_content_features (after_views 3) "s1" 1 "view" 7).
  apply unique_events_NoDup. vm_compute.
  apply (bool_decide_unpack _). vm_compute. exact I.
Defined.

Example record_interaction_upsert_example :
  interactions
    (db (record_interaction no_content_features (after_views 3) "s1" 1 "view" (Some 7%Z)).2)
  = [mkUserInteraction "s0" 1 "view" 0; mkUserInteraction "s1" 1 "view" 7;
     mkUserInteraction "s2" 1 "view" 0] ∧
  (record_interaction no_content_features (after_views 3) "s1" 2 "view" (Some 7%Z)).1 = false.
Proof. vm_compute. done. Qed.

(** ** The fallbacks *)

(** The annotation [Count('userinteraction')] counts these events. *)
Lemma interaction_count_events_on_product (d : DB) (p : Product) :
  interaction_count d p = length (events_on_product (interactions d) (p_id p)).
Proof.
  unfold interaction_count, events_on_product.
  induction (interactions d) as [|e events IH]; [done|].
  cbn [List.filter]. rewrite filter_cons.
  destruct (decide (ui_product e = p_id p)) as [He|He].
  - rewrite bool_decide_eq_true_2 by done. cbn. by rewrite IH.
  - rewrite bool_decide_eq_false_2 by done. done.
Qed.

Lemma count_lt_weak_order (d : DB) : weak_order (count_lt d) (λ _, True).
Proof.
  unfold count_lt. split.
  - intros a b _ _ H%Nat.ltb_lt. apply Nat.ltb_ge. lia.
  - intros a b c _ _ _ H1%Nat.ltb_ge H2%Nat.ltb_ge. apply Nat.ltb_ge. lia.
Qed.

Section Popularity.
Variable prepare_content_features : DB → option ndarray * list log_record.

Lemma popular_recommendations_db (w1 w2 : World) (n : nat) :
  db w1 = db w2 → _get_popular_recommendations w1 n = _get_popular_recommendations w2 n.
Proof. intros H. unfold _get_popular_recommendations. by rewrite H. Qed.

(** C8. When the model is untrained after the one training attempt, or
    the session has no row, [get_user_recommendations] returns the
    popularity list: active products only, each with score 1.0 and
    reason "popularity", [n] of them or all active products when there
    are fewer, in order of decreasing number of recorded interactions,
    and no active product left out has more interactions than one that
    is listed. The number of recorded interactions of a product is the
    number of events of the table on that product, of any kind. *)
Theorem get_user_recommendations_popularity (w : World) (session_key : string) (n : nat) :
  let attempted :=
    if is_trained (service w) then w else (train_model prepare_content_features w).2 in
  is_trained (service attempted) = false
  ∨ user_mapping (service attempted) !! session_key = None →
  let recs := (get_user_recommendations prepare_content_features w session_key n).1 in
  let count := λ p, length (events_on_product (interactions (db w)) (p_id p)) in
  recs = _get_popular_recommendations w n ∧
  length recs = n `min` length (List.filter p_is_active (products (db w))) ∧
  (∀ r, r ∈ recs →
     product r ∈ products (db w) ∧ p_is_active (product r) = true ∧
     score r = 1%float ∧ reason r = "popularity") ∧
  (∀ i j a b, i < j → recs !! i = Some a → recs !! j = Some b →
     count (product b) ≤ count (product a)) ∧
  (∀ p, p ∈ products (db w) → p_is_active p = true →
     p ∈ product <$> recs ∨
     (length recs = n ∧ ∀ r, r ∈ recs → count p ≤ count (product r))).
Proof.
  intros attempted Hfallback recs count.
  assert (∀ p, count p = interaction_count (db w) p) as Hcount.
  { intros p. symmetry. apply interaction_count_events_on_product. }
  assert (db attempted = db w) as Hdb.
  { unfold attempted. destruct (is_trained (service w)); [done|apply train_model_db]. }
  assert (recs = _get_popular_recommendations w n) as Hrecs.
  { unfold recs, get_user_recommendations.
    fold attempted. cbv zeta.
    assert (negb (is_trained (service attempted))
            || bool_decide (user_mapping (service attempted) !! session_key = None) = true)
      as ->.
    { apply orb_true_iff. destruct Hfallback as [-> | ->]; [by left|].
      right. by apply bool_decide_eq_true. }
    cbn. by apply popular_recommendations_db. }
  split; [done|]. rewrite Hrecs. clear Hrecs recs Hfallback Hdb attempted.
  unfold _get_popular_recommendations.
  set (active := List.filter p_is_active (products (db w))).
  pose proof (py_sort_reverse_perm (count_lt (db w)) active) as Hperm.
  pose proof (py_sort_reverse_descending (count_lt (db w)) (λ _, True) active
                (count_lt_weak_order (db w))) as Hdesc.
  set (sorted := py_sort_reverse (count_lt (db w)) active) in *.
  assert (descending (count_lt (db w)) sorted) as Hsorted.
  { apply Hdesc. by apply Forall_forall. }
  split_and!.
  - by rewrite length_fmap, length_take, Hperm.
  - intros r (p & -> & [i [Hi _]]%elem_of_take)%list_elem_of_fmap. cbn.
    apply list_elem_of_lookup_2 in Hi. rewrite Hperm in Hi.
    apply elem_of_bool_filter in Hi as [Hin Hact]. done.
  - intros i j a b Hij Ha Hb. rewrite list_lookup_fmap in Ha, Hb.
    destruct (take n sorted !! i) as [pa|] eqn:Ea; [|done].
    destruct (take n sorted !! j) as [pb|] eqn:Eb; [|done].
    cbn in Ha, Hb. simplify_eq. cbn.
    pose proof (descending_lookup (count_lt (db w)) (take n sorted) i j pa pb
                  (descending_take _ n sorted Hsorted) Hij Ea Eb) as H.
    unfold count_lt in H. apply Nat.ltb_ge in H. by rewrite !Hcount.
  - intros p Hp Hact.
    assert (p ∈ sorted) as Hin by (rewrite Hperm; by apply elem_of_bool_filter).
    rewrite <- (take_drop n sorted) in Hin. apply elem_of_app in Hin as [Hin|Hin].
    + left. rewrite <- list_fmap_compose. cbn.
      apply list_elem_of_fmap. by exists p.
    + right. split.
      * rewrite length_fmap, length_take. apply list_elem_of_lookup in Hin as [i Hi].
        apply lookup_lt_Some in Hi. rewrite length_drop in Hi. lia.
      * intros r (a & -> & Ha)%list_elem_of_fmap. cbn.
        pose proof (descending_take_drop (count_lt (db w)) n sorted a p Hsorted Ha Hin) as H.
        unfold count_lt in H. apply Nat.ltb_ge in H. by rewrite !Hcount.
Qed.
End Popularity.

Lemma get_user_recommendations_popularity_witness :
  let recs := (get_user_recommendations no_content_features shop_world "stranger" 2).1 in
  let count := λ p, length (events_on_product (interactions shop) (p_id p)) in
  recs = _get_popular_recommendations shop_world 2 ∧
  length recs = 2 `min` length (List.filter p_is_active (products shop)) ∧
  (∀ r, r ∈ recs →
     product r ∈ products shop ∧ p_is_active (product r) = true ∧
     score r = 1%float ∧ reason r = "popularity") ∧
  (∀ i j a b, i < j → recs !! i = Some a → recs !! j = Some b →
     count (product b) ≤ count (product a)) ∧
  (∀ p, p ∈ products shop → p_is_active p = true →
     p ∈ product <$> recs ∨
     (length recs = 2 ∧ ∀ r, r ∈ recs → count p ≤ count (product r))).
Proof.
  apply (get_user_recommendations_popularity no_content_features shop_world "stranger" 2).
  right. vm_compute. reflexivity.
Defined.

Example popularity_example :
  (get_user_recommendations no_content_features shop_world "stranger" 2).1
  = [mkRecommendation (mkProduct 3 "games" true) 1%float "popularity";
     mkRecommendation (mkProduct 1 "books" true) 1%float "popularity"].
Proof. vm_compute. reflexivity. Qed.

(** ** get_similar_products *)

(** C3 fails on the code: the queried product is returned as similar to
    itself. The slice [[1:n+1]] drops the first index of the reversed
    argsort, which is the product itself only if its own similarity 1.0 is
    the strict maximum of its row. With three common viewers the similarity
    of the two products is rounded to 1.0000000000000002, above 1.0, so the
    other product is dropped and the product itself is kept. *)
Theorem get_similar_products_returns_queried :
  let w := (get_similar_products no_content_features twins_world 1 5).2 in
  item_mapping (service w) !! 1%Z = Some 0 ∧
  item_similarity_matrix (service w)
  = Some [[1; 0x1.0000000000001p+0]; [0x1.0000000000001p+0; 1]]%float ∧
  (get_similar_products no_content_features twins_world 1 5).1
  = [mkRecommendation (mkProduct 1 "books" true) 1%float "item_similarity"].
Proof. vm_compute. done. Qed.

(** With one common viewer both similarities are exactly 1.0; when the
    argsort keeps equal values in index order the product with the smaller
    index is again returned for itself. *)
Example get_similar_products_tie :
  (get_similar_products no_content_features pair_world 1 5).1
  = [mkRecommendation (mkProduct 1 "books" true) 1%float "item_similarity"] ∧
  (get_similar_products no_content_features pair_world 2 5).1
  = [mkRecommendation (mkProduct 1 "books" true) 1%float "item_similarity"].
Proof. vm_compute. done. Qed.

(** The category fallback does keep the queried product out: its results
    are other active products of the same category, at most [n], with
    score 1.0 and reason "same_category". *)
Lemma category_recommendations_exclude_self (w : World) (product_id : Z) (n : nat) :
  let recs := (_get_category_recommendations w product_id n).1 in
  length recs ≤ n ∧
  ∀ r, r ∈ recs →
    p_id (product r) ≠ product_id ∧
    product r ∈ products (db w) ∧
    p_is_active (product r) = true ∧
    (∃ q, get_product (db w) product_id = Some q ∧ p_category (product r) = p_category q) ∧
    score r = 1%float ∧ reason r = "same_category".
Proof.
  unfold _get_category_recommendations.
  destruct (get_product (db w) product_id) as [q|] eqn:Eq; cbn.
  - split; [rewrite length_fmap, length_take; lia|].
    intros r (p & -> & [i [Hi _]]%elem_of_take)%list_elem_of_fmap. cbn.
    apply list_elem_of_lookup_2 in Hi.
    apply elem_of_bool_filter in Hi as [Hi Hne]. apply elem_of_bool_filter in Hi as [Hin Hc].
    apply andb_true_iff in Hc as [Hc%bool_decide_eq_true Hact].
    apply negb_true_iff, bool_decide_eq_false in Hne. split_and!; eauto.
  - split; [lia|]. intros r Hr. by apply elem_of_nil in Hr.
Qed.

(** ** compute_item_similarity_matrix *)

Lemma foldl_ext_elem {A B : Type} (f g : A → B → A) (l : list B) (a : A) :
  (∀ acc x, x ∈ l → f acc x = g acc x) → foldl f a l = foldl g a l.
Proof.
  revert a. induction l as [|x l IH]; intros a Hfg; [done|]. cbn.
  rewrite Hfg by apply list_elem_of_here. apply IH.
  intros acc y Hy. apply Hfg. by apply list_elem_of_further.
Qed.

(** The loops read [vec] at the indices below [n] only. *)
Lemma pairwise_similarity_ext (n : nat) (vec vec' : nat → list float) :
  (∀ i, i < n → vec i = vec' i) → pairwise_similarity n vec = pairwise_similarity n vec'.
Proof.
  intros Hvec. unfold pairwise_similarity.
  assert (((λ i, PrimFloat.sqrt (np_sum (np_square (vec i)))) <$> seq 0 n)
          = ((λ i, PrimFloat.sqrt (np_sum (np_square (vec' i)))) <$> seq 0 n)) as ->.
  { apply list_fmap_ext. intros k i Hi. apply lookup_seq in Hi as [-> Hi].
    by rewrite Hvec. }
  apply foldl_ext_elem. intros M i Hi%elem_of_seq.
  apply foldl_ext_elem. intros M' j Hj%elem_of_seq.
  unfold similarity_step. by rewrite !Hvec by lia.
Qed.

Lemma row_of_transpose (M : ndarray) (j : nat) :
  j < shape1 M → row_of (transpose M) j = col_of M j.
Proof.
  intros Hj. unfold row_of, transpose. by rewrite list_lookup_fmap, lookup_seq_lt.
Qed.

(** The item similarities of a matrix are the row similarities of its
    transpose. *)
Theorem item_similarity_is_cosine_of_transpose (matrix : ndarray) :
  compute_item_similarity_matrix matrix = compute_cosine_similarity_matrix (transpose matrix).
Proof.
  unfold compute_item_similarity_matrix, compute_cosine_similarity_matrix.
  assert (shape0 (transpose matrix) = shape1 matrix) as ->.
  { unfold shape0, transpose. by rewrite length_fmap, length_seq. }
  apply pairwise_similarity_ext. intros i Hi. by rewrite row_of_transpose.
Qed.

(** What both similarity functions compute, in terms of the vectors read. *)
Lemma pairwise_similarity_spec (n : nat) (vec : nat → list float) :
  let S := pairwise_similarity n vec in
  has_shape n n S ∧
  ∀ i j, i < n → j < n →
    cell S i i = Some 1%float ∧
    cell S i j = cell S j i ∧
    (i < j → cell S i j = Some (off_diagonal vec i j)).
Proof.
  intros S. destruct (pairwise_similarity_cells vec n) as [Hshape Hcells].
  split; [done|]. intros i j Hi Hj. unfold S. split_and!.
  - rewrite Hcells by done. unfold final_value. by rewrite decide_True.
  - rewrite !Hcells by done. unfold final_value.
    destruct (decide (i = j)) as [->|Hne]; [by rewrite decide_True|].
    rewrite (decide_False (P := j = i)) by lia. by rewrite Nat.min_comm, Nat.max_comm.
  - intros Hlt. rewrite Hcells by done. unfold final_value.
    rewrite decide_False by lia. by rewrite Nat.min_l, Nat.max_r by lia.
Qed.

(** [compute_item_similarity_matrix] returns a square matrix with one row
    and column per column of the input. It is symmetric, its diagonal is
    1.0, and for [i < j] the entry is the quotient of the dot product of
    columns [i] and [j] by the product of their norms, or 0.0 when one of
    the norms is not greater than 0. *)
Theorem item_similarity_matrix_spec (matrix : ndarray) :
  let S := compute_item_similarity_matrix matrix in
  let m := shape1 matrix in
  let norm := norm_of (col_of matrix) in
  has_shape m m S ∧
  ∀ i j, i < m → j < m →
    cell S i i = Some 1%float ∧
    cell S i j = cell S j i ∧
    (i < j →
     cell S i j
     = Some (if ((0 <? norm i) && (0 <? norm j))%float
             then (np_dot (col_of matrix i) (col_of matrix j) / (norm i * norm j))%float
             else 0%float)).
Proof. intros S m norm. apply (pairwise_similarity_spec m (col_of matrix)). Qed.

(** ** fast_predict_rating: the indices it reads *)

Lemma rater_at_is_Some (similarities ratings : list float) (user_idx r : nat) :
  r < length similarities →
  is_Some (rater_at similarities ratings user_idx r) ↔ (r ≠ user_idx → r < length ratings).
Proof.
  intros Hr. unfold rater_at.
  destruct (decide (r = user_idx)) as [->|Hne]; [split; [done|eauto]|].
  destruct (lookup_lt_is_Some_2 similarities r Hr) as [s Hs].
  destruct (ratings !! r) as [x|] eqn:Ex; cbn.
  - apply lookup_lt_Some in Ex. rewrite Hs. cbn. split; [done|].
    intros _. by destruct (0 <? x)%float.
  - apply lookup_ge_None in Ex. split; [by intros [? [=]]|]. intros H. specialize (H Hne). lia.
Qed.

Lemma rated_by_is_Some (similarities ratings : list float) (user_idx : nat) :
  is_Some (rated_by similarities ratings user_idx)
  ↔ ∀ r, r < length similarities → r ≠ user_idx → r < length ratings.
Proof.
  unfold rated_by.
  assert (is_Some (mapM (rater_at similarities ratings user_idx) (seq 0 (length similarities)))
          ↔ ∀ r, r < length similarities → r ≠ user_idx → r < length ratings) as <-.
  { rewrite mapM_is_Some, Forall_forall. split.
    - intros H r Hr. apply (proj1 (rater_at_is_Some similarities ratings user_idx r Hr)).
      apply H, elem_of_seq. lia.
    - intros H r Hr%elem_of_seq.
      apply (proj2 (rater_at_is_Some similarities ratings user_idx r ltac:(lia))).
      apply H. lia. }
  destruct (mapM _ _); cbn; split; intros [? ?]; by eauto.
Qed.

(** [fast_predict_rating] raises an [IndexError] in three cases and in no
    other: the similarity matrix has no row [user_idx]; the rating matrix
    has no column [item_idx]; or the similarity row of the user is longer
    than the rating matrix has rows, the extra position not being the
    user's own (whose rating is never read). The number [k] plays no part. *)
Theorem fast_predict_rating_index_error (M S : ndarray) (user_idx item_idx k : nat) :
  fast_predict_rating M S user_idx item_idx k = None
  ↔ length S ≤ user_idx
    ∨ shape1 M ≤ item_idx
    ∨ ∃ r, r < length (row_of S user_idx) ∧ r ≠ user_idx ∧ length M ≤ r.
Proof.
  unfold fast_predict_rating, similar_users, row_of, column.
  destruct (S !! user_idx) as [similarities|] eqn:Erow; cbn.
  - apply lookup_lt_Some in Erow.
    destruct (decide (item_idx < shape1 M)) as [Hcol|Hcol]; cbn; [|split; [right; left; lia|done]].
    pose proof (rated_by_is_Some similarities (col_of M item_idx) user_idx) as Hsome.
    rewrite length_col_of in Hsome.
    destruct (rated_by similarities (col_of M item_idx) user_idx) as [found|]; cbn.
    + split; [done|]. intros [H|[H|(r & Hr & Hne & Hge)]]; [lia..|].
      assert (r < length M); [|lia]. apply Hsome; eauto.
    + split; [|done]. intros _. right. right.
      destruct (decide (Exists (λ r, r ≠ user_idx ∧ length M ≤ r) (seq 0 (length similarities))))
        as [Hex|Hnex].
      { apply Exists_exists in Hex as (r & Hr%elem_of_seq & Hne & Hge).
        exists r. split_and!; [lia|done..]. }
      exfalso. assert (is_Some (@None (list rater))) as [? [=]].
      apply Hsome. intros r Hr Hne. destruct (decide (r < length M)); [done|].
      exfalso. apply Hnex, Exists_exists. exists r. rewrite elem_of_seq. split_and!; first [done|lia].
  - apply lookup_ge_None in Erow. split; [by left|done].
Qed.

Lemma mapM_concat_length {A B : Type} (f : A → option (list B)) (l : list A) (found : list (list B)) :
  (∀ x y, f x = Some y → length y ≤ 1) →
  mapM f l = Some found → length (concat found) ≤ length l.
Proof.
  intros Hf Hfound%mapM_Some_1.
  induction Hfound as [|x y l found Hxy _ IH]; cbn; [done|].
  rewrite length_app. specialize (Hf x y Hxy). lia.
Qed.

Lemma rater_at_length (similarities ratings : list float) (user_idx r : nat) (l : list rater) :
  rater_at similarities ratings user_idx r = Some l → length l ≤ 1.
Proof.
  unfold rater_at. destruct (decide _); [by intros [= <-]; cbn; lia|].
  destruct (ratings !! r) as [x|]; [|done]. cbn. destruct (0 <? x)%float.
  - destruct (similarities !! r); [|done]. cbn. intros [= <-]. cbn. lia.
  - intros [= <-]. cbn. lia.
Qed.

Lemma rated_by_length (similarities ratings : list float) (user_idx : nat) (found : list rater) :
  rated_by similarities ratings user_idx = Some found → length found ≤ length similarities.
Proof.
  unfold rated_by. destruct (mapM _ _) as [ls|] eqn:E; [|done]. cbn. intros [= <-].
  apply mapM_concat_length in E; [|apply rater_at_length]. by rewrite length_seq in E.
Qed.

(** The neighbourhood size [k] of [fast_predict_rating] only matters below
    the length of the similarity row: two values of [k] that both reach it
    give the same outcome, so with at most ten rows the default [k = 10]
    selects every rater. With [k = 0] nobody is selected and the prediction,
    when the indices are in range, is 0.0. *)
Theorem fast_predict_rating_neighbourhood (M S : ndarray) (user_idx item_idx : nat) :
  (∀ k k', length (row_of S user_idx) ≤ k → length (row_of S user_idx) ≤ k' →
     fast_predict_rating M S user_idx item_idx k = fast_predict_rating M S user_idx item_idx k') ∧
  (∀ v, fast_predict_rating M S user_idx item_idx 0 = Some v → v = 0%float).
Proof.
  unfold fast_predict_rating, similar_users, row_of.
  destruct (S !! user_idx) as [similarities|]; cbn; [|done].
  destruct (column M item_idx) as [ratings|]; cbn; [|done].
  destruct (rated_by similarities ratings user_idx) as [found|] eqn:Efound; cbn; [|done].
  apply rated_by_length in Efound. split.
  - intros k k' Hk Hk'.
    rewrite !take_ge by (rewrite py_sort_reverse_perm; lia). done.
  - by intros v [= <-].
Qed.

(** The prediction for a user never reads that user's own row of the
    rating matrix: two matrices of equal height that agree on every other
    row give the same prediction for every column both of them have. *)
Theorem fast_predict_rating_ignores_own_row (M M' S : ndarray) (user_idx item_idx k : nat) :
  length M = length M' →
  (∀ r, r ≠ user_idx → M !! r = M' !! r) →
  item_idx < shape1 M → item_idx < shape1 M' →
  fast_predict_rating M S user_idx item_idx k = fast_predict_rating M' S user_idx item_idx k.
Proof.
  intros Hlen Hrows Hc Hc'. unfold fast_predict_rating, similar_users, column.
  destruct (S !! user_idx) as [similarities|]; cbn; [|done].
  rewrite !decide_True by done. cbn.
  assert (rated_by similarities (col_of M item_idx) user_idx
          = rated_by similarities (col_of M' item_idx) user_idx) as ->; [|done].
  unfold rated_by. f_equal. apply mapM_ext. intros r. unfold rater_at.
  destruct (decide (r = user_idx)); [done|].
  unfold col_of. by rewrite !list_lookup_fmap, Hrows.
Qed.

Lemma fast_predict_rating_ignores_own_row_witness :
  fast_predict_rating [[0; 5]; [3; 5]; [1; 0]; [5; 1]]%float S_example 0 0 2
  = fast_predict_rating [[4; 4]; [3; 5]; [1; 0]; [5; 1]]%float S_example 0 0 2.
Proof.
  apply fast_predict_rating_ignores_own_row.
  - reflexivity.
  - intros [|r] Hr; [done|reflexivity].
  - vm_compute. lia.
  - vm_compute. lia.
Defined.

(** ** record_interaction on every table *)

Lemma event_key_refreshed s p k now e : event_key (refreshed s p k now e) = event_key e.
Proof. unfold refreshed. by destruct (same_event s p k e). Qed.

(** What the upsert leaves of a table, whatever the table holds. *)
Lemma upsert_interaction_events events s p k now events' :
  upsert_interaction events s p k now = Some events' →
  length (List.filter (same_event s p k) events) ≤ 1 ∧
  events' = match List.filter (same_event s p k) events with
            | [] => events ++ [mkUserInteraction s p k now]
            | _ => refreshed s p k now <$> events
            end.
Proof.
  unfold upsert_interaction, objects_get.
  destruct (List.filter (same_event s p k) events) as [|e [|e' l]]; cbn; [| |done].
  - intros [= <-]. split; [lia|done].
  - intros [= <-]. split; [lia|done].
Qed.

Lemma upsert_interaction_None events s p k now :
  upsert_interaction events s p k now = None
  ↔ 2 ≤ length (List.filter (same_event s p k) events).
Proof.
  unfold upsert_interaction, objects_get.
  destruct (List.filter (same_event s p k) events) as [|e [|e' l]]; cbn;
    (split; [try done; lia | try done; lia]).
Qed.

Section RecordInteractionAlways.
Variable prepare_content_features : DB → option ndarray * list log_record.

(** [record_interaction] returns failure in exactly three cases: no
    product has the id, the clock cannot be read, or the table already
    holds two or more events of the (session, product, kind) triple. A
    failed call changes neither the database nor the model: all it does
    is hand one error record to the logger. *)
Theorem record_interaction_failure (w : World) (s : string) (p : Z) (k : string)
    (now : option Z) :
  let r := record_interaction prepare_content_features w s p k now in
  (r.1 = false
   ↔ get_product (db w) p = None
     ∨ now = None
     ∨ 2 ≤ length (List.filter (same_event s p k) (interactions (db w)))) ∧
  (r.1 = false →
   db r.2 = db w ∧ service r.2 = service w ∧ ∃ message, log r.2 = log w ++ [LogError message]).
Proof.
  cbv zeta. unfold record_interaction.
  destruct (get_product (db w) p) as [q|]; [|split; [by split; [left|]|by cbn; eauto]].
  destruct now as [t|]; cbn [mbind option_bind];
    [|split; [by split; [right; left|]|by cbn; eauto]].
  destruct (upsert_interaction (interactions (db w)) s p k t) as [events|] eqn:Eup.
  - cbn [fst snd]. split; [|done]. split; [done|].
    intros [?|[?|Hmany]]; [done..|]. apply (upsert_interaction_None _ s p k t) in Hmany. congruence.
  - apply upsert_interaction_None in Eup. split; [by split; [right; right|]|by cbn; eauto].
Qed.

(** [record_interaction] never changes the products, never removes an
    event and never touches an event of another (session, product, kind)
    triple: the triples of the table stay as they are, in order, with at
    most the triple of the call added at the end, and of the old events
    only those of that triple differ from before (in their timestamp). *)
Theorem record_interaction_keeps_events (w : World) (s : string) (p : Z) (k : string)
    (now : option Z) :
  let r := record_interaction prepare_content_features w s p k now in
  let before := interactions (db w) in
  let after := interactions (db r.2) in
  products (db r.2) = products (db w) ∧
  ((event_key <$> after) = (event_key <$> before)
   ∨ (((s, p, k) ∉ (event_key <$> before))
      ∧ (event_key <$> after) = (event_key <$> before) ++ [(s, p, k)])) ∧
  (∀ i e, before !! i = Some e → same_event s p k e = false → after !! i = Some e).
Proof.
  cbv zeta. unfold record_interaction.
  destruct (get_product (db w) p) as [q|]; [|cbn; eauto].
  destruct now as [t|]; cbn [mbind option_bind]; [|cbn; eauto].
  destruct (upsert_interaction (interactions (db w)) s p k t) as [events|] eqn:Eup;
    [|cbn; eauto].
  cbn [fst snd].
  assert (∀ w0 : World,
            db (if decide (length (interactions (db w0)) `mod` 50 = 0)
                then (train_model prepare_content_features w0).2 else w0) = db w0) as Hdb.
  { intros w0. destruct (decide _); [apply train_model_db|done]. }
  rewrite Hdb. cbn.
  apply upsert_interaction_events in Eup as [_ ->].
  destruct (List.filter (same_event s p k) (interactions (db w))) as [|e0 l] eqn:Ef.
  - split_and!; [done| |].
    + right. split; [|by rewrite fmap_app].
      intros (e & He & Hin)%list_elem_of_fmap.
      assert (e ∈ List.filter (same_event s p k) (interactions (db w))) as Hf.
      { apply elem_of_bool_filter. split; [done|]. by apply same_event_key. }
      rewrite Ef in Hf. by apply elem_of_nil in Hf.
    + intros i e Hi _. by apply lookup_app_l_Some.
  - split_and!; [done| |].
    + left. rewrite <- list_fmap_compose. apply list_fmap_ext. intros i e _. cbn.
      apply event_key_refreshed.
    + intros i e Hi Hs. rewrite list_lookup_fmap, Hi. cbn. unfold refreshed. by rewrite Hs.
Qed.
End RecordInteractionAlways.

(** ** What the two query methods return in every state *)

Lemma mapM_concat_elem {A B : Type} (f : A → option (list B)) (l : list A)
    (found : list (list B)) (x : B) :
  mapM f l = Some found → x ∈ concat found → ∃ a y, a ∈ l ∧ f a = Some y ∧ x ∈ y.
Proof.
  intros Hfound%mapM_Some_1.
  induction Hfound as [|a y l found Hay _ IH]; cbn; [by intros ?%elem_of_nil|].
  intros [Hx|Hx]%elem_of_app.
  - exists a, y. split_and!; [apply list_elem_of_here|done..].
  - destruct (IH Hx) as (a' & y' & Ha' & Hf & Hy'). exists a', y'.
    split_and!; [by apply list_elem_of_further|done..].
Qed.

Lemma get_active_product_Some (d : DB) (product_id : Z) (p : Product) :
  get_active_product d product_id = Some p →
  p ∈ products d ∧ p_is_active p = true ∧ p_id p = product_id.
Proof.
  unfold get_active_product.
  destruct (List.filter _ (products d)) as [|q l] eqn:Ef; [done|]. intros [= ->].
  assert (p ∈ List.filter (λ p, bool_decide (p_id p = product_id) && p_is_active p) (products d))
    as Hin by (rewrite Ef; apply list_elem_of_here).
  apply elem_of_bool_filter in Hin as [Hin [Hid%bool_decide_eq_true Hact]%andb_true_iff]. done.
Qed.

Lemma product_of_index_Some (w : World) (tag : string) (entry : nat * float)
    (l : list Recommendation) :
  product_of_index w tag entry = Some l →
  length l ≤ 1 ∧
  ∀ r, r ∈ l →
    product r ∈ products (db w) ∧ p_is_active (product r) = true ∧
    reverse_item_mapping (service w) !! entry.1 = Some (p_id (product r)) ∧
    score r = entry.2 ∧ reason r = tag.
Proof.
  unfold product_of_index.
  destruct (reverse_item_mapping (service w) !! entry.1) as [product_id|]; [|done]. cbn.
  destruct (get_active_product (db w) product_id) as [p|] eqn:Ep; intros [= <-].
  - split; [cbn; lia|]. intros r ->%list_elem_of_singleton. cbn.
    apply get_active_product_Some in Ep as (Hin & Hact & <-). done.
  - split; [cbn; lia|]. by intros r ?%elem_of_nil.
Qed.

Lemma similar_at_Some (w : World) (similarities : list float) (idx : nat)
    (l : list Recommendation) :
  similar_at w similarities idx = Some l →
  length l ≤ 1 ∧
  ∀ r, r ∈ l →
    product r ∈ products (db w) ∧ p_is_active (product r) = true ∧
    reverse_item_mapping (service w) !! idx = Some (p_id (product r)) ∧
    similarities !! idx = Some (score r) ∧ (0 <? score r)%float = true ∧
    reason r = "item_similarity".
Proof.
  unfold similar_at. destruct (similarities !! idx) as [s|]; [|done]. cbn.
  destruct (0 <? s)%float eqn:Epos.
  - intros [Hlen Hl]%product_of_index_Some. split; [done|]. intros r Hr.
    destruct (Hl r Hr) as (? & ? & ? & Hs & ?). cbn in Hs. rewrite Hs. done.
  - intros [= <-]. split; [cbn; lia|]. by intros r ?%elem_of_nil.
Qed.

Lemma popular_recommendations_sound (w : World) (n : nat) :
  length (_get_popular_recommendations w n) ≤ n ∧
  ∀ r, r ∈ _get_popular_recommendations w n →
    product r ∈ products (db w) ∧ p_is_active (product r) = true ∧
    score r = 1%float ∧ reason r = "popularity".
Proof.
  unfold _get_popular_recommendations. split.
  - rewrite length_fmap, length_take. lia.
  - intros r (p & -> & [i [Hi _]]%elem_of_take)%list_elem_of_fmap. cbn.
    apply list_elem_of_lookup_2 in Hi. rewrite py_sort_reverse_perm in Hi.
    apply elem_of_bool_filter in Hi as [Hin Hact]. done.
Qed.

Lemma category_recommendations_sound (w : World) (product_id : Z) (n : nat) :
  let r := _get_category_recommendations w product_id n in
  db r.2 = db w ∧ service r.2 = service w ∧ length r.1 ≤ n ∧
  ∀ x, x ∈ r.1 →
    product x ∈ products (db w) ∧ p_is_active (product x) = true ∧
    p_id (product x) ≠ product_id ∧ score x = 1%float ∧ reason x = "same_category".
Proof.
  unfold _get_category_recommendations.
  destruct (get_product (db w) product_id) as [q|]; cbn.
  - split_and!; [done..|rewrite length_fmap, length_take; lia|].
    intros x (p & -> & [i [Hi _]]%elem_of_take)%list_elem_of_fmap. cbn.
    apply list_elem_of_lookup_2 in Hi.
    apply elem_of_bool_filter in Hi as [Hi Hne]. apply elem_of_bool_filter in Hi as [Hin Hc].
    apply andb_true_iff in Hc as [_ Hact].
    apply negb_true_iff, bool_decide_eq_false in Hne. done.
  - split_and!; [done..|lia|]. by intros x ?%elem_of_nil.
Qed.

(** Whenever [compute_user_recommendations] returns, it returns at most
    [n] pairs with distinct columns of the matrix, each of them a candidate. *)
Lemma compute_user_recommendations_sound (M S : ndarray) (user_idx n : nat)
    (recs : list (nat * float)) :
  compute_user_recommendations M S user_idx n = Some recs →
  length recs ≤ n ∧ NoDup (recs.*1) ∧
  ∀ c s, (c, s) ∈ recs → c < shape1 M ∧ candidate M S user_idx c s.
Proof.
  unfold compute_user_recommendations.
  destruct (mapM _ _) as [found|] eqn:Efound; [|done]. cbn. intros [= <-].
  assert (Forall (λ c, is_Some (recommend_at M S user_idx c)) (seq 0 (shape1 M))) as Hsome.
  { apply (mapM_is_Some_1 (recommend_at M S user_idx)). by rewrite Efound. }
  destruct (recommendations_found M S user_idx _ Hsome) as (found' & Hfound' & Hconcat).
  assert (found' = found) as -> by congruence. rewrite Hconcat.
  split_and!.
  - rewrite length_take. lia.
  - rewrite fmap_take. eapply sublist_NoDup; [|apply sublist_take].
    rewrite py_sort_reverse_perm, rec_entry_columns. apply NoDup_bool_filter, NoDup_seq.
  - intros c s [i [Hi _]]%elem_of_take. apply list_elem_of_lookup_2 in Hi.
    rewrite py_sort_reverse_perm in Hi. apply elem_of_recommendations in Hi as [Hc Hcand]; [|done].
    apply elem_of_seq in Hc. split; [lia|done].
Qed.

Section Results.
Variable prepare_content_features : DB → option ndarray * list log_record.

(** In every state of the database and of the model,
    [get_user_recommendations] leaves the database alone, leaves a trained
    model alone, and returns at most [n] entries. Every entry is an
    active product of the catalogue, and it either has reason
    "popularity" and score 1.0 or reason "collaborative_filtering" and a
    score greater than 0. *)
Theorem get_user_recommendations_sound (w : World) (session_key : string) (n : nat) :
  let r := get_user_recommendations prepare_content_features w session_key n in
  db r.2 = db w ∧
  (is_trained (service w) = true → service r.2 = service w) ∧
  length r.1 ≤ n ∧
  ∀ x, x ∈ r.1 →
    product x ∈ products (db w) ∧ p_is_active (product x) = true ∧
    ((reason x = "popularity" ∧ score x = 1%float)
     ∨ (reason x = "collaborative_filtering" ∧ (0 <? score x)%float = true)).
Proof.
  cbv zeta. unfold get_user_recommendations.
  set (w1 := if is_trained (service w) then w else (train_model prepare_content_features w).2).
  assert (db w1 = db w) as Hdb.
  { unfold w1. destruct (is_trained (service w)); [done|apply train_model_db]. }
  assert (is_trained (service w) = true → service w1 = service w) as Hsvc.
  { unfold w1. by intros ->. }
  assert (∀ w2 : World, db w2 = db w → service w2 = service w1 →
            let r := (_get_popular_recommendations w2 n, w2) in
            db r.2 = db w ∧
            (is_trained (service w) = true → service r.2 = service w) ∧
            length r.1 ≤ n ∧
            ∀ x, x ∈ r.1 →
              product x ∈ products (db w) ∧ p_is_active (product x) = true ∧
              ((reason x = "popularity" ∧ score x = 1%float)
               ∨ (reason x = "collaborative_filtering" ∧ (0 <? score x)%float = true)))
    as Hfallback.
  { intros w2 Hdb2 Hsvc2. cbn.
    destruct (popular_recommendations_sound w2 n) as [Hlen Hall].
    split_and!; [done|by intros ?; rewrite Hsvc2; auto|done|].
    intros x Hx. destruct (Hall x Hx) as (? & ? & ? & ?). rewrite <- Hdb2. auto. }
  destruct (negb _ || _); [by apply Hfallback|].
  destruct (user_mapping (service w1) !! session_key) as [user_idx|]; cbn;
    [|by apply Hfallback].
  destruct (user_item_matrix (service w1)) as [M|]; cbn; [|by apply Hfallback].
  destruct (user_similarity_matrix (service w1)) as [S|]; cbn; [|by apply Hfallback].
  destruct (compute_user_recommendations M S user_idx n) as [recs|] eqn:Erecs; cbn;
    [|by apply Hfallback].
  destruct (mapM (product_of_index w1 "collaborative_filtering") recs) as [found|] eqn:Efound;
    cbn; [|by apply Hfallback].
  apply compute_user_recommendations_sound in Erecs as (Hlen & _ & Hcand).
  split_and!; [done..| |].
  - apply mapM_concat_length in Efound; [lia|].
    intros e l Hl. by apply product_of_index_Some in Hl as [? _].
  - intros x Hx.
    destruct (mapM_concat_elem _ _ _ _ Efound Hx) as ([c s] & l & Hcs & Hl & Hxl).
    apply product_of_index_Some in Hl as [_ Hl].
    destruct (Hl x Hxl) as (Hin & Hact & _ & Hscore & Hreason). rewrite <- Hdb.
    split_and!; [done..|]. right. split; [done|]. rewrite Hscore. cbn.
    by destruct (Hcand c s Hcs) as (_ & _ & _ & Hpos).
Qed.

(** In every state, [get_similar_products] leaves the database alone,
    leaves a trained model alone, and returns at most [n] entries. Every
    entry is an active product of the catalogue; it either has reason
    "same_category", score 1.0 and is not the queried product, or it has
    reason "item_similarity" and a score greater than 0. *)
Theorem get_similar_products_sound (w : World) (product_id : Z) (n : nat) :
  let r := get_similar_products prepare_content_features w product_id n in
  db r.2 = db w ∧
  (is_trained (service w) = true → service r.2 = service w) ∧
  length r.1 ≤ n ∧
  ∀ x, x ∈ r.1 →
    product x ∈ products (db w) ∧ p_is_active (product x) = true ∧
    ((reason x = "same_category" ∧ score x = 1%float ∧ p_id (product x) ≠ product_id)
     ∨ (reason x = "item_similarity" ∧ (0 <? score x)%float = true)).
Proof.
  cbv zeta. unfold get_similar_products.
  set (w1 := if is_trained (service w) then w else (train_model prepare_content_features w).2).
  assert (db w1 = db w) as Hdb.
  { unfold w1. destruct (is_trained (service w)); [done|apply train_model_db]. }
  assert (is_trained (service w) = true → service w1 = service w) as Hsvc.
  { unfold w1. by intros ->. }
  assert (∀ w2 : World, db w2 = db w → service w2 = service w1 →
            let r := _get_category_recommendations w2 product_id n in
            db r.2 = db w ∧
            (is_trained (service w) = true → service r.2 = service w) ∧
            length r.1 ≤ n ∧
            ∀ x, x ∈ r.1 →
              product x ∈ products (db w) ∧ p_is_active (product x) = true ∧
              ((reason x = "same_category" ∧ score x = 1%float ∧ p_id (product x) ≠ product_id)
               ∨ (reason x = "item_similarity" ∧ (0 <? score x)%float = true)))
    as Hfallback.
  { intros w2 Hdb2 Hsvc2. cbv zeta.
    destruct (category_recommendations_sound w2 product_id n) as (Hd & Hs & Hlen & Hall).
    split_and!; [congruence|intros ?; rewrite Hs, Hsvc2; auto|done|].
    intros x Hx. destruct (Hall x Hx) as (? & ? & ? & ? & ?). rewrite <- Hdb2.
    split_and!; [done..|]. by left. }
  destruct (negb _ || _); [by apply Hfallback|].
  destruct (item_mapping (service w1) !! product_id) as [item_idx|]; cbn;
    [|by apply Hfallback].
  destruct (item_similarity_matrix (service w1)) as [S|]; cbn; [|by apply Hfallback].
  destruct (S !! item_idx) as [similarities|]; cbn; [|by apply Hfallback].
  destruct (mapM (similar_at w1 similarities) _) as [found|] eqn:Efound; cbn;
    [|by apply Hfallback].
  split_and!; [done..| |].
  - apply mapM_concat_length in Efound.
    + rewrite length_take in Efound. lia.
    + intros e l Hl. by apply similar_at_Some in Hl as [? _].
  - intros x Hx.
    destruct (mapM_concat_elem _ _ _ _ Efound Hx) as (idx & l & _ & Hl & Hxl).
    apply similar_at_Some in Hl as [_ Hl].
    destruct (Hl x Hxl) as (Hin & Hact & _ & _ & Hpos & Hreason). rewrite <- Hdb. auto.
Qed.
End Results.

(** ** The state a training leaves *)

Lemma value_of_index_lookup {K : Type} `{Countable K} (mapping : gmap K nat) (i : nat) (key : K) :
  (∀ x y j, mapping !! x = Some j → mapping !! y = Some j → x = y) →
  value_of_index mapping !! i = Some key ↔ mapping !! key = Some i.
Proof.
  intros Hinj. unfold value_of_index. rewrite py_dict_lookup.
  - rewrite list_elem_of_fmap. split.
    + intros ([x j] & [= -> ->] & Hin). by apply elem_of_map_to_list in Hin.
    + intros Hm. exists (key, i). split; [done|]. by apply elem_of_map_to_list.
  - rewrite <- list_fmap_compose. apply NoDup_fmap_2_strong; [|apply NoDup_map_to_list].
    intros [x j] [y j'] Hx%elem_of_map_to_list Hy%elem_of_map_to_list. cbn. intros <-.
    f_equal. by eapply Hinj.
Qed.

Lemma index_of_value_indexes {K : Type} `{Countable K} (l : list K) :
  indexes (index_of_value (pd_unique l)) (value_of_index (index_of_value (pd_unique l)))
    (length (pd_unique l)).
Proof.
  destruct (pd_unique_spec l) as [Hnd _].
  destruct (index_of_value_unique l) as (_ & Hinj & _). split.
  - intros key i. by rewrite value_of_index_lookup.
  - intros i. split.
    + intros [key Hkey]. rewrite value_of_index_lookup in Hkey by done.
      apply index_of_value_lookup in Hkey; [|done]. by eapply lookup_lt_Some.
    + intros [key Hkey]%lookup_lt_is_Some_2. exists key.
      rewrite value_of_index_lookup by done. by apply index_of_value_lookup.
Qed.

Lemma has_shape_shape1 (n m : nat) (M : ndarray) : has_shape n m M → 0 < n → shape1 M = m.
Proof.
  intros [Hn Hm] Hpos. destruct M as [|r M]; cbn in *; [lia|]. by apply Forall_cons in Hm as [? _].
Qed.

(** The similarity matrices of a consistent service are square. *)
Lemma consistent_shapes (s : RecommendationService) :
  consistent s →
  ∃ (M user_sim item_sim : ndarray) (n_users n_items : nat),
    user_item_matrix s = Some M ∧
    user_similarity_matrix s = Some user_sim ∧
    item_similarity_matrix s = Some item_sim ∧
    0 < n_users ∧ 0 < n_items ∧
    has_shape n_users n_items M ∧
    has_shape n_users n_users user_sim ∧
    has_shape n_items n_items item_sim ∧
    indexes (user_mapping s) (reverse_user_mapping s) n_users ∧
    indexes (item_mapping s) (reverse_item_mapping s) n_items ∧
    user_sim = compute_cosine_similarity_matrix M ∧
    item_sim = compute_item_similarity_matrix M.
Proof.
  intros (M & n_users & n_items & HM & HUS & HIS & Hu & Hi & Hshape & Huidx & Hiidx).
  exists M, (compute_cosine_similarity_matrix M), (compute_item_similarity_matrix M),
    n_users, n_items.
  split_and!; try done.
  - destruct (pairwise_similarity_cells (row_of M) (shape0 M)) as [Hs _].
    destruct Hshape as [<- _]. exact Hs.
  - destruct (pairwise_similarity_cells (col_of M) (shape1 M)) as [Hs _].
    unfold compute_item_similarity_matrix.
    by rewrite (has_shape_shape1 _ _ _ Hshape Hu) in Hs |- *.
Qed.

(** The shape of what [prepare_interaction_data] builds from a table that
    is not empty, and the keys it numbers. *)
Lemma prepare_interaction_data_shape (w : World) :
  interactions (db w) ≠ [] →
  ∃ M s' n_users n_items,
    prepare_interaction_data w = (Some M, mkWorld (db w) s' (log w)) ∧
    0 < n_users ∧ 0 < n_items ∧
    has_shape n_users n_items M ∧
    indexes (user_mapping s') (reverse_user_mapping s') n_users ∧
    indexes (item_mapping s') (reverse_item_mapping s') n_items ∧
    (∀ s, is_Some (user_mapping s' !! s) ↔ s ∈ ui_session_key <$> interactions (db w)) ∧
    (∀ p, is_Some (item_mapping s' !! p) ↔ p ∈ ui_product <$> interactions (db w)).
Proof.
  intros Hne. unfold prepare_interaction_data.
  destruct (interactions (db w)) as [|e0 events0] eqn:Eev; [done|].
  rewrite <- Eev. clear Hne.
  fold (interaction_rows (interactions (db w))).
  set (rows := interaction_rows (interactions (db w))).
  set (df := groupby_sum rows).
  set (user_keys := (λ r : frame_row, r.1.1) <$> df).
  set (item_keys := (λ r : frame_row, r.1.2) <$> df).
  destruct (index_of_value_unique user_keys) as (Hult & Huinj & Hudom).
  destruct (index_of_value_unique item_keys) as (Hilt & Hiinj & Hidom).
  pose proof (index_of_value_indexes user_keys) as Huidx.
  pose proof (index_of_value_indexes item_keys) as Hiidx.
  set (users := index_of_value (pd_unique user_keys)) in *.
  set (items := index_of_value (pd_unique item_keys)) in *.
  destruct (fill_rows users items (length (pd_unique user_keys)) (length (pd_unique item_keys))
              Hult Hilt Huinj Hiinj df
              (np_zeros (length (pd_unique user_keys)) (length (pd_unique item_keys))))
    as (M & HM & Hshape & Hcells).
  { apply has_shape_zeros. }
  { intros r Hr. split.
    - apply Hudom, (list_elem_of_fmap_2 (λ r : frame_row, r.1.1) _ _ Hr).
    - apply Hidom, (list_elem_of_fmap_2 (λ r : frame_row, r.1.2) _ _ Hr). }
  { apply groupby_sum_NoDup. }
  assert (∀ key, key ∈ df.*1 ↔ ∃ e, e ∈ interactions (db w)
                                   ∧ key = (ui_session_key e, ui_product e)) as Hkeys.
  { intros key. unfold df. rewrite elem_of_groupby_sum_keys. unfold rows, interaction_rows.
    rewrite <- list_fmap_compose, list_elem_of_fmap. cbn. split.
    - intros (e & -> & He). eauto.
    - intros (e & He & ->). eauto. }
  assert (∀ s, s ∈ user_keys ↔ s ∈ ui_session_key <$> interactions (db w)) as Husers.
  { intros s. unfold user_keys. rewrite !list_elem_of_fmap. split.
    - intros (r & -> & Hr).
      assert (r.1 ∈ df.*1) as (e & He & Hkey)%Hkeys by by apply list_elem_of_fmap_2.
      exists e. by rewrite Hkey.
    - intros (e & -> & He).
      assert ((ui_session_key e, ui_product e) ∈ df.*1) as (r & Hr & Hin)%list_elem_of_fmap
        by (apply Hkeys; eauto).
      exists r. by rewrite <- Hr. }
  assert (∀ p, p ∈ item_keys ↔ p ∈ ui_product <$> interactions (db w)) as Hitems.
  { intros p. unfold item_keys. rewrite !list_elem_of_fmap. split.
    - intros (r & -> & Hr).
      assert (r.1 ∈ df.*1) as (e & He & Hkey)%Hkeys by by apply list_elem_of_fmap_2.
      exists e. by rewrite Hkey.
    - intros (e & -> & He).
      assert ((ui_session_key e, ui_product e) ∈ df.*1) as (r & Hr & Hin)%list_elem_of_fmap
        by (apply Hkeys; eauto).
      exists r. by rewrite <- Hr. }
  assert (e0 ∈ interactions (db w)) as He0 by (rewrite Eev; apply list_elem_of_here).
  rewrite HM.
  eexists M, _, (length (pd_unique user_keys)), (length (pd_unique item_keys)).
  split; [reflexivity|]. cbn. split_and!; try done.
  - assert (is_Some (users !! ui_session_key e0)) as [i Hi].
    { apply Hudom, Husers. by apply list_elem_of_fmap_2. }
    apply Hult in Hi. lia.
  - assert (is_Some (items !! ui_product e0)) as [i Hi].
    { apply Hidom, Hitems. by apply list_elem_of_fmap_2. }
    apply Hilt in Hi. lia.
  - intros s. by rewrite <- Hudom.
  - intros p. by rewrite <- Hidom.
Qed.

Section Consistency.
Variable prepare_content_features : DB → option ndarray * list log_record.

(** What a training on a table that is not empty leaves. *)
Lemma train_model_state (w : World) :
  interactions (db w) ≠ [] →
  let s' := service (train_model prepare_content_features w).2 in
  consistent s' ∧ is_trained s' = true ∧
  (∀ s, is_Some (user_mapping s' !! s) ↔ s ∈ ui_session_key <$> interactions (db w)) ∧
  (∀ p, is_Some (item_mapping s' !! p) ↔ p ∈ ui_product <$> interactions (db w)).
Proof.
  intros Hne.
  destruct (train_model_nonempty prepare_content_features w Hne)
    as (M & s' & logged & Hprep & ->).
  destruct (prepare_interaction_data_shape w Hne)
    as (M2 & s2 & n_users & n_items & Hprep2 & Hu & Hi & Hshape & Huidx & Hiidx & Hudom & Hidom).
  rewrite Hprep in Hprep2.
  assert (M2 = M) as -> by congruence. assert (s2 = s') as -> by congruence.
  cbn. split_and!; [|done..].
  exists M, n_users, n_items. cbn. split_and!; done.
Qed.

(** The cells of the rating matrix a training leaves. *)
Lemma train_model_cells (w : World) (M : ndarray) (s : string) (p : Z) (u i : nat) :
  interactions (db w) ≠ [] →
  let s' := service (train_model prepare_content_features w).2 in
  user_item_matrix s' = Some M →
  user_mapping s' !! s = Some u →
  item_mapping s' !! p = Some i →
  cell M u i = Some (pair_weight (interactions (db w)) s p).
Proof.
  intros Hne.
  destruct (train_model_nonempty prepare_content_features w Hne)
    as (M1 & s1 & logged & Hprep & ->).
  destruct (prepare_interaction_data_cells w Hne)
    as (M2 & s2 & Hprep2 & _ & _ & _ & _ & _ & _ & Hcells).
  rewrite Hprep in Hprep2.
  assert (M2 = M1) as -> by congruence. assert (s2 = s1) as -> by congruence.
  cbn. intros [= <-]. apply Hcells.
Qed.
End Consistency.

(** ** The order of np.argsort *)

Lemma ltb_nan_l x y : (x =? x)%float = false → (x <? y)%float = false.
Proof.
  intros Hx. destruct (x <? y)%float eqn:E; [|done].
  apply ltb_not_nan_l in E. unfold not_nan in E. congruence.
Qed.

Lemma ltb_nan_r x y : (y =? y)%float = false → (x <? y)%float = false.
Proof.
  intros Hy. destruct (x <? y)%float eqn:E; [|done].
  apply ltb_not_nan_r in E. unfold not_nan in E. congruence.
Qed.

(** The order of [np.argsort] is a strict weak order on all of [float64],
    NaN included. *)
Lemma np_lt_weak_order : weak_order (λ a b : nat * float, np_lt a.2 b.2) (λ _, True).
Proof.
  destruct score_lt_weak_order as [Hasym Hneg]. unfold score_lt, score_ok, not_nan in *.
  split.
  - intros [i x] [j y] _ _. unfold np_lt. cbn.
    destruct (x =? x)%float eqn:Ex, (y =? y)%float eqn:Ey; cbn;
      rewrite ?orb_false_r, ?orb_true_r, ?(ltb_nan_l x y), ?(ltb_nan_r x y),
        ?(ltb_nan_l y x), ?(ltb_nan_r y x) by done; try done.
    intros H. by apply (Hasym (i, x) (j, y)).
  - intros [i x] [j y] [l z] _ _ _. unfold np_lt. cbn.
    destruct (x =? x)%float eqn:Ex, (y =? y)%float eqn:Ey, (z =? z)%float eqn:Ez; cbn;
      rewrite ?orb_false_r, ?orb_true_r, ?(ltb_nan_l x y), ?(ltb_nan_r x y),
        ?(ltb_nan_l y z), ?(ltb_nan_r y z), ?(ltb_nan_l x z), ?(ltb_nan_r x z) by done;
      try done.
    intros H1 H2. by apply (Hneg (i, x) (j, y) (l, z)).
Qed.

(** ** Lists in order *)

Lemma StronglySorted_lookup {A : Type} (R : A → A → Prop) (l : list A) :
  StronglySorted R l ↔ ∀ i j x y, i < j → l !! i = Some x → l !! j = Some y → R x y.
Proof.
  split.
  - induction 1 as [|a l Hs IH Ha]; intros i j x y Hij Hi Hj; [done|].
    destruct j as [|j]; [lia|]. destruct i as [|i]; cbn in *.
    + simplify_eq. rewrite Forall_forall in Ha. apply Ha. by eapply list_elem_of_lookup_2.
    + apply (IH i j); [lia|done..].
  - induction l as [|a l IH]; intros H; constructor.
    + apply IH. intros i j x y Hij Hi Hj. apply (H (S i) (S j)); [lia|done..].
    + apply Forall_forall. intros y [j Hj]%list_elem_of_lookup. by apply (H 0 (S j)); [lia|..].
Qed.

Lemma StronglySorted_NoDup {A : Type} (l : list A) : StronglySorted (λ x y, x ≠ y) l ↔ NoDup l.
Proof.
  rewrite StronglySorted_lookup, NoDup_alt. split.
  - intros H i j x Hi Hj. destruct (Nat.lt_trichotomy i j) as [Hlt|[->|Hlt]]; [|done|].
    + by destruct (H i j x x Hlt Hi Hj).
    + by destruct (H j i x x Hlt Hj Hi).
  - intros H i j x y Hij Hi Hj ->. specialize (H i j y Hi Hj). lia.
Qed.

Lemma StronglySorted_and {A : Type} (R R' : A → A → Prop) (l : list A) :
  StronglySorted R l → StronglySorted R' l → StronglySorted (λ x y, R x y ∧ R' x y) l.
Proof. rewrite !StronglySorted_lookup. intros H H' i j x y Hij Hi Hj. split; eauto. Qed.

Lemma StronglySorted_sublist {A : Type} (R : A → A → Prop) (l k : list A) :
  k `sublist_of` l → StronglySorted R l → StronglySorted R k.
Proof.
  intros Hsub Hs. revert k Hsub. induction Hs as [|a l Hs IH Ha]; intros k Hsub.
  - apply sublist_nil_r in Hsub as ->. constructor.
  - apply sublist_cons_r in Hsub as [Hsub|(k' & -> & Hsub)]; [by apply IH|].
    constructor; [by apply IH|]. apply Forall_forall. intros y Hy.
    rewrite Forall_forall in Ha. apply Ha. by eapply elem_of_sublist.
Qed.

(** What comes out of a loop that appends at most one entry per element,
    in the order of the elements. *)
Lemma mapM_concat_sorted {A B : Type} (R : A → A → Prop) (Q : B → B → Prop)
    (f : A → option (list B)) (l : list A) (found : list (list B)) :
  mapM f l = Some found →
  (∀ a y, f a = Some y → length y ≤ 1) →
  (∀ a b la lb x y, R a b → f a = Some la → f b = Some lb → x ∈ la → y ∈ lb → Q x y) →
  StronglySorted R l → StronglySorted Q (concat found).
Proof.
  intros Hfound Hone HRQ Hs. revert found Hfound.
  induction Hs as [|a l Hs IH Ha]; intros found Hfound.
  - apply mapM_Some_1, Forall2_nil_inv_l in Hfound as ->. constructor.
  - apply mapM_Some_1, Forall2_cons_inv_l in Hfound as (la & rest & Hla & Hrest & ->).
    apply mapM_Some_2 in Hrest. cbn.
    pose proof (Hone a la Hla) as Hlen.
    destruct la as [|x [|x' la]]; cbn in Hlen; [by apply IH| |lia].
    cbn. constructor; [by apply IH|].
    apply Forall_forall. intros y Hy.
    destruct (mapM_concat_elem _ _ _ _ Hrest Hy) as (b & lb & Hb & Hlb & Hyb).
    rewrite Forall_forall in Ha. apply (HRQ a b [x] lb); auto. apply list_elem_of_here.
Qed.

(** ** np.argsort *)

Lemma fst_enumerate_from {A : Type} (v : list A) (k : nat) :
  (imap (λ i x, (k + i, x)) v).*1 = seq k (length v).
Proof.
  revert k. induction v as [|x v IH]; intros k; [done|]. cbn. rewrite Nat.add_0_r. f_equal.
  rewrite <- (IH (S k)). f_equal. apply imap_ext. intros i y _. cbn. f_equal. lia.
Qed.

Lemma fst_enumerate_pairs {A : Type} (v : list A) :
  (imap (λ i x, (i, x)) v).*1 = seq 0 (length v).
Proof. apply (fst_enumerate_from v 0). Qed.

(** [np.argsort] lists every index of its argument once. *)
Lemma np_argsort_perm (v : list float) : np_argsort v ≡ₚ seq 0 (length v).
Proof. unfold np_argsort. by rewrite py_sort_perm, fst_enumerate_pairs. Qed.

Lemma np_argsort_descending (v : list float) :
  StronglySorted (listed_before v) (reverse (np_argsort v)).
Proof.
  unfold np_argsort. rewrite <- fmap_reverse.
  set (lt := λ a b : nat * float, np_lt a.2 b.2).
  set (pairs := imap (λ i x, (i, x)) v).
  assert (descending lt (reverse (py_sort lt pairs))) as Hdesc.
  { apply (ascending_reverse lt), (py_sort_ascending lt (λ _, True));
      [apply np_lt_weak_order|by apply Forall_forall]. }
  assert (reverse (py_sort lt pairs) ≡ₚ pairs) as Hperm
    by by rewrite reverse_Permutation, py_sort_perm.
  assert (NoDup ((reverse (py_sort lt pairs)).*1)) as Hnd.
  { rewrite Hperm. unfold pairs. rewrite fst_enumerate_pairs. apply NoDup_seq. }
  assert (∀ p, p ∈ reverse (py_sort lt pairs) → v !! p.1 = Some p.2) as Hval.
  { intros p. rewrite Hperm. unfold pairs.
    intros (i & x & -> & Hx)%elem_of_lookup_imap. done. }
  apply StronglySorted_lookup. intros i j a b Hij Hi Hj.
  rewrite list_lookup_fmap in Hi, Hj.
  destruct (reverse (py_sort lt pairs) !! i) as [p|] eqn:Ep; [|done].
  destruct (reverse (py_sort lt pairs) !! j) as [q|] eqn:Eq; [|done].
  cbn in Hi, Hj. simplify_eq. split.
  - intros Heq. rewrite NoDup_alt in Hnd.
    assert (i = j); [|lia]. apply (Hnd i j p.1); rewrite list_lookup_fmap.
    + by rewrite Ep.
    + by rewrite Eq, Heq.
  - exists p.2, q.2. split_and!.
    + apply Hval. by eapply list_elem_of_lookup_2.
    + apply Hval. by eapply list_elem_of_lookup_2.
    + apply (descending_lookup lt _ i j p q Hdesc Hij Ep Eq).
Qed.

(** ** The two query methods on a consistent model *)

Lemma compute_user_recommendations_descending (M S : ndarray) (user_idx n : nat)
    (recs : list (nat * float)) :
  compute_user_recommendations M S user_idx n = Some recs → descending score_lt recs.
Proof.
  unfold compute_user_recommendations.
  destruct (mapM _ _) as [found|] eqn:Efound; [|done]. cbn. intros [= <-].
  assert (Forall (λ c, is_Some (recommend_at M S user_idx c)) (seq 0 (shape1 M))) as Hsome.
  { apply (mapM_is_Some_1 (recommend_at M S user_idx)). by rewrite Efound. }
  destruct (recommendations_found M S user_idx _ Hsome) as (found' & Hfound' & Hconcat).
  assert (found' = found) as -> by congruence. rewrite Hconcat.
  apply descending_take, (py_sort_reverse_descending score_lt score_ok);
    [apply score_lt_weak_order|].
  apply Forall_forall. intros [c s] [_ (_ & _ & Hpos)]%elem_of_recommendations; [|done].
  by eapply ltb_not_nan_r.
Qed.

Lemma compute_user_recommendations_defined (M S : ndarray) (user_idx n : nat) :
  shapes_agree M S user_idx → is_Some (compute_user_recommendations M S user_idx n).
Proof.
  intros Hshapes.
  assert (Forall (λ c, is_Some (recommend_at M S user_idx c)) (seq 0 (shape1 M))) as Hsome.
  { apply Forall_forall. intros c Hc%elem_of_seq. apply recommend_at_is_Some; [done|lia]. }
  destruct (recommendations_found M S user_idx _ Hsome) as (found & Hfound & _).
  unfold compute_user_recommendations. rewrite Hfound. by eexists.
Qed.

Lemma has_shape_row (n m : nat) (M : ndarray) (i : nat) :
  has_shape n m M → i < n → ∃ row, M !! i = Some row ∧ length row = m.
Proof.
  intros [Hn Hm] Hi. destruct (lookup_lt_is_Some_2 M i) as [row Hrow]; [lia|].
  exists row. split; [done|]. rewrite Forall_forall in Hm. apply Hm.
  by eapply list_elem_of_lookup_2.
Qed.

Lemma indexes_lt {K : Type} `{Countable K} (mapping : gmap K nat) (reverse : gmap nat K)
    (n : nat) (key : K) (i : nat) :
  indexes mapping reverse n → mapping !! key = Some i → i < n.
Proof. intros [Hinv Hdom] Hi. apply Hdom. exists key. by apply Hinv. Qed.

Section Paths.
Variable prepare_content_features : DB → option ndarray * list log_record.

(** The steps of [get_user_recommendations] on a consistent model that
    knows the session: the pairs the engine returns and the entries the
    loop appends for them. *)
Lemma get_user_recommendations_steps (w : World) (session_key : string) (n : nat)
    (user_idx : nat) :
  let attempted :=
    if is_trained (service w) then w else (train_model prepare_content_features w).2 in
  is_trained (service attempted) = true →
  consistent (service attempted) →
  user_mapping (service attempted) !! session_key = Some user_idx →
  ∃ (M : ndarray) (n_items : nat) (recs : list (nat * float))
    (found : list (list Recommendation)),
    user_item_matrix (service attempted) = Some M ∧
    user_similarity_matrix (service attempted) = Some (compute_cosine_similarity_matrix M) ∧
    indexes (item_mapping (service attempted)) (reverse_item_mapping (service attempted))
      n_items ∧
    compute_user_recommendations M (compute_cosine_similarity_matrix M) user_idx n
    = Some recs ∧
    mapM (product_of_index attempted "collaborative_filtering") recs = Some found ∧
    get_user_recommendations prepare_content_features w session_key n
    = (concat found, attempted).
Proof.
  intros attempted Htrained Hcons Huser.
  destruct (consistent_shapes _ Hcons)
    as (M & S & IS & n_users & n_items & HM & HS & HIS & Hnu & Hni
        & HshapeM & HshapeS & HshapeIS & Huidx & Hiidx & -> & _).
  pose proof (indexes_lt _ _ _ _ _ Huidx Huser) as Hu.
  pose proof (has_shape_shape1 _ _ _ HshapeM Hnu) as Hshape1.
  assert (shapes_agree M (compute_cosine_similarity_matrix M) user_idx) as Hagree.
  { destruct HshapeM as [Hlen Hrows]. split_and!.
    - by rewrite Hshape1.
    - lia.
    - destruct (has_shape_row _ _ _ user_idx HshapeS Hu) as (row & Hrow & Hlenrow).
      exists row. split; [done|lia]. }
  destruct (compute_user_recommendations_defined M _ user_idx n Hagree) as [recs Hrecs].
  pose proof (compute_user_recommendations_sound _ _ _ _ _ Hrecs) as (_ & _ & Hcand).
  assert (is_Some (mapM (product_of_index attempted "collaborative_filtering") recs))
    as [found Hfound].
  { apply mapM_is_Some_2, Forall_forall. intros [c s] [Hc _]%Hcand.
    unfold compose, product_of_index. cbn.
    destruct (proj2 (proj2 Hiidx c)) as [product_id ->]; [lia|]. by eexists. }
  exists M, n_items, recs, found. split_and!; [done..|].
  unfold get_user_recommendations. fold attempted.
  rewrite Htrained, Huser, HM, HS. cbn. rewrite Hrecs. cbn. by rewrite Hfound.
Qed.

(** The run of [get_user_recommendations] on a consistent model that
    knows the session. *)
Lemma get_user_recommendations_run (w : World) (session_key : string) (n : nat)
    (user_idx : nat) :
  let attempted :=
    if is_trained (service w) then w else (train_model prepare_content_features w).2 in
  is_trained (service attempted) = true →
  consistent (service attempted) →
  user_mapping (service attempted) !! session_key = Some user_idx →
  ∃ M S,
    user_item_matrix (service attempted) = Some M ∧
    user_similarity_matrix (service attempted) = Some S ∧
    let r := get_user_recommendations prepare_content_features w session_key n in
    r.2 = attempted ∧
    NoDup (product <$> r.1) ∧
    (∀ x, x ∈ r.1 →
       reason x = "collaborative_filtering" ∧
       ∃ c, item_mapping (service attempted) !! p_id (product x) = Some c ∧
            candidate M S user_idx c (score x)) ∧
    (∀ i j a b, i < j → r.1 !! i = Some a → r.1 !! j = Some b →
       (score b <=? score a)%float = true).
Proof.
  intros attempted Htrained Hcons Huser.
  destruct (get_user_recommendations_steps w session_key n user_idx Htrained Hcons Huser)
    as (M & n_items & recs & found & HM & HS & Hiidx & Hrecs & Hfound & Hrun).
  exists M, (compute_cosine_similarity_matrix M). split_and!; [done..|].
  pose proof (compute_user_recommendations_sound _ _ _ _ _ Hrecs) as (_ & Hnd & Hcand).
  pose proof (compute_user_recommendations_descending _ _ _ _ _ Hrecs) as Hdesc.
  cbv zeta. rewrite Hrun. cbn [fst snd].
  assert (StronglySorted
            (λ x y : Recommendation,
               product x ≠ product y ∧ (score y <=? score x)%float = true)
            (concat found)) as Hsorted.
  { apply (mapM_concat_sorted
             (λ a b : nat * float,
                a.1 ≠ b.1 ∧ score_lt a b = false ∧ score_ok a ∧ score_ok b)
             _ _ recs found Hfound).
    - intros e l Hl. by apply product_of_index_Some in Hl as [? _].
    - intros a b la lb x y (Hne & Hlt & Hoka & Hokb) Hla Hlb Hx Hy.
      apply product_of_index_Some in Hla as [_ Hla], Hlb as [_ Hlb].
      destruct (Hla x Hx) as (_ & _ & Hrx & Hsx & _).
      destruct (Hlb y Hy) as (_ & _ & Hry & Hsy & _).
      split.
      + intros Heq. apply Hne. rewrite Heq in Hrx.
        apply (proj1 Hiidx) in Hrx, Hry. congruence.
      + rewrite Hsx, Hsy. by apply ltb_false_leb.
    - apply StronglySorted_lookup. intros i j a b Hij Hi Hj.
      assert (score_ok a ∧ score_ok b) as [Hoka Hokb].
      { split.
        - destruct a as [c s]. apply list_elem_of_lookup_2, Hcand in Hi as (_ & _ & _ & Hpos).
          by eapply ltb_not_nan_r.
        - destruct b as [c s]. apply list_elem_of_lookup_2, Hcand in Hj as (_ & _ & _ & Hpos).
          by eapply ltb_not_nan_r. }
      split_and!; [|by eapply (descending_lookup score_lt recs i j)|done..].
      intros Heq. rewrite NoDup_alt in Hnd.
      assert (i = j); [|lia]. apply (Hnd i j a.1); rewrite list_lookup_fmap.
      + by rewrite Hi.
      + by rewrite Hj, Heq. }
  split_and!; [done| | |].
  - apply NoDup_alt. intros i j p Hi Hj. rewrite list_lookup_fmap in Hi, Hj.
    destruct (concat found !! i) as [x|] eqn:Ex; [|done].
    destruct (concat found !! j) as [y|] eqn:Ey; [|done].
    cbn in Hi, Hj. simplify_eq.
    rewrite StronglySorted_lookup in Hsorted.
    destruct (Nat.lt_trichotomy i j) as [Hlt|[->|Hlt]]; [|done|].
    + by destruct (Hsorted i j x y Hlt Ex Ey) as [Hne _].
    + by destruct (Hsorted j i y x Hlt Ey Ex) as [Hne _].
  - intros x Hx.
    destruct (mapM_concat_elem _ _ _ _ Hfound Hx) as ([c s] & l & Hcs & Hl & Hxl).
    apply product_of_index_Some in Hl as [_ Hl].
    destruct (Hl x Hxl) as (_ & _ & Hr & Hscore & Hreason). cbn in Hr, Hscore.
    split; [done|]. exists c. split; [by apply (proj1 Hiidx)|].
    rewrite Hscore. by apply Hcand.
  - intros i j a b Hij Ha Hb. rewrite StronglySorted_lookup in Hsorted.
    by destruct (Hsorted i j a b Hij Ha Hb).
Qed.

(** When the model, after the training on demand, is trained and
    consistent and knows the session, [get_user_recommendations] takes the
    collaborative path and nothing in it raises: no error is logged and
    the state stays as the training on demand left it. The entries are
    different products, each the product of a column that is a candidate
    for the row of the session: the session's cell in that column is 0
    and the score is the predicted rating, greater than 0. The scores
    never increase along the list. *)
Theorem get_user_recommendations_collaborative (w : World) (session_key : string) (n : nat)
    (user_idx : nat) :
  let attempted :=
    if is_trained (service w) then w else (train_model prepare_content_features w).2 in
  is_trained (service attempted) = true →
  consistent (service attempted) →
  user_mapping (service attempted) !! session_key = Some user_idx →
  ∃ M S,
    user_item_matrix (service attempted) = Some M ∧
    user_similarity_matrix (service attempted) = Some S ∧
    let r := get_user_recommendations prepare_content_features w session_key n in
    r.2 = attempted ∧
    NoDup (product <$> r.1) ∧
    (∀ x, x ∈ r.1 →
       reason x = "collaborative_filtering" ∧
       ∃ c, item_mapping (service attempted) !! p_id (product x) = Some c ∧
            candidate M S user_idx c (score x)) ∧
    (∀ i j a b, i < j → r.1 !! i = Some a → r.1 !! j = Some b →
       (score b <=? score a)%float = true).
Proof. apply get_user_recommendations_run. Qed.

(** The first query of a session that has events, on a service that is
    not trained yet: the model is trained on the spot and the answer has
    collaborative entries only, with no fallback to popularity even when
    it is empty. Every entry has a score greater than 0 and is a product
    that occurs in the interaction table, and the weights of the
    session's own events on it sum to 0: the session has no event on it,
    or its events cancel. *)
Theorem get_user_recommendations_first_query (w : World) (e : UserInteraction) (n : nat) :
  is_trained (service w) = false →
  e ∈ interactions (db w) →
  let r := get_user_recommendations prepare_content_features w (ui_session_key e) n in
  r.2 = (train_model prepare_content_features w).2 ∧
  ∀ x, x ∈ r.1 →
    reason x = "collaborative_filtering" ∧
    (0 <? score x)%float = true ∧
    p_id (product x) ∈ ui_product <$> interactions (db w) ∧
    (pair_weight (interactions (db w)) (ui_session_key e) (p_id (product x)) =? 0)%float = true.
Proof.
  intros Huntrained He.
  assert (interactions (db w) ≠ []) as Hne by (intros Hnil; rewrite Hnil in He; by apply elem_of_nil in He).
  destruct (train_model_state prepare_content_features w Hne) as (Hcons & Htrained & Hudom & Hidom).
  assert (is_Some (user_mapping (service (train_model prepare_content_features w).2)
                     !! ui_session_key e)) as [user_idx Huser].
  { apply Hudom. by apply list_elem_of_fmap_2. }
  pose proof (get_user_recommendations_run w (ui_session_key e) n user_idx) as Hrun.
  cbv zeta in Hrun. rewrite Huntrained in Hrun.
  destruct (Hrun Htrained Hcons Huser) as (M & S & HM & HS & Hw & _ & Hall & _).
  split; [done|]. intros x Hx.
  destruct (Hall x Hx) as (Hreason & c & Hc & (y & Hcell & Hzero) & _ & Hpos).
  split_and!; [done..| |].
  - apply Hidom. by eexists.
  - rewrite (train_model_cells prepare_content_features w M (ui_session_key e)
               (p_id (product x)) user_idx c Hne HM Huser Hc) in Hcell.
    by injection Hcell as <-.
Qed.

(** The run of [get_similar_products] on a consistent model that knows
    the product: the similarity row, the indices the slice keeps, and the
    entries the loop appends for them. *)
Lemma get_similar_products_run (w : World) (product_id : Z) (n : nat) (item_idx : nat) :
  let attempted :=
    if is_trained (service w) then w else (train_model prepare_content_features w).2 in
  is_trained (service attempted) = true →
  consistent (service attempted) →
  item_mapping (service attempted) !! product_id = Some item_idx →
  ∃ (M : ndarray) (n_items : nat) (similarities : list float) (found : list (list Recommendation)),
    user_item_matrix (service attempted) = Some M ∧
    item_similarity_matrix (service attempted) = Some (compute_item_similarity_matrix M) ∧
    shape1 M = n_items ∧ item_idx < n_items ∧
    indexes (item_mapping (service attempted)) (reverse_item_mapping (service attempted))
      n_items ∧
    compute_item_similarity_matrix M !! item_idx = Some similarities ∧
    length similarities = n_items ∧
    mapM (similar_at attempted similarities)
      (take n (drop 1 (reverse (np_argsort similarities)))) = Some found ∧
    get_similar_products prepare_content_features w product_id n = (concat found, attempted).
Proof.
  intros attempted Htrained Hcons Hitem.
  destruct (consistent_shapes _ Hcons)
    as (M & US & S & n_users & n_items & HM & HUS & HS & Hnu & Hni
        & HshapeM & HshapeUS & HshapeS & Huidx & Hiidx & _ & ->).
  pose proof (indexes_lt _ _ _ _ _ Hiidx Hitem) as Hi.
  destruct (has_shape_row _ _ _ item_idx HshapeS Hi) as (similarities & Hrow & Hlen).
  set (similar_indices := take n (drop 1 (reverse (np_argsort similarities)))).
  assert (∀ idx, idx ∈ similar_indices → idx < n_items) as Hidx.
  { intros idx Hin. eapply elem_of_sublist in Hin;
      [|etrans; [apply sublist_take|apply sublist_drop]].
    rewrite elem_of_reverse, np_argsort_perm, elem_of_seq in Hin. lia. }
  assert (is_Some (mapM (similar_at attempted similarities) similar_indices)) as [found Hfound].
  { apply mapM_is_Some_2, Forall_forall. intros idx Hin%Hidx.
    unfold compose, similar_at.
    destruct (lookup_lt_is_Some_2 similarities idx) as [s ->]; [lia|]. cbn.
    destruct (0 <? s)%float; [|by eexists].
    unfold product_of_index. cbn.
    destruct (proj2 (proj2 Hiidx idx)) as [pid ->]; [lia|]. by eexists. }
  exists M, n_items, similarities, found.
  split_and!; [done|done|by eapply has_shape_shape1|done..|].
  unfold get_similar_products. fold attempted.
  rewrite Htrained, Hitem, HS. cbn. rewrite Hrow. cbn.
  fold similar_indices. by rewrite Hfound.
Qed.

(** When the model, after the training on demand, is trained and
    consistent and knows the product, [get_similar_products] takes the
    item-similarity path and nothing in it raises: no error is logged and
    the state stays as the training on demand left it. The entries are
    different products; the score of each is its entry in the
    similarity row of the queried product, greater than 0; and the
    scores never increase along the list. *)
Theorem get_similar_products_item_similarity (w : World) (product_id : Z) (n : nat)
    (item_idx : nat) :
  let attempted :=
    if is_trained (service w) then w else (train_model prepare_content_features w).2 in
  is_trained (service attempted) = true →
  consistent (service attempted) →
  item_mapping (service attempted) !! product_id = Some item_idx →
  ∃ S,
    item_similarity_matrix (service attempted) = Some S ∧
    let r := get_similar_products prepare_content_features w product_id n in
    r.2 = attempted ∧
    NoDup (product <$> r.1) ∧
    (∀ x, x ∈ r.1 →
       reason x = "item_similarity" ∧
       ∃ c, item_mapping (service attempted) !! p_id (product x) = Some c ∧
            cell S item_idx c = Some (score x) ∧ (0 <? score x)%float = true) ∧
    (∀ i j a b, i < j → r.1 !! i = Some a → r.1 !! j = Some b →
       (score b <=? score a)%float = true).
Proof.
  intros attempted Htrained Hcons Hitem.
  destruct (get_similar_products_run w product_id n item_idx Htrained Hcons Hitem)
    as (M & n_items & similarities & found & HM & HS & Hshape1 & Hi & Hiidx & Hrow & Hlen
        & Hfound & Hrun).
  exists (compute_item_similarity_matrix M). split; [done|].
  cbv zeta. rewrite Hrun. cbn [fst snd].
  assert (StronglySorted
            (λ x y : Recommendation,
               product x ≠ product y ∧ (score y <=? score x)%float = true)
            (concat found)) as Hsorted.
  { apply (mapM_concat_sorted (listed_before similarities) _ _ _ found Hfound).
    - intros e l Hl. by apply similar_at_Some in Hl as [? _].
    - intros a b la lb x y (Hne & x0 & y0 & Hx0 & Hy0 & Hlt) Hla Hlb Hx Hy.
      apply similar_at_Some in Hla as [_ Hla], Hlb as [_ Hlb].
      destruct (Hla x Hx) as (_ & _ & Hrx & Hsx & Hposx & _).
      destruct (Hlb y Hy) as (_ & _ & Hry & Hsy & Hposy & _).
      split.
      + intros Heq. apply Hne. rewrite Heq in Hrx.
        apply (proj1 Hiidx) in Hrx, Hry. congruence.
      + assert (x0 = score x) as -> by congruence. assert (y0 = score y) as -> by congruence.
        apply ltb_false_leb; [by eapply ltb_not_nan_r..|].
        unfold np_lt in Hlt. by apply orb_false_iff in Hlt as [? _].
    - eapply StronglySorted_sublist; [|apply np_argsort_descending].
      etrans; [apply sublist_take|apply sublist_drop]. }
  split_and!; [done| | |].
  - apply NoDup_alt. intros i j p Hi' Hj. rewrite list_lookup_fmap in Hi', Hj.
    destruct (concat found !! i) as [x|] eqn:Ex; [|done].
    destruct (concat found !! j) as [y|] eqn:Ey; [|done].
    cbn in Hi', Hj. simplify_eq.
    rewrite StronglySorted_lookup in Hsorted.
    destruct (Nat.lt_trichotomy i j) as [Hlt|[->|Hlt]]; [|done|].
    + by destruct (Hsorted i j x y Hlt Ex Ey) as [Hne _].
    + by destruct (Hsorted j i y x Hlt Ey Ex) as [Hne _].
  - intros x Hx.
    destruct (mapM_concat_elem _ _ _ _ Hfound Hx) as (idx & l & _ & Hl & Hxl).
    apply similar_at_Some in Hl as [_ Hl].
    destruct (Hl x Hxl) as (_ & _ & Hr & Hs & Hpos & Hreason).
    split; [done|]. exists idx. split_and!; [by apply (proj1 Hiidx)| |done].
    unfold cell. rewrite Hrow. done.
  - intros i j a b Hij Ha Hb. rewrite StronglySorted_lookup in Hsorted.
    by destruct (Hsorted i j a b Hij Ha Hb).
Qed.

(** The slice [[1:n+1]] of [get_similar_products] does exclude the
    queried product when the product's own similarity is the strict
    maximum of its row: if every other entry of the row is below 1.0, no
    entry of the result is the queried product. *)
Theorem get_similar_products_excludes_self (w : World) (product_id : Z) (n : nat)
    (item_idx : nat) (S : ndarray) :
  let attempted :=
    if is_trained (service w) then w else (train_model prepare_content_features w).2 in
  is_trained (service attempted) = true →
  consistent (service attempted) →
  item_mapping (service attempted) !! product_id = Some item_idx →
  item_similarity_matrix (service attempted) = Some S →
  (∀ c v, c ≠ item_idx → cell S item_idx c = Some v → (v <? 1)%float = true) →
  ∀ x, x ∈ (get_similar_products prepare_content_features w product_id n).1 →
       p_id (product x) ≠ product_id.
Proof.
  intros attempted Htrained Hcons Hitem HS Hbelow x.
  destruct (get_similar_products_run w product_id n item_idx Htrained Hcons Hitem)
    as (M & n_items & similarities & found & HM & HS' & Hshape1 & Hi & Hiidx & Hrow & Hlen
        & Hfound & Hrun).
  fold attempted in HM, HS', Hiidx, Hfound, Hrun.
  rewrite HS in HS'. injection HS' as ->.
  rewrite Hrun. cbn [fst]. intros Hx Hid.
  destruct (mapM_concat_elem _ _ _ _ Hfound Hx) as (idx & l & Hidx & Hl & Hxl).
  apply similar_at_Some in Hl as [_ Hl].
  destruct (Hl x Hxl) as (_ & _ & Hr & _).
  rewrite Hid in Hr. apply (proj1 Hiidx) in Hr.
  assert (idx = item_idx) as -> by congruence. clear Hl Hxl Hr.
  (* the product's own index is the first of the reversed argsort *)
  assert (cell (compute_item_similarity_matrix M) item_idx item_idx = Some 1%float) as Hdiag.
  { destruct (pairwise_similarity_spec (shape1 M) (col_of M)) as [_ Hcells].
    apply (Hcells item_idx item_idx); lia. }
  unfold cell in Hdiag. rewrite Hrow in Hdiag. cbn in Hdiag.
  pose proof (np_argsort_descending similarities) as Hdesc.
  assert (NoDup (reverse (np_argsort similarities))) as Hnd.
  { rewrite reverse_Permutation, np_argsort_perm. apply NoDup_seq. }
  assert (item_idx ∈ reverse (np_argsort similarities)) as Hin.
  { rewrite elem_of_reverse, np_argsort_perm, elem_of_seq. lia. }
  destruct (reverse (np_argsort similarities)) as [|h t]; [by apply elem_of_nil in Hin|].
  apply NoDup_cons in Hnd as [Hfresh _].
  apply StronglySorted_cons in Hdesc as [Hh _].
  cbn [drop] in Hidx. apply elem_of_take in Hidx as [i [Hidx%list_elem_of_lookup_2 _]].
  assert (h ≠ item_idx) as Hne by (by intros ->).
  rewrite Forall_forall in Hh.
  destruct (Hh item_idx Hidx) as (_ & v & y & Hv & Hy & Hlt).
  assert (y = 1%float) as -> by congruence.
  assert ((v <? 1)%float = true) as Hv1.
  { apply (Hbelow h v Hne). unfold cell. rewrite Hrow. done. }
  unfold np_lt in Hlt. rewrite Hv1 in Hlt. done.
Qed.
End Paths.

(** ** The life of the global instance *)

Section Invariant.
Variable prepare_content_features : DB → option ndarray * list log_record.

(** After a training on a table that is not empty the model is trained
    and its attributes fit together: the rating matrix has one row per
    session and one column per product of the table, the similarity
    matrices are square of these sizes, the two mappings number exactly
    the sessions and the products of the table by the rows and columns,
    and each reverse mapping is the inverse of its mapping. *)
Theorem train_model_consistent (w : World) :
  interactions (db w) ≠ [] →
  let s' := service (train_model prepare_content_features w).2 in
  is_trained s' = true ∧ consistent s' ∧
  (∀ s, is_Some (user_mapping s' !! s) ↔ s ∈ ui_session_key <$> interactions (db w)) ∧
  (∀ p, is_Some (item_mapping s' !! p) ↔ p ∈ ui_product <$> interactions (db w)).
Proof.
  intros Hne. destruct (train_model_state prepare_content_features w Hne) as (? & ? & ? & ?).
  done.
Qed.

Lemma train_model_keeps_consistency (w : World) :
  trained_consistent w →
  is_trained (service w) = false ∨ interactions (db w) ≠ [] →
  trained_consistent (train_model prepare_content_features w).2.
Proof.
  intros Hinv Hcase. destruct (decide (interactions (db w) = [])) as [Hempty|Hne].
  - destruct Hcase as [Hun|?]; [|done].
    rewrite train_model_empty by done. unfold trained_consistent. cbn. congruence.
  - intros _. by apply train_model_state.
Qed.

Lemma attempted_consistent (w : World) :
  trained_consistent w →
  trained_consistent
    (if is_trained (service w) then w else (train_model prepare_content_features w).2).
Proof.
  intros Hinv. destruct (is_trained (service w)) eqn:Et; [done|].
  apply train_model_keeps_consistency; auto.
Qed.

Lemma get_user_recommendations_service (w : World) (session_key : string) (n : nat) :
  service (get_user_recommendations prepare_content_features w session_key n).2
  = service (if is_trained (service w) then w
             else (train_model prepare_content_features w).2).
Proof.
  unfold get_user_recommendations.
  destruct (negb _ || _); [done|]. by destruct (_ ≫= _).
Qed.

Lemma get_similar_products_service (w : World) (product_id : Z) (n : nat) :
  service (get_similar_products prepare_content_features w product_id n).2
  = service (if is_trained (service w) then w
             else (train_model prepare_content_features w).2).
Proof.
  unfold get_similar_products.
  destruct (negb _ || _); [by apply category_recommendations_sound|].
  destruct (_ ≫= _); [done|].
  by destruct (category_recommendations_sound
                 (logging (LogError "Error getting similar products: ")
                    (if is_trained (service w) then w
                     else (train_model prepare_content_features w).2)) product_id n)
    as (_ & -> & _).
Qed.

Lemma record_interaction_keeps_consistency (w : World) (s : string) (p : Z) (k : string)
    (now : option Z) :
  trained_consistent w →
  trained_consistent (record_interaction prepare_content_features w s p k now).2.
Proof.
  intros Hinv. unfold record_interaction.
  destruct (get_product (db w) p) as [q|]; [|done].
  destruct now as [t|]; cbn [mbind option_bind]; [|done].
  destruct (upsert_interaction (interactions (db w)) s p k t) as [events|] eqn:Eup; [|done].
  cbn [fst snd]. destruct (decide _) as [_|_]; [|done].
  apply train_model_keeps_consistency; [done|]. right. cbn.
  apply upsert_interaction_events in Eup as [_ ->].
  destruct (List.filter (same_event s p k) (interactions (db w))) as [|e0 l] eqn:Ef.
  - by intros [_ [=]]%app_eq_nil.
  - intros Hnil%fmap_nil_inv. by rewrite Hnil in Ef.
Qed.

Lemma step_keeps_consistency (w w' : World) :
  step prepare_content_features w w' → trained_consistent w → trained_consistent w'.
Proof.
  intros Hstep Hinv. destruct Hstep; unfold trained_consistent.
  - rewrite get_user_recommendations_service. by apply attempted_consistent.
  - rewrite get_similar_products_service. by apply attempted_consistent.
  - by apply record_interaction_keeps_consistency.
  - done.
Qed.

(** Whatever the views do with the global instance, and whatever happens
    to the database in between, a model that counts as trained is
    consistent: starting from a fresh [RecommendationService], no
    sequence of calls of [get_user_recommendations],
    [get_similar_products] and [record_interaction] leaves the trained
    flag set over attributes that do not fit together. (The methods call
    [train_model] only on an untrained model or right after an event has
    been recorded, so the failing retrain never happens to a trained
    model.) *)
Theorem service_stays_consistent (d : DB) (logged : list log_record) (w : World) :
  rtc (step prepare_content_features) (mkWorld d init_service logged) w →
  trained_consistent w.
Proof.
  intros Hsteps.
  assert (trained_consistent (mkWorld d init_service logged)) as Hstart by by intros [=].
  induction Hsteps as [|w1 w2 w3 Hstep _ IH]; [done|].
  apply IH. by eapply step_keeps_consistency.
Qed.
End Invariant.

Lemma train_model_consistent_witness :
  let s' := service (train_model no_content_features shop_world).2 in
  is_trained s' = true ∧ consistent s' ∧
  (∀ s, is_Some (user_mapping s' !! s) ↔ s ∈ ui_session_key <$> interactions (db shop_world)) ∧
  (∀ p, is_Some (item_mapping s' !! p) ↔ p ∈ ui_product <$> interactions (db shop_world)).
Proof.
  apply (train_model_consistent no_content_features shop_world). vm_compute. discriminate.
Defined.

Lemma service_stays_consistent_witness :
  trained_consistent
    (get_similar_products no_content_features
       (record_interaction no_content_features shop_world "s3" 1 "like" (Some 5%Z)).2 1 4).2.
Proof.
  apply (service_stays_consistent no_content_features shop [] _).
  eapply rtc_l; [apply step_record|]. apply rtc_once, step_similar.
Defined.

Lemma get_user_recommendations_collaborative_witness :
  ∃ M S,
    user_item_matrix (service shop_trained) = Some M ∧
    user_similarity_matrix (service shop_trained) = Some S ∧
    let r := get_user_recommendations no_content_features shop_world "s2" 5 in
    r.2 = shop_trained ∧
    NoDup (product <$> r.1) ∧
    (∀ x, x ∈ r.1 →
       reason x = "collaborative_filtering" ∧
       ∃ c, item_mapping (service shop_trained) !! p_id (product x) = Some c ∧
            candidate M S 1 c (score x)) ∧
    (∀ i j a b, i < j → r.1 !! i = Some a → r.1 !! j = Some b →
       (score b <=? score a)%float = true).
Proof.
  apply (get_user_recommendations_collaborative no_content_features shop_world "s2" 5 1).
  - vm_compute. reflexivity.
  - apply (train_model_state no_content_features shop_world). vm_compute. discriminate.
  - vm_compute. reflexivity.
Defined.

Lemma get_similar_products_item_similarity_witness :
  ∃ S,
    item_similarity_matrix (service shop_trained) = Some S ∧
    let r := get_similar_products no_content_features shop_world 3 5 in
    r.2 = shop_trained ∧
    NoDup (product <$> r.1) ∧
    (∀ x, x ∈ r.1 →
       reason x = "item_similarity" ∧
       ∃ c, item_mapping (service shop_trained) !! p_id (product x) = Some c ∧
            cell S 1 c = Some (score x) ∧ (0 <? score x)%float = true) ∧
    (∀ i j a b, i < j → r.1 !! i = Some a → r.1 !! j = Some b →
       (score b <=? score a)%float = true).
Proof.
  apply (get_similar_products_item_similarity no_content_features shop_world 3 5 1).
  - vm_compute. reflexivity.
  - apply (train_model_state no_content_features shop_world). vm_compute. discriminate.
  - vm_compute. reflexivity.
Defined.

Lemma get_similar_products_excludes_self_witness :
  Forall (λ x, p_id (product x) ≠ 3%Z)
    (get_similar_products no_content_features shop_world 3 5).1.
Proof.
  apply Forall_forall.
  apply (get_similar_products_excludes_self no_content_features shop_world 3 5 1
           (compute_item_similarity_matrix [[1; 1]; [0; 3]]%float)).
  - vm_compute. reflexivity.
  - apply (train_model_state no_content_features shop_world). vm_compute. discriminate.
  - vm_compute. reflexivity.
  - vm_compute. reflexivity.
  - intros [|[|c]] v Hc Hv; [|done|].
    + vm_compute in Hv. injection Hv as <-. vm_compute. reflexivity.
    + vm_compute in Hv. discriminate.
Defined.

Lemma get_user_recommendations_first_query_witness :
  let e := mkUserInteraction "s2" 3 "like" 1 in
  let r := get_user_recommendations no_content_features shop_world "s2" 5 in
  r.2 = (train_model no_content_features shop_world).2 ∧
  ∀ x, x ∈ r.1 →
    reason x = "collaborative_filtering" ∧
    (0 <? score x)%float = true ∧
    p_id (product x) ∈ ui_product <$> interactions (db shop_world) ∧
    (pair_weight (interactions (db shop_world)) "s2" (p_id (product x)) =? 0)%float = true.
Proof.
  apply (get_user_recommendations_first_query no_content_features shop_world
           (mkUserInteraction "s2" 3 "like" 1) 5).
  - reflexivity.
  - vm_compute. apply list_elem_of_further, list_elem_of_here.
Defined.

(** ** The query methods in a consistent state *)




Section Queries.
Variable prepare_content_features : DB → option ndarray * list log_record.

Lemma get_user_recommendations_fallback (w : World) (session_key : string) (n : nat) :
  let attempted :=
    if is_trained (service w) then w else (train_model prepare_content_features w).2 in
  is_trained (service attempted) = false
  ∨ user_mapping (service attempted) !! session_key = None →
  get_user_recommendations prepare_content_features w session_key n
  = (_get_popular_recommendations attempted n, attempted).
Proof.
  intros attempted Hcase. unfold get_user_recommendations. fold attempted.
  assert (negb (is_trained (service attempted))
          || bool_decide (user_mapping (service attempted) !! session_key = None) = true)
    as ->; [|done].
  apply orb_true_iff. destruct Hcase as [-> | ->]; [by left|].
  right. by apply bool_decide_eq_true.
Qed.

Lemma get_similar_products_fallback (w : World) (product_id : Z) (n : nat) :
  let attempted :=
    if is_trained (service w) then w else (train_model prepare_content_features w).2 in
  is_trained (service attempted) = false
  ∨ item_mapping (service attempted) !! product_id = None →
  get_similar_products prepare_content_features w product_id n
  = _get_category_recommendations attempted product_id n.
Proof.
  intros attempted Hcase. unfold get_similar_products. fold attempted.
  assert (negb (is_trained (service attempted))
          || bool_decide (item_mapping (service attempted) !! product_id = None) = true)
    as ->; [|done].
  apply orb_true_iff. destruct Hcase as [-> | ->]; [by left|].
  right. by apply bool_decide_eq_true.
Qed.

(** In a consistent state the handlers [except Exception] of the two
    query methods are never entered. [get_user_recommendations] leaves
    the state as the training on demand left it, whichever path it
    takes. So does [get_similar_products], unless it falls back to the
    category of a product that does not exist: then the one record it
    logs is the error of the category fallback. *)
Theorem query_methods_raise_nothing (w : World) :
  trained_consistent w →
  let attempted :=
    if is_trained (service w) then w else (train_model prepare_content_features w).2 in
  (∀ session_key n,
     (get_user_recommendations prepare_content_features w session_key n).2 = attempted) ∧
  (∀ product_id n,
     let after := (get_similar_products prepare_content_features w product_id n).2 in
     after = attempted
     ∨ (get_product (db w) product_id = None
        ∧ after = logging (LogError "Error getting category recommendations: ") attempted)).
Proof.
  intros Hinv attempted.
  pose proof (attempted_consistent prepare_content_features w Hinv) as Hcons.
  fold attempted in Hcons. unfold trained_consistent in Hcons.
  assert (db attempted = db w) as Hdb.
  { unfold attempted. destruct (is_trained (service w)); [done|apply train_model_db]. }
  split.
  - intros session_key n.
    destruct (is_trained (service attempted)) eqn:Ht;
      [|by rewrite get_user_recommendations_fallback by (left; apply Ht)].
    destruct (user_mapping (service attempted) !! session_key) as [user_idx|] eqn:Eu;
      [|by rewrite get_user_recommendations_fallback by (right; apply Eu)].
    destruct (get_user_recommendations_steps prepare_content_features w session_key n
                user_idx Ht (Hcons eq_refl) Eu)
      as (M & n_items & recs & found & _ & _ & _ & _ & _ & ->). done.
  - intros product_id n. cbv zeta.
    assert (∀ r, r = _get_category_recommendations attempted product_id n →
              r.2 = attempted
              ∨ (get_product (db w) product_id = None
                 ∧ r.2 = logging (LogError "Error getting category recommendations: ")
                           attempted)) as Hfallback.
    { intros r ->. unfold _get_category_recommendations. rewrite Hdb.
      destruct (get_product (db w) product_id); [by left|by right]. }
    destruct (is_trained (service attempted)) eqn:Ht;
      [|by apply Hfallback; rewrite get_similar_products_fallback by (left; apply Ht)].
    destruct (item_mapping (service attempted) !! product_id) as [item_idx|] eqn:Ei;
      [|by apply Hfallback; rewrite get_similar_products_fallback by (right; apply Ei)].
    destruct (get_similar_products_run prepare_content_features w product_id n item_idx
                Ht (Hcons eq_refl) Ei)
      as (M & n_items & sims & found & _ & _ & _ & _ & _ & _ & _ & _ & ->). by left.
Qed.

End Queries.


Lemma query_methods_raise_nothing_witness :
  (∀ session_key n,
     (get_user_recommendations no_content_features shop_trained session_key n).2
     = shop_trained) ∧
  (∀ product_id n,
     let after := (get_similar_products no_content_features shop_trained product_id n).2 in
     after = shop_trained
     ∨ (get_product (db shop_trained) product_id = None
        ∧ after = logging (LogError "Error getting category recommendations: ") shop_trained)).
Proof.
  apply (query_methods_raise_nothing no_content_features shop_trained).
  intros _. apply (train_model_state no_content_features shop_world). vm_compute. discriminate.
Defined.

Lemma fast_predict_rating_neighbourhood_witness :
  fast_predict_rating M_example S_example 0 0 4
  = fast_predict_rating M_example S_example 0 0 default_k.
Proof.
  apply (proj1 (fast_predict_rating_neighbourhood M_example S_example 0 0)).
  - vm_compute. lia.
  - vm_compute. lia.
Defined.

(** ** The content features *)

Lemma same_model_logging (r1 r2 : log_record) (w1 w2 : World) :
  same_model w1 w2 → same_model (logging r1 w1) (logging r2 w2).
Proof. done. Qed.

Lemma product_of_index_same_model (w1 w2 : World) (tag : string) (entry : nat * float) :
  same_model w1 w2 → product_of_index w1 tag entry = product_of_index w2 tag entry.
Proof.
  intros (Hdb & _ & _ & _ & _ & _ & _ & Hri & _). unfold product_of_index.
  by rewrite Hdb, Hri.
Qed.

Lemma similar_at_same_model (w1 w2 : World) (similarities : list float) (idx : nat) :
  same_model w1 w2 → similar_at w1 similarities idx = similar_at w2 similarities idx.
Proof.
  intros Hsame. unfold similar_at. destruct (similarities !! idx) as [s|]; [|done]. cbn.
  destruct (0 <? s)%float; [|done]. by apply product_of_index_same_model.
Qed.

Lemma category_recommendations_same_model (w1 w2 : World) (product_id : Z) (n : nat) :
  same_model w1 w2 →
  let r1 := _get_category_recommendations w1 product_id n in
  let r2 := _get_category_recommendations w2 product_id n in
  r1.1 = r2.1 ∧ same_model r1.2 r2.2.
Proof.
  intros Hsame. pose proof Hsame as (Hdb & _). unfold _get_category_recommendations.
  rewrite Hdb. destruct (get_product (db w2) product_id); cbn; [done|].
  split; [done|]. by apply same_model_logging.
Qed.

Section ContentFeatures.
Variables prepare1 prepare2 : DB → option ndarray * list log_record.

Lemma train_model_same_model (w1 w2 : World) :
  same_model w1 w2 →
  (train_model prepare1 w1).1 = (train_model prepare2 w2).1 ∧
  same_model (train_model prepare1 w1).2 (train_model prepare2 w2).2.
Proof.
  intros (Hdb & HM & HUS & HIS & Hu & Hi & Hru & Hri & Ht).
  destruct (decide (interactions (db w1) = [])) as [Hempty|Hne].
  - rewrite (train_model_empty prepare1 w1) by done.
    rewrite (train_model_empty prepare2 w2) by by rewrite <- Hdb.
    split; [done|]. unfold same_model. cbn. split_and!; done.
  - destruct (train_model_nonempty prepare1 w1 Hne) as (M1 & s1 & logged1 & Hprep1 & ->).
    destruct (train_model_nonempty prepare2 w2) as (M2 & s2 & logged2 & Hprep2 & ->);
      [by rewrite <- Hdb|].
    pose proof (prepare_interaction_data_db w1 w2 Hdb) as [HMeq Hmaps].
    cbv zeta in HMeq, Hmaps. rewrite Hprep1, Hprep2 in HMeq, Hmaps. cbn in HMeq, Hmaps.
    destruct (Hmaps Hne) as (Hu' & Hi' & Hru' & Hri'). injection HMeq as ->.
    split; [done|]. unfold same_model. cbn. split_and!; done.
Qed.

Lemma attempted_same_model (w1 w2 : World) :
  same_model w1 w2 →
  same_model (if is_trained (service w1) then w1 else (train_model prepare1 w1).2)
             (if is_trained (service w2) then w2 else (train_model prepare2 w2).2).
Proof.
  intros Hsame. pose proof Hsame as (_ & _ & _ & _ & _ & _ & _ & _ & Ht). rewrite Ht.
  destruct (is_trained (service w2)); [done|]. by apply train_model_same_model.
Qed.

(** The content features are write-only. Whatever [prepare_content_features]
    returns, and whatever the attribute [content_features] holds, the
    answers of the public methods are the same: started in two worlds
    with the same database and the same model state but for the content
    features, and run with two different feature extractors,
    [get_user_recommendations], [get_similar_products] and
    [record_interaction] return the same values and leave worlds that
    again differ in the content features (and the log) only. *)
Theorem content_features_never_read (w1 w2 : World) :
  same_model w1 w2 →
  (∀ session_key n,
     let r1 := get_user_recommendations prepare1 w1 session_key n in
     let r2 := get_user_recommendations prepare2 w2 session_key n in
     r1.1 = r2.1 ∧ same_model r1.2 r2.2) ∧
  (∀ product_id n,
     let r1 := get_similar_products prepare1 w1 product_id n in
     let r2 := get_similar_products prepare2 w2 product_id n in
     r1.1 = r2.1 ∧ same_model r1.2 r2.2) ∧
  (∀ session_key product_id interaction_type now,
     let r1 := record_interaction prepare1 w1 session_key product_id interaction_type now in
     let r2 := record_interaction prepare2 w2 session_key product_id interaction_type now in
     r1.1 = r2.1 ∧ same_model r1.2 r2.2).
Proof.
  intros Hsame. pose proof (attempted_same_model w1 w2 Hsame) as Hatt.
  split_and!.
  - intros session_key n. cbv zeta. unfold get_user_recommendations.
    set (a1 := if is_trained (service w1) then w1 else (train_model prepare1 w1).2) in *.
    set (a2 := if is_trained (service w2) then w2 else (train_model prepare2 w2).2) in *.
    pose proof Hatt as (Hdb & HM & HUS & _ & Hu & _ & _ & _ & Ht).
    rewrite Ht, Hu, HM, HUS.
    rewrite (popular_recommendations_db a1 a2 n Hdb).
    assert (∀ recs, mapM (product_of_index a1 "collaborative_filtering") recs
                    = mapM (product_of_index a2 "collaborative_filtering") recs) as Hmap.
    { intros recs. apply mapM_ext. intros e. by apply product_of_index_same_model. }
    destruct (negb _ || _); [done|].
    destruct (user_mapping (service a2) !! session_key) as [user_idx|]; cbn;
      [|split; [apply popular_recommendations_db|apply same_model_logging]; done].
    destruct (user_item_matrix (service a2)) as [M|]; cbn;
      [|split; [apply popular_recommendations_db|apply same_model_logging]; done].
    destruct (user_similarity_matrix (service a2)) as [S|]; cbn;
      [|split; [apply popular_recommendations_db|apply same_model_logging]; done].
    destruct (compute_user_recommendations M S user_idx n) as [recs|]; cbn;
      [|split; [apply popular_recommendations_db|apply same_model_logging]; done].
    rewrite Hmap.
    destruct (mapM (product_of_index a2 "collaborative_filtering") recs); cbn;
      [done|split; [apply popular_recommendations_db|apply same_model_logging]; done].
  - intros product_id n. cbv zeta. unfold get_similar_products.
    set (a1 := if is_trained (service w1) then w1 else (train_model prepare1 w1).2) in *.
    set (a2 := if is_trained (service w2) then w2 else (train_model prepare2 w2).2) in *.
    pose proof Hatt as (Hdb & _ & _ & HIS & _ & Hi & _ & _ & Ht).
    rewrite Ht, Hi, HIS.
    assert (∀ sims l, mapM (similar_at a1 sims) l = mapM (similar_at a2 sims) l) as Hmap.
    { intros sims l. apply mapM_ext. intros e. by apply similar_at_same_model. }
    assert (∀ r1 r2 : log_record,
              let c1 := _get_category_recommendations (logging r1 a1) product_id n in
              let c2 := _get_category_recommendations (logging r2 a2) product_id n in
              c1.1 = c2.1 ∧ same_model c1.2 c2.2) as Hlogged.
    { intros r1 r2. by apply category_recommendations_same_model, same_model_logging. }
    destruct (negb _ || _); [by apply category_recommendations_same_model|].
    destruct (item_mapping (service a2) !! product_id) as [item_idx|]; cbn; [|apply Hlogged].
    destruct (item_similarity_matrix (service a2)) as [S|]; cbn; [|apply Hlogged].
    destruct (S !! item_idx) as [similarities|]; cbn; [|apply Hlogged].
    rewrite Hmap. destruct (mapM (similar_at a2 similarities) _); cbn; [done|apply Hlogged].
  - intros session_key product_id interaction_type now. cbv zeta.
    unfold record_interaction. pose proof Hsame as (Hdb & _). rewrite Hdb.
    destruct (get_product (db w2) product_id); [|by split; [|apply same_model_logging]].
    destruct (now ≫= _) as [events|]; [|by split; [|apply same_model_logging]].
    cbn [fst snd].
    assert (same_model (with_db (mkDB (products (db w2)) events) w1)
                       (with_db (mkDB (products (db w2)) events) w2)) as Hrec.
    { destruct Hsame as (_ & ?). done. }
    split; [done|]. cbn. destruct (decide _); [|done]. by apply train_model_same_model.
Qed.
End ContentFeatures.

Lemma content_features_never_read_witness :
  let features (d : DB) : option ndarray * list log_record :=
    (Some [[1%float]], [LogError "Error preparing content features: "]) in
  (∀ session_key n,
     let r1 := get_user_recommendations no_content_features shop_world session_key n in
     let r2 := get_user_recommendations features shop_world session_key n in
     r1.1 = r2.1 ∧ same_model r1.2 r2.2) ∧
  (∀ product_id n,
     let r1 := get_similar_products no_content_features shop_world product_id n in
     let r2 := get_similar_products features shop_world product_id n in
     r1.1 = r2.1 ∧ same_model r1.2 r2.2) ∧
  (∀ session_key product_id interaction_type now,
     let r1 := record_interaction no_content_features shop_world session_key product_id
                 interaction_type now in
     let r2 := record_interaction features shop_world session_key product_id
                 interaction_type now in
     r1.1 = r2.1 ∧ same_model r1.2 r2.2).
Proof.
  intros features.
  apply (content_features_never_read no_content_features features shop_world shop_world).
  unfold same_model. split_and!; reflexivity.
Defined.

(** ** The timestamps *)

Lemma interaction_rows_event_key (events : list UserInteraction) :
  interaction_rows events
  = (λ key : string * Z * string, ((key.1.1, key.1.2), _get_interaction_weight key.2))
      <$> (event_key <$> events).
Proof. unfold interaction_rows. rewrite <- list_fmap_compose. done. Qed.

(** [prepare_interaction_data] reads the (session, product, kind) triples
    of the events, in table order, and nothing else. *)
Lemma prepare_interaction_data_event_keys (w1 w2 : World) :
  event_key <$> interactions (db w1) = event_key <$> interactions (db w2) →
  let r1 := prepare_interaction_data w1 in
  let r2 := prepare_interaction_data w2 in
  r1.1 = r2.1 ∧
  (interactions (db w1) ≠ [] →
   user_mapping (service r1.2) = user_mapping (service r2.2) ∧
   item_mapping (service r1.2) = item_mapping (service r2.2) ∧
   reverse_user_mapping (service r1.2) = reverse_user_mapping (service r2.2) ∧
   reverse_item_mapping (service r1.2) = reverse_item_mapping (service r2.2)).
Proof.
  intros Hkeys. cbv zeta. unfold prepare_interaction_data.
  fold (interaction_rows (interactions (db w1))).
  fold (interaction_rows (interactions (db w2))).
  rewrite !interaction_rows_event_key, Hkeys.
  destruct (interactions (db w1)) as [|e1 l1], (interactions (db w2)) as [|e2 l2];
    try done.
  destruct (foldl _ _ _); cbn; done.
Qed.

Section Timestamps.
Variable prepare_content_features : DB → option ndarray * list log_record.

(** The model never reads a timestamp. Two interaction tables with the
    same (session, product, kind) triples in the same order train the
    same model: the same outcome, rating matrix, similarity matrices and
    mappings. In particular the refresh of a timestamp by
    [record_interaction] changes nothing the model learns. *)
Theorem timestamps_never_read (w1 w2 : World) :
  event_key <$> interactions (db w1) = event_key <$> interactions (db w2) →
  service w1 = service w2 →
  let r1 := train_model prepare_content_features w1 in
  let r2 := train_model prepare_content_features w2 in
  r1.1 = r2.1 ∧
  user_item_matrix (service r1.2) = user_item_matrix (service r2.2) ∧
  user_similarity_matrix (service r1.2) = user_similarity_matrix (service r2.2) ∧
  item_similarity_matrix (service r1.2) = item_similarity_matrix (service r2.2) ∧
  user_mapping (service r1.2) = user_mapping (service r2.2) ∧
  item_mapping (service r1.2) = item_mapping (service r2.2) ∧
  reverse_user_mapping (service r1.2) = reverse_user_mapping (service r2.2) ∧
  reverse_item_mapping (service r1.2) = reverse_item_mapping (service r2.2) ∧
  is_trained (service r1.2) = is_trained (service r2.2).
Proof.
  intros Hkeys Hsvc. cbv zeta.
  destruct (decide (interactions (db w1) = [])) as [Hempty|Hne].
  - assert (interactions (db w2) = []) as Hempty2.
    { rewrite Hempty in Hkeys. symmetry in Hkeys. by apply fmap_nil_inv in Hkeys. }
    rewrite (train_model_empty _ w1), (train_model_empty _ w2) by done. cbn.
    rewrite Hsvc. split_and!; done.
  - assert (interactions (db w2) ≠ []) as Hne2.
    { intros Hempty2. rewrite Hempty2 in Hkeys. by apply fmap_nil_inv in Hkeys. }
    destruct (train_model_nonempty prepare_content_features w1 Hne)
      as (M1 & s1 & logged1 & Hprep1 & ->).
    destruct (train_model_nonempty prepare_content_features w2 Hne2)
      as (M2 & s2 & logged2 & Hprep2 & ->).
    pose proof (prepare_interaction_data_event_keys w1 w2 Hkeys) as [HM Hmaps].
    cbv zeta in HM, Hmaps. rewrite Hprep1, Hprep2 in HM, Hmaps. cbn in HM, Hmaps.
    destruct (Hmaps Hne) as (Hu & Hi & Hru & Hri). injection HM as ->.
    cbn. split_and!; done.
Qed.
End Timestamps.

Lemma timestamps_never_read_witness :
  let later := mkWorld (mkDB (products shop) (refreshed "s1" 3 "view" 99 <$> interactions shop))
                 init_service [] in
  let r1 := train_model no_content_features shop_world in
  let r2 := train_model no_content_features later in
  r1.1 = r2.1 ∧
  user_item_matrix (service r1.2) = user_item_matrix (service r2.2) ∧
  user_similarity_matrix (service r1.2) = user_similarity_matrix (service r2.2) ∧
  item_similarity_matrix (service r1.2) = item_similarity_matrix (service r2.2) ∧
  user_mapping (service r1.2) = user_mapping (service r2.2) ∧
  item_mapping (service r1.2) = item_mapping (service r2.2) ∧
  reverse_user_mapping (service r1.2) = reverse_user_mapping (service r2.2) ∧
  reverse_item_mapping (service r1.2) = reverse_item_mapping (service r2.2) ∧
  is_trained (service r1.2) = is_trained (service r2.2).
Proof.
  intros later.
  apply (timestamps_never_read no_content_features shop_world later); reflexivity.
Defined.
